(** * KHQR payment reconciliation: a model of [controllers/khqrPayment.js]

    The controller is written as JavaScript [async] functions and timer
    callbacks.  Each of them runs without interruption up to its next
    [await]; there the event loop may run any other callback.  The model
    keeps that structure: every [await] of the source is a [frame]
    constructor (the suspended continuation with the locals it still
    needs), and one [step] runs one callback segment, from a timer firing
    or a promise settling up to the next [await].

    Numbers are JavaScript numbers: [NaN], the two infinities, or a finite
    value, which is kept as an exact rational (rounding of finite sums is
    not modelled).  The Telegram bot, the gateway and the database driver
    are collaborators: the calls made on them are logged, and what they
    answer is given with the action that settles the awaited promise.
    The two tables the controller writes are part of the state.

    The file has the model first (numbers, gateway responses, data,
    frames, state, callbacks, event loop), then the vocabulary of the
    statements and the scenarios, then the properties. The code around
    the controller follows the same order: the settings manager and the
    settings route, the handler that calls the controller, and helpers
    of [utils/helpers.js] are modelled after the controller, and their
    properties come after the controller's. *)

From Stdlib Require Import ZArith QArith Qround List Ascii String.
From stdpp Require Import gmap strings list.

Local Open Scope string_scope.
Local Open Scope Z_scope.

(** ** JavaScript numbers *)

Inductive jsnum : Type :=
| NaN
| Inf (negative : bool)
| Fin (q : Q).

(** Relational comparison; [None] when an operand is [NaN], for which
    every one of [<], [<=], [>] is false. *)
Definition js_compare (a b : jsnum) : option comparison :=
  match a, b with
  | NaN, _ | _, NaN => None
  | Inf true, Inf true | Inf false, Inf false => Some Eq
  | Inf true, _ | _, Inf false => Some Lt
  | Inf false, _ | _, Inf true => Some Gt
  | Fin p, Fin q => Some (Qcompare p q)
  end.

Definition js_lt (a b : jsnum) : bool :=
  match js_compare a b with Some Lt => true | _ => false end.
Definition js_le (a b : jsnum) : bool :=
  match js_compare a b with Some Lt | Some Eq => true | _ => false end.
Definition js_gt (a b : jsnum) : bool :=
  match js_compare a b with Some Gt => true | _ => false end.

Definition js_isNaN (a : jsnum) : bool :=
  match a with NaN => true | _ => false end.

(** ToBoolean on a number: [0] and [NaN] are falsy. *)
Definition js_truthy (a : jsnum) : bool :=
  match a with
  | NaN => false
  | Inf _ => true
  | Fin q => negb (Qeq_bool q 0)
  end.

(** [a || b] on numbers. *)
Definition js_or (a b : jsnum) : jsnum := if js_truthy a then a else b.

Definition js_add (a b : jsnum) : jsnum :=
  match a, b with
  | NaN, _ | _, NaN => NaN
  | Inf s, Inf t => if Bool.eqb s t then Inf s else NaN
  | Inf s, Fin _ | Fin _, Inf s => Inf s
  | Fin p, Fin q => Fin (Qplus p q)
  end.

(** [parseFloat(x)] for [x] already a number: the number itself. *)
Definition parseFloat (a : jsnum) : jsnum := a.

(** A finite positive number, the amounts the specification accepts. *)
Definition finite_positive (a : jsnum) : Prop :=
  match a with Fin q => (0 < q)%Q | _ => False end.

(** ToBoolean on a string-valued field that may be absent. *)
Definition truthy (o : option string) : bool :=
  match o with
  | Some s => negb (String.eqb s "")
  | None => false
  end.

(** [a || b] on such fields. *)
Definition or_else (a b : option string) : option string :=
  if truthy a then a else b.

(** ** Gateway HTTP outcomes *)

(** What an [axios.get] call ends with: no response at all (network
    failure, timeout), or a response with a status and a body; [data] is
    [None] for an empty body. *)
Inductive http (A : Type) : Type :=
| NetworkError
| Response (status : Z) (data : option A).
Arguments NetworkError {A}.
Arguments Response {A} status data.

(** axios rejects the promise unless the status is 2xx (its default
    [validateStatus]). *)
Definition axios_get {A : Type} (o : http A) : option (Z * option A) :=
  match o with
  | NetworkError => None
  | Response st d => if (200 <=? st) && (st <? 300) then Some (st, d) else None
  end.

(** Body of [GET /create]: [response.data] with the fields the code reads. *)
Module Create.
Record data : Type := Data {
  qr : option string;
  qrdata : option string;
  md5 : option string;
  transactionid : option string
}.
End Create.

(** The [responseCode] field of [GET /check_by_md5]. *)
Inductive jsval : Type :=
| JUndefined
| JNumber (n : Z)
| JString (s : string).

Record check_data : Type := CheckData { responseCode : jsval }.

(** [x === 0] *)
Definition strict_eq_zero (v : jsval) : bool :=
  match v with JNumber 0 => true | _ => false end.

(** *** [checkPaymentStatus] (lines 142-175) *)

Inductive payment_status : Type :=
| StatusOk (paid : bool) (code : jsval)
| StatusError (error : string).

Definition checkPaymentStatus (o : http check_data) : payment_status :=
  match axios_get o with
  | Some (status, data) =>
      if (status =? 200) || (status =? 201) then
        let code := match data with Some p => responseCode p | None => JUndefined end in
        StatusOk (strict_eq_zero code) code
      else StatusError "Invalid response from payment service"
  | None => StatusError "Failed to check payment status"
  end.

(** [paymentStatus.success && paymentStatus.paid] (line 315) *)
Definition confirmed (st : payment_status) : bool :=
  match st with StatusOk paid _ => paid | StatusError _ => false end.

(** *** [generateQRCode] (lines 82-139): classification of the response *)

(** [response.data && (response.data.qr || response.data.qrdata) && response.data.md5] *)
Definition create_response_ok (d : option Create.data) : bool :=
  match d with
  | Some p =>
      (truthy (Create.qr p) || truthy (Create.qrdata p)) && truthy (Create.md5 p)
  | None => false
  end.

(** ** Data model *)

(** [status] column of the [transactions] table. *)
Inductive tx_status : Type := Pending | Completed | Expired | Failed.

#[global] Instance status_eq_dec : EqDecision tx_status.
Proof. solve_decision. Defined.

(** [type] column: ['topup'] or ['purchase']. *)
Inductive kind : Type := Topup | Purchase.

(** [transaction_id] column: the gateway's (or the random) identifier, or
    the fallback [`topup_${Date.now()}_${chatId}`]. *)
Inductive txref : Type :=
| GatewayRef (s : string)
| TopupRef (now : Z) (chatId : Z).

(** A row of the [transactions] table (the ledger). *)
Module Row.
Record t : Type := Make {
  id : nat;
  user_id : Z;
  type : kind;
  amount : jsnum;
  status : tx_status;
  md5_hash : option string;
  message_id : option Z;
  qr_url : option string;
  transaction_id : txref;
  timestamp : Z;
  completed_date : option Z
}.
End Row.

(** The object stored in [paymentCheckers] (lines 245-252). *)
Module Request.
Record t : Type := Make {
  md5 : string;
  tran_id : string;
  message_id : Z;
  timestamp : Z;
  amount : jsnum;
  completed : bool
}.
End Request.

(** The variables a poll loop's callback closes over: the arguments of
    [autoCheckTransaction] and its counter [checkCount]. *)
Module Loop.
Record t : Type := Make {
  userId : Z;
  md5 : string;
  amount : jsnum;
  checkCount : Z
}.
Definition count (l : t) : t :=
  Make (userId l) (md5 l) (amount l) (checkCount l + 1).
End Loop.

(** Texts sent to the chat; the amounts inside them are kept as values. *)
Inductive message : Type :=
| MsgInvalidAmount
| MsgBelowMinimum (min : jsnum)
| MsgAboveMaximum (max : jsnum)
| MsgQrFailed (error : string)
| MsgQrMissing
| MsgErrorOccurred
| MsgConfirmation (amount : jsnum)
| MsgThankYou (amount : jsnum)
| MsgExpired.

Inductive photo : Type :=
| StyledCard
| RawQr (url : string).

(** Calls made on the Telegram bot object. *)
Inductive sinkcall : Type :=
| SendMessage (chatId : Z) (m : message)
| SendPhoto (chatId : Z) (p : photo) (amount : jsnum)
| DeleteMessage (chatId : Z) (message_id : Z).

(** Requests made to the gateway. *)
Inductive gwcall : Type :=
| GwCreate (amount : jsnum)
| GwCheck (md5 : string)
| GwImage (url : string).

(** ** Suspended continuations: one constructor per [await] *)

Inductive frame : Type :=
(* generateQR *)
| GenReject (chatId : Z)
    (* lines 185, 191, 198: sendMessage of a validation failure *)
| GenCreate (chatId : Z) (amount : jsnum) (transactionId : string)
    (* line 94: axios.get of /create *)
| GenToDataURL (chatId : Z) (amount : jsnum) (d : Create.data) (transactionId : string)
    (* line 108: QRCode.toDataURL(rawPayload) *)
| GenFetchImage (chatId : Z) (amount : jsnum) (d : Create.data) (transactionId : string)
    (* line 114, then line 28: axios.get of the image *)
| GenFailed (chatId : Z)
    (* lines 208, 215: sendMessage of a gateway failure *)
| GenCompose (chatId : Z) (amount : jsnum) (qrUrl md5Hash transactionId : string)
    (* line 225: renderKhqrCardImage *)
| GenSendStyled (chatId : Z) (amount : jsnum) (qrUrl md5Hash transactionId : string)
    (* line 230: sendPhoto of the composed card *)
| GenSendRaw (chatId : Z) (amount : jsnum) (qrUrl md5Hash transactionId : string)
    (* line 238: sendPhoto of the raw QR url *)
| GenPersist (chatId : Z) (amount : jsnum) (md5Hash : string) (row : Row.t)
    (* line 256: Transaction.create *)
| GenCatch (chatId : Z)
    (* line 279: sendMessage in the outer catch *)
(* the setInterval callback of autoCheckTransaction, for the loop [h] *)
| TickCheck (h : nat)       (* line 313: checkPaymentStatus *)
| SettleConfirm (h : nat)   (* line 332: sendMessage, confirmation *)
| SettleThanks (h : nat)    (* line 338: sendMessage, thank you *)
| SettleCredit (h : nat)    (* line 346: UPDATE users *)
| SettleMark (h : nat)      (* line 354: UPDATE transactions ... completed *)
| SettleInsert (h : nat) (ref : txref)
                            (* line 357: INSERT ... completed *)
| SettleDelete (h : nat)    (* line 369: deleteMessage *)
| TickExpire (h : nat)      (* line 389: UPDATE transactions ... expired *)
(* the setTimeout callback of deleteQRAfterTimeout *)
| TimeoutDelete (userId : Z)  (* line 414: deleteMessage *)
| TimeoutNotify (userId : Z). (* line 419: sendMessage, expired *)

(** How an awaited promise settles. *)
Inductive reply : Type :=
| Rejected                          (* it rejects: the [await] throws *)
| Fulfilled                         (* resolves; the code reads nothing of the value *)
| Sent (message_id : Z)             (* sendMessage / sendPhoto: the message *)
| Created (o : http Create.data)    (* the /create request ended *)
| Checked (o : http check_data)     (* the /check_by_md5 request ended *)
| DataURL (url : string).           (* QRCode.toDataURL *)

(** ** The state: controller fields, Node timers, database, effect logs *)

Record world : Type := World {
  (* fields of the controller object *)
  paymentCheckers : gmap Z Request.t;
  activeIntervals : gmap Z nat;
  processedMd5 : gset string;
  cleanupInterval : bool;
  minTopupAmount : jsnum;
  maxTopupAmount : jsnum;
  (* the runtime: clock, timers, suspended callbacks *)
  clock : Z;                    (* Date.now() *)
  loops : gmap nat Loop.t;      (* closure of every interval ever created *)
  live : gmap nat Z;            (* intervals not cleared, with the time they are due *)
  timeouts : gmap nat (Z * Z);  (* setTimeout timers not yet fired: closure, due time *)
  nextTimer : nat;
  pending : list frame;         (* callbacks suspended at an await *)
  (* the database *)
  users : gmap Z jsnum;         (* users.balance by telegram_id *)
  transactions : list Row.t;
  (* the settings provider: parseFloat of its two amounts *)
  settings : jsnum * jsnum;
  (* calls made on the collaborators, latest first *)
  outbox : list sinkcall;
  gateway : list gwcall
}.

(** Field updates. *)

Definition with_paymentCheckers (f : gmap Z Request.t -> gmap Z Request.t) (w : world) : world :=
  World (f (paymentCheckers w)) (activeIntervals w) (processedMd5 w) (cleanupInterval w)
        (minTopupAmount w) (maxTopupAmount w)
        (clock w) (loops w) (live w) (timeouts w) (nextTimer w) (pending w)
        (users w) (transactions w) (settings w) (outbox w) (gateway w).

Definition with_activeIntervals (f : gmap Z nat -> gmap Z nat) (w : world) : world :=
  World (paymentCheckers w) (f (activeIntervals w)) (processedMd5 w) (cleanupInterval w)
        (minTopupAmount w) (maxTopupAmount w)
        (clock w) (loops w) (live w) (timeouts w) (nextTimer w) (pending w)
        (users w) (transactions w) (settings w) (outbox w) (gateway w).

Definition with_processedMd5 (f : gset string -> gset string) (w : world) : world :=
  World (paymentCheckers w) (activeIntervals w) (f (processedMd5 w)) (cleanupInterval w)
        (minTopupAmount w) (maxTopupAmount w)
        (clock w) (loops w) (live w) (timeouts w) (nextTimer w) (pending w)
        (users w) (transactions w) (settings w) (outbox w) (gateway w).

Definition with_cleanupInterval (f : bool -> bool) (w : world) : world :=
  World (paymentCheckers w) (activeIntervals w) (processedMd5 w) (f (cleanupInterval w))
        (minTopupAmount w) (maxTopupAmount w)
        (clock w) (loops w) (live w) (timeouts w) (nextTimer w) (pending w)
        (users w) (transactions w) (settings w) (outbox w) (gateway w).

Definition with_clock (f : Z -> Z) (w : world) : world :=
  World (paymentCheckers w) (activeIntervals w) (processedMd5 w) (cleanupInterval w)
        (minTopupAmount w) (maxTopupAmount w)
        (f (clock w)) (loops w) (live w) (timeouts w) (nextTimer w) (pending w)
        (users w) (transactions w) (settings w) (outbox w) (gateway w).

Definition with_loops (f : gmap nat Loop.t -> gmap nat Loop.t) (w : world) : world :=
  World (paymentCheckers w) (activeIntervals w) (processedMd5 w) (cleanupInterval w)
        (minTopupAmount w) (maxTopupAmount w)
        (clock w) (f (loops w)) (live w) (timeouts w) (nextTimer w) (pending w)
        (users w) (transactions w) (settings w) (outbox w) (gateway w).

Definition with_live (f : gmap nat Z -> gmap nat Z) (w : world) : world :=
  World (paymentCheckers w) (activeIntervals w) (processedMd5 w) (cleanupInterval w)
        (minTopupAmount w) (maxTopupAmount w)
        (clock w) (loops w) (f (live w)) (timeouts w) (nextTimer w) (pending w)
        (users w) (transactions w) (settings w) (outbox w) (gateway w).

Definition with_timeouts (f : gmap nat (Z * Z) -> gmap nat (Z * Z)) (w : world) : world :=
  World (paymentCheckers w) (activeIntervals w) (processedMd5 w) (cleanupInterval w)
        (minTopupAmount w) (maxTopupAmount w)
        (clock w) (loops w) (live w) (f (timeouts w)) (nextTimer w) (pending w)
        (users w) (transactions w) (settings w) (outbox w) (gateway w).

Definition with_nextTimer (f : nat -> nat) (w : world) : world :=
  World (paymentCheckers w) (activeIntervals w) (processedMd5 w) (cleanupInterval w)
        (minTopupAmount w) (maxTopupAmount w)
        (clock w) (loops w) (live w) (timeouts w) (f (nextTimer w)) (pending w)
        (users w) (transactions w) (settings w) (outbox w) (gateway w).

Definition with_pending (f : list frame -> list frame) (w : world) : world :=
  World (paymentCheckers w) (activeIntervals w) (processedMd5 w) (cleanupInterval w)
        (minTopupAmount w) (maxTopupAmount w)
        (clock w) (loops w) (live w) (timeouts w) (nextTimer w) (f (pending w))
        (users w) (transactions w) (settings w) (outbox w) (gateway w).

Definition with_users (f : gmap Z jsnum -> gmap Z jsnum) (w : world) : world :=
  World (paymentCheckers w) (activeIntervals w) (processedMd5 w) (cleanupInterval w)
        (minTopupAmount w) (maxTopupAmount w)
        (clock w) (loops w) (live w) (timeouts w) (nextTimer w) (pending w)
        (f (users w)) (transactions w) (settings w) (outbox w) (gateway w).

Definition with_transactions (f : list Row.t -> list Row.t) (w : world) : world :=
  World (paymentCheckers w) (activeIntervals w) (processedMd5 w) (cleanupInterval w)
        (minTopupAmount w) (maxTopupAmount w)
        (clock w) (loops w) (live w) (timeouts w) (nextTimer w) (pending w)
        (users w) (f (transactions w)) (settings w) (outbox w) (gateway w).

Definition with_outbox (f : list sinkcall -> list sinkcall) (w : world) : world :=
  World (paymentCheckers w) (activeIntervals w) (processedMd5 w) (cleanupInterval w)
        (minTopupAmount w) (maxTopupAmount w)
        (clock w) (loops w) (live w) (timeouts w) (nextTimer w) (pending w)
        (users w) (transactions w) (settings w) (f (outbox w)) (gateway w).

Definition with_gateway (f : list gwcall -> list gwcall) (w : world) : world :=
  World (paymentCheckers w) (activeIntervals w) (processedMd5 w) (cleanupInterval w)
        (minTopupAmount w) (maxTopupAmount w)
        (clock w) (loops w) (live w) (timeouts w) (nextTimer w) (pending w)
        (users w) (transactions w) (settings w) (outbox w) (f (gateway w)).

(** ** Collaborators, timers, SQL statements *)

(** A call on the bot, and a request to the gateway: logged when made. *)
Definition bot (c : sinkcall) : world -> world := with_outbox (cons c).
Definition request (c : gwcall) : world -> world := with_gateway (cons c).

Definition clearInterval (h : nat) : world -> world := with_live (delete h).

(** [WHERE md5_hash = ? AND user_id = ?] *)
Definition matches (md5 : string) (userId : Z) (r : Row.t) : bool :=
  bool_decide (Row.md5_hash r = Some md5) && (Row.user_id r =? userId).

(** The rows that clause selects. *)
Definition rows_of (md5 : string) (userId : Z) (rows : list Row.t) : list Row.t :=
  List.filter (matches md5 userId) rows.

Definition is_pending (r : Row.t) : bool := bool_decide (Row.status r = Pending).

Definition set_status (st : tx_status) (date : option Z) (r : Row.t) : Row.t :=
  Row.Make (Row.id r) (Row.user_id r) (Row.type r) (Row.amount r) st
           (Row.md5_hash r) (Row.message_id r) (Row.qr_url r)
           (Row.transaction_id r) (Row.timestamp r) date.

(** [UPDATE users SET balance = balance + ? WHERE telegram_id = ?] (line 346) *)
Definition sql_credit (addAmount : jsnum) (userId : Z) : world -> world :=
  with_users (alter (fun balance => js_add balance addAmount) userId).

(** [UPDATE transactions SET status = "completed", completed_date =
    CURRENT_TIMESTAMP WHERE md5_hash = ? AND user_id = ?] (line 354);
    the first component is [result.changes]. *)
Definition sql_complete (md5 : string) (userId : Z) (w : world) : nat * world :=
  (length (rows_of md5 userId (transactions w)),
   with_transactions
     (map (fun r => if matches md5 userId r
                    then set_status Completed (Some (clock w)) r else r))
     w).

(** [UPDATE transactions SET status = "expired" WHERE md5_hash = ? AND
    user_id = ? AND status = "pending"] (line 389) *)
Definition sql_expire (md5 : string) (userId : Z) : world -> world :=
  with_transactions
    (map (fun r => if matches md5 userId r && is_pending r
                   then set_status Expired (Row.completed_date r) r else r)).

(** [INSERT INTO transactions]: the row gets the next id and, for its
    [timestamp], CURRENT_TIMESTAMP. *)
Definition sql_insert (r : Row.t) (w : world) : world :=
  with_transactions (fun rows =>
    (rows ++ [Row.Make (S (length rows)) (Row.user_id r) (Row.type r) (Row.amount r)
                       (Row.status r) (Row.md5_hash r) (Row.message_id r) (Row.qr_url r)
                       (Row.transaction_id r) (clock w) (Row.completed_date r)])%list)
    w.

(** The row of the INSERT at line 357. *)
Definition completed_row (now : Z) (l : Loop.t) (ref : txref) : Row.t :=
  Row.Make 0 (Loop.userId l) Topup (parseFloat (Loop.amount l)) Completed
           (Some (Loop.md5 l)) None None ref now (Some now).

(** ** The callbacks, segment by segment *)

(** A segment ends by returning or by suspending at an [await]. *)
Definition segment : Type := world * option frame.
Definition done (w : world) : segment := (w, None).
Definition await (f : frame) (w : world) : segment := (w, Some f).

(** *** [autoCheckTransaction] (lines 290-406) *)

Definition maxChecks : Z := 600.

(** [clearInterval(checkInterval); this.activeIntervals.delete(userId)] *)
Definition stop_loop (h : nat) (userId : Z) (w : world) : world :=
  with_activeIntervals (delete userId) (clearInterval h w).

(** [checkCount++] *)
Definition count_check (h : nat) : world -> world :=
  with_loops (alter Loop.count h).

(** [setInterval(..., 1000)] and
    [this.activeIntervals.set(userId, checkInterval)] *)
Definition autoCheckTransaction (userId : Z) (md5 : string) (amount : jsnum)
    (w : world) : world :=
  let h := nextTimer w in
  with_activeIntervals (insert userId h)
    (with_live (insert h (clock w + 1000))
       (with_loops (insert h (Loop.Make userId md5 amount 0))
          (with_nextTimer S w))).

(** The callback starts (lines 297-313). *)
Definition tick (h : nat) (l : Loop.t) (w : world) : segment :=
  match paymentCheckers w !! Loop.userId l with
  | None => done (stop_loop h (Loop.userId l) w)
  | Some _ =>
      if bool_decide (Loop.md5 l ∈ processedMd5 w)
      then done (stop_loop h (Loop.userId l) w)
      else await (TickCheck h) (request (GwCheck (Loop.md5 l)) w)
  end.

(** After [checkPaymentStatus] returned [st] (lines 315-332, 381-389). *)
Definition tick_checked (h : nat) (l : Loop.t) (st : payment_status) (w : world) : segment :=
  if confirmed st then
    let w := stop_loop h (Loop.userId l) w in
    if bool_decide (Loop.md5 l ∈ processedMd5 w) then done w
    else
      await (SettleConfirm h)
        (bot (SendMessage (Loop.userId l) (MsgConfirmation (Loop.amount l)))
           (with_processedMd5 (fun p => {[Loop.md5 l]} ∪ p) w))
  else
    let w := count_check h w in
    if Loop.checkCount l + 1 >=? maxChecks
    then await (TickExpire h) (stop_loop h (Loop.userId l) w)
    else done w.

(** The outer [catch] (lines 394-401). *)
Definition tick_catch (h : nat) (l : Loop.t) (w : world) : segment :=
  let w := count_check h w in
  if Loop.checkCount l + 1 >=? maxChecks
  then done (stop_loop h (Loop.userId l) w)
  else done w.

(** Lines 366-378. *)
Definition settle_cleanup (h : nat) (l : Loop.t) (w : world) : segment :=
  match paymentCheckers w !! Loop.userId l with
  | Some transaction =>
      await (SettleDelete h)
        (bot (DeleteMessage (Loop.userId l) (Request.message_id transaction)) w)
  | None => done w
  end.

(** *** [deleteQRAfterTimeout] (lines 409-425) *)

(** [setTimeout(..., 600000)] *)
Definition deleteQRAfterTimeout (userId : Z) (w : world) : world :=
  with_timeouts (insert (nextTimer w) (userId, clock w + 600000)) (with_nextTimer S w).

Definition timeout (userId : Z) (w : world) : segment :=
  match paymentCheckers w !! userId with
  | Some transaction =>
      await (TimeoutDelete userId)
        (bot (DeleteMessage userId (Request.message_id transaction)) w)
  | None => done w
  end.

(** *** [clearUserPaymentChecker] (lines 428-441) *)

Definition clearUserPaymentChecker (userId : Z) (w : world) : world :=
  let w :=
    match activeIntervals w !! userId with
    | Some h => with_activeIntervals (delete userId) (clearInterval h w)
    | None => w
    end in
  with_paymentCheckers (delete userId) w.

(** *** [cleanupExpiredTransactions] (lines 467-477) *)

Definition expiredTime : Z := 10 * 60 * 1000.

Definition cleanupExpiredTransactions (w : world) : world :=
  with_paymentCheckers
    (filter (fun kv => ¬ (clock w - Request.timestamp (snd kv) > expiredTime))) w.

(** *** [stop] (lines 480-496) *)

Definition stop (w : world) : world :=
  with_paymentCheckers (fun _ => ∅)
    (with_activeIntervals (fun _ => ∅)
       (with_live (filter (fun kv => fst kv ∉ (map_img (activeIntervals w) : gset nat)))
          (with_cleanupInterval (fun _ => false) w))).

(** *** [loadSettings] (lines 64-73) *)

Definition loadSettings (w : world) : world :=
  World (paymentCheckers w) (activeIntervals w) (processedMd5 w) (cleanupInterval w)
        (js_or (fst (settings w)) (Fin (1 # 100))) (js_or (snd (settings w)) (Fin 1000))
        (clock w) (loops w) (live w) (timeouts w) (nextTimer w) (pending w)
        (users w) (transactions w) (settings w) (outbox w) (gateway w).

(** *** [generateQR] (lines 178-281), with [generateQRCode] inlined *)

(** [s || d] for a string field and a string default. *)
Definition or_default (o : option string) (d : string) : string :=
  match o with
  | Some s => if String.eqb s "" then d else s
  | None => d
  end.

(** The call, up to the first [await] (lines 181-205, 84-94);
    [transactionId] is what [generateRandomString(12)] returns. *)
Definition generateQR (chatId userId : Z) (amount : jsnum) (transactionId : string)
    (w : world) : segment :=
  let w := loadSettings w in
  if negb (js_truthy amount) || js_isNaN amount || js_le amount (Fin 0) then
    await (GenReject chatId) (bot (SendMessage chatId MsgInvalidAmount) w)
  else if js_lt amount (minTopupAmount w) then
    await (GenReject chatId)
      (bot (SendMessage chatId (MsgBelowMinimum (minTopupAmount w))) w)
  else if js_gt amount (maxTopupAmount w) then
    await (GenReject chatId)
      (bot (SendMessage chatId (MsgAboveMaximum (maxTopupAmount w))) w)
  else
    await (GenCreate chatId amount transactionId) (request (GwCreate amount) w).

(** [qrResult.success] is false (lines 207-212). *)
Definition gen_failed (chatId : Z) (error : string) (w : world) : segment :=
  await (GenFailed chatId) (bot (SendMessage chatId (MsgQrFailed error)) w).

(** [generateQRCode] has returned success (lines 214-225). *)
Definition gen_result (chatId : Z) (amount : jsnum) (qrUrl md5Hash : option string)
    (transactionId : string) (w : world) : segment :=
  match qrUrl, md5Hash with
  | Some url, Some hash =>
      if String.eqb url "" || String.eqb hash "" then
        await (GenFailed chatId) (bot (SendMessage chatId MsgQrMissing) w)
      else
        await (GenCompose chatId amount url hash transactionId)
          (clearUserPaymentChecker chatId w)
  | _, _ => await (GenFailed chatId) (bot (SendMessage chatId MsgQrMissing) w)
  end.

(** What [generateQRCode] makes of the ended /create request: the error
    it returns (lines 125-138), or the body it goes on with (line 99). *)
Definition create_outcome (o : http Create.data) : string + Create.data :=
  match axios_get o with
  | None => inl "Failed to generate payment QR code"
  | Some (_, None) => inl "Invalid response from payment service"
  | Some (_, Some d) =>
      if create_response_ok (Some d) then inr d
      else inl "Invalid response from payment service"
  end.

(** The /create request has ended (lines 99-115, then 207). *)
Definition gen_created (chatId : Z) (amount : jsnum) (transactionId : string)
    (o : http Create.data) (w : world) : segment :=
  match create_outcome o with
  | inl error => gen_failed chatId error w
  | inr d =>
      let rawPayload := or_else (Create.qrdata d) None in
      let qrImageUrl := Create.qr d in
      let transactionId := or_default (Create.transactionid d) transactionId in
      if negb (truthy qrImageUrl) && truthy rawPayload then
        await (GenToDataURL chatId amount d transactionId) w
      else
        match qrImageUrl with
        | Some url =>
            if truthy qrImageUrl
            then await (GenFetchImage chatId amount d transactionId)
                       (request (GwImage url) w)
            else gen_result chatId amount qrImageUrl (Create.md5 d) transactionId w
        | None => gen_result chatId amount qrImageUrl (Create.md5 d) transactionId w
        end
  end.

(** The outer [catch] (lines 277-280). *)
Definition gen_catch (chatId : Z) (w : world) : segment :=
  await (GenCatch chatId) (bot (SendMessage chatId MsgErrorOccurred) w).

(** The photo is sent (lines 244-265). *)
Definition gen_store (chatId : Z) (amount : jsnum)
    (qrUrl md5Hash transactionId : string) (message_id : Z) (w : world) : segment :=
  await
    (GenPersist chatId amount md5Hash
       (Row.Make 0 chatId Topup (parseFloat amount) Pending (Some md5Hash)
          (Some message_id) (Some qrUrl)
          (if String.eqb transactionId "" then TopupRef (clock w) chatId
           else GatewayRef transactionId)
          0 None))
    (with_paymentCheckers
       (insert chatId
          (Request.Make md5Hash transactionId message_id (clock w) amount false))
       w).

(** Lines 270-276. *)
Definition gen_started (chatId : Z) (amount : jsnum) (md5Hash : string) (w : world) : segment :=
  done (deleteQRAfterTimeout chatId (autoCheckTransaction chatId md5Hash amount w)).

(** ** A promise settles: the suspended callback runs its next segment *)

(** [None] when the reply is not one the awaited call can give. Database
    statements take effect when their promise is fulfilled and have no
    effect when it is rejected. *)
Definition resume (f : frame) (r : reply) (w : world) : option segment :=
  match f, r with
  (* generateQR *)
  | GenReject chatId, Sent _ => Some (done w)
  | GenReject chatId, Rejected => Some (gen_catch chatId w)
  | GenCreate chatId amount tid, Created o => Some (gen_created chatId amount tid o w)
  | GenToDataURL chatId amount d tid, DataURL url =>
      Some (gen_result chatId amount (Some url) (Create.md5 d) tid w)
  | GenToDataURL chatId amount d tid, Rejected =>
      Some (gen_result chatId amount (Create.qr d) (Create.md5 d) tid w)
  | GenFetchImage chatId amount d tid, (Fulfilled | Rejected) =>
      Some (gen_result chatId amount (Create.qr d) (Create.md5 d) tid w)
  | GenFailed chatId, Sent _ => Some (done w)
  | GenFailed chatId, Rejected => Some (gen_catch chatId w)
  | GenCompose chatId amount url hash tid, Fulfilled =>
      Some (await (GenSendStyled chatId amount url hash tid)
              (bot (SendPhoto chatId StyledCard amount) w))
  | GenCompose chatId amount url hash tid, Rejected =>
      Some (await (GenSendRaw chatId amount url hash tid)
              (bot (SendPhoto chatId (RawQr url) amount) w))
  | GenSendStyled chatId amount url hash tid, Sent mid =>
      Some (gen_store chatId amount url hash tid mid w)
  | GenSendStyled chatId amount url hash tid, Rejected =>
      Some (await (GenSendRaw chatId amount url hash tid)
              (bot (SendPhoto chatId (RawQr url) amount) w))
  | GenSendRaw chatId amount url hash tid, Sent mid =>
      Some (gen_store chatId amount url hash tid mid w)
  | GenSendRaw chatId amount url hash tid, Rejected => Some (gen_catch chatId w)
  | GenPersist chatId amount hash row, Fulfilled =>
      Some (gen_started chatId amount hash (sql_insert row w))
  | GenPersist chatId amount hash row, Rejected =>
      Some (gen_started chatId amount hash w)
  | GenCatch chatId, (Sent _ | Rejected) => Some (done w)
  (* the poll loop's callback *)
  | TickCheck h, Checked o =>
      l ← loops w !! h; Some (tick_checked h l (checkPaymentStatus o) w)
  | SettleConfirm h, Sent _ =>
      l ← loops w !! h;
      Some (await (SettleThanks h)
              (bot (SendMessage (Loop.userId l) (MsgThankYou (Loop.amount l))) w))
  | SettleConfirm h, Rejected => l ← loops w !! h; Some (tick_catch h l w)
  | SettleThanks h, Sent _ => Some (await (SettleCredit h) w)
  | SettleThanks h, Rejected => l ← loops w !! h; Some (tick_catch h l w)
  | SettleCredit h, Fulfilled =>
      l ← loops w !! h;
      Some (await (SettleMark h)
              (sql_credit (parseFloat (Loop.amount l)) (Loop.userId l) w))
  | SettleCredit h, Rejected => Some (await (SettleMark h) w)
  | SettleMark h, Fulfilled =>
      l ← loops w !! h;
      let (changes, w) := sql_complete (Loop.md5 l) (Loop.userId l) w in
      Some (if Nat.eqb changes 0
            then await (SettleInsert h (TopupRef (clock w) (Loop.userId l))) w
            else settle_cleanup h l w)
  | SettleMark h, Rejected => l ← loops w !! h; Some (settle_cleanup h l w)
  | SettleInsert h ref, Fulfilled =>
      l ← loops w !! h;
      Some (settle_cleanup h l (sql_insert (completed_row (clock w) l ref) w))
  | SettleInsert h ref, Rejected => l ← loops w !! h; Some (settle_cleanup h l w)
  | SettleDelete h, (Fulfilled | Rejected) =>
      l ← loops w !! h;
      Some (done (with_paymentCheckers (delete (Loop.userId l)) w))
  | TickExpire h, Fulfilled =>
      l ← loops w !! h; Some (done (sql_expire (Loop.md5 l) (Loop.userId l) w))
  | TickExpire h, Rejected => Some (done w)
  (* the expiry timer's callback *)
  | TimeoutDelete userId, (Fulfilled | Rejected) =>
      Some (await (TimeoutNotify userId)
              (bot (SendMessage userId MsgExpired)
                 (with_paymentCheckers (delete userId) w)))
  | TimeoutNotify userId, (Sent _ | Rejected) => Some (done w)
  | _, _ => None
  end.

(** ** The event loop *)

Inductive action : Type :=
| Call (chatId userId : Z) (amount : jsnum) (transactionId : string)
    (* processTopup / generateQR is called *)
| IntervalFires (h : nat)
| TimeoutFires (t : nat)
| CleanupFires                  (* the cleanup service's interval *)
| Stop                          (* stop() is called *)
| Settles (i : nat) (r : reply).  (* the promise awaited by [pending !! i] settles *)

(** The callback returned, or is suspended at the end of [pending]. *)
Definition suspend (s : segment) : world :=
  match snd s with
  | Some f => with_pending (fun p => (p ++ [f])%list) (fst s)
  | None => fst s
  end.

(** One turn of the event loop at time [now]; [None] when the action
    cannot happen in [w]: time does not go back, a timer does not fire
    before it is due or once cleared, and a promise settles once. An
    interval that fires is due again 1000 ms later. *)
Definition step (now : Z) (a : action) (w : world) : option world :=
  if now <? clock w then None else
  let w := with_clock (fun _ => now) w in
  match a with
  | Call chatId userId amount transactionId =>
      Some (suspend (generateQR chatId userId amount transactionId w))
  | IntervalFires h =>
      due ← live w !! h;
      l ← loops w !! h;
      if due <=? now
      then Some (suspend (tick h l (with_live (insert h (now + 1000)) w)))
      else None
  | TimeoutFires t =>
      c ← timeouts w !! t;
      if snd c <=? now
      then Some (suspend (timeout (fst c) (with_timeouts (delete t) w)))
      else None
  | CleanupFires =>
      if cleanupInterval w then Some (cleanupExpiredTransactions w) else None
  | Stop => Some (stop w)
  | Settles i r =>
      f ← pending w !! i;
      s ← resume f r (with_pending (delete i) w);
      Some (suspend s)
  end.

(** A schedule: what happens, and when. *)
Fixpoint run (evs : list (Z * action)) (w : world) : option world :=
  match evs with
  | [] => Some w
  | (now, a) :: evs => w' ← step now a w; run evs w'
  end.

(** ** The constructor (lines 10-23) *)

(** A controller just constructed, over a database with the given
    balances and ledger rows. *)
Definition boot (cfg : jsnum * jsnum) (balances : gmap Z jsnum) (rows : list Row.t) : world :=
  loadSettings
    (World ∅ ∅ ∅ true NaN NaN 0 ∅ ∅ ∅ 0%nat [] balances rows cfg [] []).

(** * Vocabulary of the statements *)

(** The response is one [checkPaymentStatus] reads: status 200 or 201
    (line 155). *)
Definition accepted (o : http check_data) : bool :=
  match o with
  | Response st _ => (st =? 200) || (st =? 201)
  | NetworkError => false
  end.

(** The response code the response carries, if any. *)
Definition code_of (o : http check_data) : jsval :=
  match o with
  | Response _ (Some d) => responseCode d
  | _ => JUndefined
  end.

(** The body carries a QR artifact: an image url or a raw payload. *)
Definition has_artifact (d : option Create.data) : bool :=
  match d with
  | Some p => truthy (Create.qr p) || truthy (Create.qrdata p)
  | None => false
  end.

(** The body carries a payment hash. *)
Definition has_hash (d : option Create.data) : bool :=
  match d with
  | Some p => truthy (Create.md5 p)
  | None => false
  end.


(** Nothing but the bot's outbox, the loaded settings, the clock and the
    suspended callbacks differs between [w] and [w']: no gateway request,
    no ledger row, no balance, no timer, no registered request. *)
Definition only_notified (w w' : world) : Prop :=
  gateway w' = gateway w /\ transactions w' = transactions w /\
  users w' = users w /\ loops w' = loops w /\ live w' = live w /\
  timeouts w' = timeouts w /\ paymentCheckers w' = paymentCheckers w /\
  activeIntervals w' = activeIntervals w /\ processedMd5 w' = processedMd5 w.

(** A callback suspended at [f] does nothing but notify, whatever happens
    to the messages it sends, and then returns. *)
Definition ends_notifying (f : frame) : Prop :=
  forall r w s, resume f r w = Some s ->
    only_notified w (fst s) /\
    (snd s = None \/
     exists f', snd s = Some f' /\
       forall r' w' s', resume f' r' w' = Some s' -> s' = done w').

(** A callback runs to its end with nothing else in between: the promises
    it awaits settle, one after the other, as [rs] says and when it says. *)
Fixpoint finish (rs : list (Z * reply)) (s : segment) : option world :=
  match snd s, rs with
  | None, [] => Some (fst s)
  | Some f, (now, r) :: rs =>
      s' ← resume f r (with_clock (fun _ => now) (fst s)); finish rs s'
  | _, _ => None
  end.

(** The ledger rows of a hash and owner that are in a given status. *)
Definition rows_in (st : tx_status) (md5 : string) (userId : Z) (rows : list Row.t) : list Row.t :=
  List.filter (fun r => bool_decide (Row.status r = st)) (rows_of md5 userId rows).

(** The hash a poll loop works for. *)
Definition hash_of (w : world) (h : nat) : option string :=
  Loop.md5 <$> loops w !! h.

(** The steps of a settlement, in order: the loop and the step a frame
    is suspended at. *)
Definition settle_stage (f : frame) : option (nat * nat) :=
  match f with
  | SettleConfirm h => Some (h, 0%nat)
  | SettleThanks h => Some (h, 1%nat)
  | SettleCredit h => Some (h, 2%nat)
  | SettleMark h => Some (h, 3%nat)
  | SettleInsert h _ => Some (h, 4%nat)
  | SettleDelete h => Some (h, 5%nat)
  | _ => None
  end.

(** The action completes step [k] of a settlement of the hash [H]: the
    promise awaited there by a callback of a loop for [H] is fulfilled.
    Step 2 is the balance credit, step 3 the ledger update. *)
Definition settles_stage (k : nat) (H : string) (a : action) (w : world) : bool :=
  match a with
  | Settles i Fulfilled =>
      match f ← pending w !! i; settle_stage f with
      | Some (h, j) => Nat.eqb j k && bool_decide (hash_of w h = Some H)
      | None => false
      end
  | _ => false
  end.

(** How many steps of a schedule satisfy [P]. *)
Fixpoint count_along (P : action -> world -> bool) (evs : list (Z * action)) (w : world) : nat :=
  match evs with
  | [] => 0
  | (now, a) :: evs =>
      match step now a w with
      | Some w' => ((if P a w then 1 else 0) + count_along P evs w')%nat
      | None => 0%nat
      end
  end.

(** ** Scenarios *)

Definition paid : reply := Checked (Response 200 (Some (CheckData (JNumber 0)))).
Definition unpaid : reply := Checked (Response 200 (Some (CheckData (JNumber 1)))).

(** A top-up of [amount] by [chatId] at time [t], when nothing else is
    suspended: the gateway answers with an image url and [hash], the
    image is fetched, the card composed and sent as message [mid], the
    pending row written; 28 ms later the poll loop and the expiry timer
    are running. *)
Definition started (chatId : Z) (amount : jsnum) (hash : string) (mid : Z) (t : Z)
  : list (Z * action) :=
  [ (t, Call chatId chatId amount "rnd");
    (t + 5, Settles 0 (Created (Response 200
               (Some (Create.Data (Some "https://qr") None (Some hash) None)))));
    (t + 6, Settles 0 Fulfilled);
    (t + 7, Settles 0 Fulfilled);
    (t + 8, Settles 0 (Sent mid));
    (t + 28, Settles 0 Fulfilled) ].

(** [n] ticks of the loop [h], one second apart from [t] on, each answered
    [r] by the gateway a millisecond later. *)
Fixpoint ticks (n : nat) (t : Z) (h : nat) (r : reply) : list (Z * action) :=
  match n with
  | O => []
  | S n => (t, IntervalFires h) :: (t + 1, Settles 0 r) :: ticks n (t + 1000) h r
  end.

(** Owner 7 has a balance of 3, owner 42 of 0; no ledger rows; default
    settings. *)
Definition shop : world := boot (NaN, NaN) (<[ 7 := Fin 3 ]> {[ 42 := Fin 0 ]}) [].

(** What a schedule leaves, seen through [f]. *)
Definition after {A : Type} (evs : list (Z * action)) (f : world -> A) : option A :=
  f <$> run evs shop.

(** Owner 42 tops up 10; the gateway confirms at the third tick and
    nothing fails. *)
Definition paid_at_third_tick : list (Z * action) :=
  (started 42 (Fin 10) "H1" 77 0 ++ ticks 2 1028 0 unpaid ++
   [ (3028, IntervalFires 0%nat); (3029, Settles 0 paid);
     (3040, Settles 0 (Sent 78)); (3050, Settles 0 (Sent 79));
     (3060, Settles 0 Fulfilled); (3070, Settles 0 Fulfilled);
     (3080, Settles 0 Fulfilled) ])%list.

(** The gateway confirms at the first tick; sending the confirmation
    message fails. The expiry timer fires ten minutes later. *)
Definition confirmation_not_sent : list (Z * action) :=
  (started 7 (Fin 5) "H1" 77 0 ++
   [ (1028, IntervalFires 0%nat); (1029, Settles 0 paid); (1040, Settles 0 Rejected);
     (600028, TimeoutFires 1%nat); (600040, Settles 0 Fulfilled);
     (600050, Settles 0 (Sent 78)) ])%list.

(** The gateway confirms at the third tick; the credit statement fails,
    the ledger statement succeeds. *)
Definition credit_not_stored : list (Z * action) :=
  (started 7 (Fin 5) "H1" 77 0 ++ ticks 2 1028 0 unpaid ++
   [ (3028, IntervalFires 0%nat); (3029, Settles 0 paid);
     (3040, Settles 0 (Sent 78)); (3050, Settles 0 (Sent 79));
     (3060, Settles 0 Rejected); (3070, Settles 0 Fulfilled);
     (3080, Settles 0 Fulfilled) ])%list.

(** Owner 7 starts a top-up, and nine minutes later a second one. *)
Definition second_topup : list (Z * action) :=
  (started 7 (Fin 5) "H1" 77 0 ++ ticks 539 1028 0 unpaid ++
   started 7 (Fin 6) "H2" 88 540000)%list.

(** ... and the first top-up's timer fires when its ten minutes are over,
    one minute into the second top-up. *)
Definition first_timer_fires : list (Z * action) :=
  (second_topup ++ ticks 59 541028 2 unpaid ++
   [ (600028, TimeoutFires 1%nat); (600040, Settles 0 Fulfilled);
     (600050, Settles 0 (Sent 89)); (600100, IntervalFires 2%nat) ])%list.


(** The 600th tick's request is slow, and so is the expiry timer's
    deleteMessage; the 601st tick is the 600th to be answered not-paid
    and marks the row expired. *)
Definition expired_with_check_in_flight : list (Z * action) :=
  (started 7 (Fin 5) "H2" 77 0 ++ ticks 599 1028 0 unpaid ++
   [ (600028, IntervalFires 0%nat); (600028, TimeoutFires 1%nat);
     (601028, IntervalFires 0%nat);
     (601100, Settles 2 unpaid); (601110, Settles 2 Fulfilled) ])%list.

(** ... then the slow request comes back: paid. The settlement runs. *)
Definition confirmed_after_expiry : list (Z * action) :=
  (expired_with_check_in_flight ++
   [ (601500, Settles 0 paid);
     (601510, Settles 1 (Sent 78)); (601520, Settles 1 (Sent 79));
     (601530, Settles 1 Fulfilled); (601540, Settles 1 Fulfilled) ])%list.

(** The pending row cannot be written; the gateway confirms at the third
    tick and the settlement goes through. *)
Definition pending_write_lost : list (Z * action) :=
  [ (0, Call 7 7 (Fin 5) "rnd");
    (5, Settles 0 (Created (Response 200
               (Some (Create.Data (Some "https://qr") None (Some "H1") None)))));
    (6, Settles 0 Fulfilled); (7, Settles 0 Fulfilled); (8, Settles 0 (Sent 77));
    (28, Settles 0 Rejected) ].

Definition settled_without_pending_row : list (Z * action) :=
  (pending_write_lost ++ ticks 2 1028 0 unpaid ++
   [ (3028, IntervalFires 0%nat); (3029, Settles 0 paid);
     (3040, Settles 0 (Sent 78)); (3050, Settles 0 (Sent 79));
     (3060, Settles 0 Fulfilled); (3070, Settles 0 Fulfilled);
     (3080, Settles 0 Fulfilled); (3090, Settles 0 Fulfilled) ])%list.

(** A world in which loop 0 polls for owner 7's top-up of 5 with hash H1:
    the request is registered and its pending row is in the ledger. *)
Definition polling : world :=
  with_paymentCheckers (insert 7 (Request.Make "H1" "rnd" 77 8 (Fin 5) false))
    (with_transactions
       (fun _ => [Row.Make 1 7 Topup (Fin 5) Pending (Some "H1") (Some 77)
                    (Some "https://qr") (GatewayRef "rnd") 28 None])
       (with_loops (insert 0%nat (Loop.Make 7 "H1" (Fin 5) 2)) shop)).

(** ... and the same when the pending row was never written. *)
Definition polling_without_row : world :=
  with_transactions (fun _ => []) polling.

(** A settlement in which nothing fails: two messages, the credit, the
    ledger update, the deletion of the QR message. *)
Definition all_goes_well : list (Z * reply) :=
  [ (3040, Sent 78); (3050, Sent 79); (3060, Fulfilled); (3070, Fulfilled);
    (3080, Fulfilled) ].

(** ** Bookkeeping for the settlement guard *)

(** The loop whose callback is suspended at [f]. *)
Definition frame_loop (f : frame) : option nat :=
  match f with
  | TickCheck h | SettleConfirm h | SettleThanks h | SettleCredit h
  | SettleMark h | SettleInsert h _ | SettleDelete h | TickExpire h => Some h
  | _ => None
  end.

(** Timer handles in use are below [nextTimer]. *)
Definition allocated (w : world) : Prop :=
  (forall h, is_Some (loops w !! h) -> (h < nextTimer w)%nat) /\
  Forall (fun f => forall h, frame_loop f = Some h -> (h < nextTimer w)%nat) (pending w).

(** The callback suspended at [f] settles the hash [H] and has not yet
    gone past step [k]. *)
Definition owes (k : nat) (H : string) (w : world) (f : frame) : bool :=
  match settle_stage f with
  | Some (h, j) => (j <=? k)%nat && bool_decide (hash_of w h = Some H)
  | None => false
  end.

(** How many suspended callbacks do. *)
Definition owing (k : nat) (H : string) (w : world) : nat :=
  length (List.filter (owes k H w) (pending w)).

(** [w'] has the balances, the ledger, the processed set and the loops of [w]. *)
Definition store_same (w w' : world) : Prop :=
  users w' = users w /\ transactions w' = transactions w /\
  processedMd5 w' = processedMd5 w /\ loops w' = loops w.

(** What one segment of a callback can do to the guard's bookkeeping. *)
Definition guarded (f : frame) (w : world) (s : segment) : Prop :=
  pending (fst s) = pending w /\
  (nextTimer w <= nextTimer (fst s))%nat /\
  (forall h, (h < nextTimer w)%nat -> hash_of (fst s) h = hash_of w h) /\
  (forall h, is_Some (loops (fst s) !! h) ->
             is_Some (loops w !! h) \/ (nextTimer w <= h < nextTimer (fst s))%nat) /\
  (forall fo h, snd s = Some fo -> frame_loop fo = Some h -> frame_loop f = Some h) /\
  ((processedMd5 (fst s) = processedMd5 w /\
    (forall fo h j, snd s = Some fo -> settle_stage fo = Some (h, j) ->
       exists i, settle_stage f = Some (h, i) /\ (i < j)%nat))
   \/
   exists h l, f = TickCheck h /\ loops w !! h = Some l /\
     (Loop.md5 l ∉ processedMd5 w) /\
     processedMd5 (fst s) = {[Loop.md5 l]} ∪ processedMd5 w /\
     snd s = Some (SettleConfirm h)).

(** The effect of one turn on the callbacks that have passed the guard
    for [H] and not yet gone past step [k]. *)
Definition turn_ok (k : nat) (H : string) (a : action) (w w' : world) : Prop :=
  allocated w' /\
  processedMd5 w ⊆ processedMd5 w' /\
  (H ∈ processedMd5 w ->
   (owing k H w' + (if settles_stage k H a w then 1 else 0) <= owing k H w)%nat) /\
  (H ∉ processedMd5 w -> owing k H w = 0%nat ->
   settles_stage k H a w = false /\ (owing k H w' <= 1)%nat /\
   (H ∉ processedMd5 w' -> owing k H w' = 0%nat)).

(** * More of the controller, and of the code around it *)

(** ** The controller's accessors and wrappers *)

(** [getTransaction] (lines 444-446): [undefined] is [None]. *)
Definition getTransaction (userId : Z) (w : world) : option Request.t :=
  paymentCheckers w !! userId.

(** [getActiveTransactionsCount] (lines 499-501) *)
Definition getActiveTransactionsCount (w : world) : nat :=
  size (paymentCheckers w).

(** [reloadSettings] (lines 76-79) *)
Definition reloadSettings (w : world) : world := loadSettings w.

(** [processTopup] (lines 284-287): up to the first [await] of [generateQR]. *)
Definition processTopup (chatId userId : Z) (amount : jsnum) (transactionId : string)
    (w : world) : segment :=
  generateQR chatId userId amount transactionId w.

(** ** Vocabulary of the ledger *)

(** What of a ledger row none of the controller's statements writes. *)
Definition row_key (r : Row.t)
  : nat * Z * kind * jsnum * option string * option Z * option string * txref * Z :=
  (Row.id r, Row.user_id r, Row.type r, Row.amount r, Row.md5_hash r,
   Row.message_id r, Row.qr_url r, Row.transaction_id r, Row.timestamp r).

(** [r'] is [r] after some of the controller's UPDATE statements: the
    same row, in the same status, or completed (line 354), or expired
    when it was pending (line 389). *)
Definition row_moves (r r' : Row.t) : Prop :=
  row_key r' = row_key r /\
  (Row.status r' = Row.status r \/ Row.status r' = Completed \/
   (Row.status r = Pending /\ Row.status r' = Expired)).

(** [rows'] is [rows] with its rows moved and more rows after them. *)
Definition ledger_grows (rows rows' : list Row.t) : Prop :=
  exists kept added, rows' = (kept ++ added)%list /\ Forall2 row_moves rows kept.

(** ** Vocabulary of the timers *)


(** Nothing that can be seen from outside the controller differs between
    [w] and [w']: no call on the bot, no request to the gateway, no
    ledger row, no balance. *)
Definition silent (w w' : world) : Prop :=
  outbox w' = outbox w /\ gateway w' = gateway w /\
  transactions w' = transactions w /\ users w' = users w.

(** ** More scenarios *)

(** Owner 99, who has no account, tops up 5; the gateway confirms at the
    first tick and nothing fails. *)
Definition stranger_pays : list (Z * action) :=
  (started 99 (Fin 5) "H9" 77 0 ++
   [ (1028, IntervalFires 0%nat); (1029, Settles 0 paid);
     (1040, Settles 0 (Sent 78)); (1050, Settles 0 (Sent 79));
     (1060, Settles 0 Fulfilled); (1070, Settles 0 Fulfilled);
     (1080, Settles 0 Fulfilled) ])%list.

(** Owner 7 starts a top-up; for a minute the gateway answers not paid. *)
Definition polling_for_a_minute : list (Z * action) :=
  (started 7 (Fin 5) "H1" 77 0 ++ ticks 59 1028 0 unpaid)%list.

(** ** Vocabulary of amounts and balances *)

(** An amount above zero: a finite one, or [+Infinity]. *)
Definition creditable (a : jsnum) : Prop := js_gt a (Fin 0) = true.

(** The amount a suspended [generateQR] call carries. *)
Definition frame_amount (f : frame) : option jsnum :=
  match f with
  | GenCreate _ a _ | GenToDataURL _ a _ _ | GenFetchImage _ a _ _
  | GenCompose _ a _ _ _ | GenSendStyled _ a _ _ _ | GenSendRaw _ a _ _ _
  | GenPersist _ a _ _ => Some a
  | _ => None
  end.

(** Every amount on its way to a balance is above zero: those of the poll
    loops and those of the suspended calls. *)
Definition amounts_positive (w : world) : Prop :=
  (forall h l, loops w !! h = Some l -> creditable (Loop.amount l)) /\
  Forall (fun f => forall a, frame_amount f = Some a -> creditable a) (pending w).

(** [x] is a balance of at least [b]. *)
Definition at_least (b : Q) (x : jsnum) : Prop :=
  match x with
  | Fin q => (b <= q)%Q
  | Inf false => True
  | _ => False
  end.

(** ** Vocabulary of the gateway log *)

(** The status checks of the hash [H] among the requests made to the
    gateway. *)
Definition checks (H : string) (w : world) : list gwcall :=
  List.filter (fun c => match c with
                        | GwCheck md5 => String.eqb md5 H
                        | _ => false
                        end) (gateway w).

(** ** Vocabulary of a settlement's cause *)

(** The gateway answers a status check, and the answer reads paid. *)
Definition paid_answer (a : action) : bool :=
  match a with
  | Settles _ (Checked o) => confirmed (checkPaymentStatus o)
  | _ => false
  end.

(** The callback suspended at [f] is not on its way through a
    settlement, and the row it is about to write, if any, is a pending
    one. *)
Definition quiet_frame (f : frame) : Prop :=
  settle_stage f = None /\
  match f with
  | GenPersist _ _ _ row => Row.status row = Pending
  | _ => True
  end.

(** No suspended callback is. *)
Definition none_settling (w : world) : Prop := Forall quiet_frame (pending w).

(** The completed rows of a ledger. *)
Definition completed_rows (rows : list Row.t) : list Row.t :=
  List.filter (fun r => bool_decide (Row.status r = Completed)) rows.

(** ** [utils/helpers.js]: [generateRandomString] *)

Definition chars : string :=
  "ABCDEFGHIJKLMNOPQRSTUVWXYZabcdefghijklmnopqrstuvwxyz0123456789".

(** [s.charAt(i)]: the character at [i], or the empty string when there
    is none. *)
Definition charAt (s : string) (i : Z) : string :=
  if i <? 0 then ""
  else match String.get (Z.to_nat i) s with
       | Some c => String c ""
       | None => ""
       end.

(** [Math.floor(r * chars.length)] for [r] drawn by [Math.random()]. *)
Definition random_index (r : Q) : Z :=
  Qfloor (r * inject_Z (Z.of_nat (String.length chars))).

(** [generateRandomString] (lines 228-235); the length defaults to 10,
    and [random i] is what the [i]-th call of [Math.random()] returns. *)
Definition generateRandomString (length : option nat) (random : nat -> Q) : string :=
  fold_left (fun result i => result ++ charAt chars (random_index (random i)))
            (seq 0 (default 10%nat length)) "".

(** [Math.random()] draws from [0, 1). *)
Definition draws (random : nat -> Q) : Prop :=
  forall i, (0 <= random i)%Q /\ (random i < 1)%Q.

(** The characters of a string. *)
Definition characters (s : string) : list ascii := list_ascii_of_string s.

(** ** Vocabulary of the transaction ids *)

(** A transaction id as the controller writes them: the gateway's or the
    random one, not empty, or the id [topup_<time>_<owner>], which only a
    completed row has (line 359). *)
Definition ref_identified (st : tx_status) (ref : txref) : Prop :=
  match ref with
  | GatewayRef s => s <> ""
  | TopupRef _ _ => st = Completed
  end.

(** A ledger row carries such an id. *)
Definition row_identified (r : Row.t) : Prop :=
  ref_identified (Row.status r) (Row.transaction_id r).

(** The id a suspended callback carries to the ledger is of that kind. *)
Definition frame_identified (f : frame) : Prop :=
  match f with
  | GenCreate _ _ tid | GenToDataURL _ _ _ tid | GenFetchImage _ _ _ tid
  | GenCompose _ _ _ _ tid | GenSendStyled _ _ _ _ tid | GenSendRaw _ _ _ _ tid =>
      tid <> ""
  | GenPersist _ _ _ row =>
      match Row.transaction_id row with
      | GatewayRef s => s <> ""
      | TopupRef _ _ => False
      end
  | SettleInsert _ ref => ref_identified Completed ref
  | _ => True
  end.

(** Every suspended callback and every ledger row does. *)
Definition ids_present (w : world) : Prop :=
  Forall frame_identified (pending w) /\ Forall row_identified (transactions w).

(** The calls of a schedule pass an id that is not empty. *)
Definition calls_identified (evs : list (Z * action)) : Prop :=
  Forall (fun e => match snd e with
                   | Call _ _ _ tid => tid <> ""
                   | _ => True
                   end) evs.

(** ** The settings: [utils/settingsManager.js] and the settings route

    The value of a setting is a text of one-byte characters, as tokens,
    ids and amounts are: [String.length] is its [length]. *)

(** [a >= b] *)
Definition js_ge (a b : jsnum) : bool :=
  match js_compare a b with Some Gt | Some Eq => true | _ => false end.

(** A value received for a setting: its text, if there is one, and what
    [parseFloat] makes of it. *)
Record setting_value : Type := SettingValue {
  given : option string;
  parsed : jsnum
}.

(** [value.includes(c)] *)
Fixpoint includes (c : ascii) (s : string) : bool :=
  match s with
  | EmptyString => false
  | String a s => Ascii.eqb a c || includes c s
  end.

(** [value.split(c).length] *)
Fixpoint split_length (c : ascii) (s : string) : nat :=
  match s with
  | EmptyString => 1
  | String a s => if Ascii.eqb a c then S (split_length c s) else split_length c s
  end.

(** The errors of [validateSetting]; the two of the cross-validation
    carry the numbers their text shows. *)
Inductive setting_error : Type :=
| BotTokenTooShort
| BakongIdNotEmail
| MerchantNameTooShort
| BearerTokenTooShort
| BearerTokenNotJwt
| AmountNotPositive
| MinimumBelowCent
| MaximumAboveCap
| MinimumNotBelowMaximum (num currentMax : jsnum)
| MaximumNotAboveMinimum (num currentMin : jsnum).

(** [!value || value.length < n] *)
Definition shorter_than (n : nat) (value : option string) : bool :=
  match value with
  | Some s => negb (truthy value) || (String.length s <? n)%nat
  | None => true
  end.

(** [validateSetting] (lines 133-189); [None] is [{ valid: true }].
    [current] is what [parseFloat] makes of the two limits of
    [getCurrentSettings()], minimum first. *)
Definition validateSetting (key : string) (value : setting_value)
    (current : jsnum * jsnum) : option setting_error :=
  if String.eqb key "botToken" then
    if shorter_than 10 (given value) then Some BotTokenTooShort else None
  else if String.eqb key "bakongId" then
    match given value with
    | Some s =>
        if negb (truthy (given value)) || negb (includes "@" s)
        then Some BakongIdNotEmail else None
    | None => Some BakongIdNotEmail
    end
  else if String.eqb key "merchantName" then
    if shorter_than 2 (given value) then Some MerchantNameTooShort else None
  else if String.eqb key "bearerToken" then
    match given value with
    | Some s =>
        if shorter_than 10 (given value) then Some BearerTokenTooShort
        else if negb (Nat.eqb (split_length "." s) 3) then Some BearerTokenNotJwt
        else None
    | None => Some BearerTokenTooShort
    end
  else if String.eqb key "minTopup" || String.eqb key "maxTopup" then
    let num := parsed value in
    if js_isNaN num || js_le num (Fin 0) then Some AmountNotPositive
    else if String.eqb key "minTopup" && js_lt num (Fin (1 # 100)) then Some MinimumBelowCent
    else if String.eqb key "maxTopup" && js_gt num (Fin 10000) then Some MaximumAboveCap
    else if String.eqb key "minTopup" then
      let currentMax := snd current in
      if js_ge num currentMax then Some (MinimumNotBelowMaximum num currentMax) else None
    else if String.eqb key "maxTopup" then
      let currentMin := fst current in
      if js_le num currentMin then Some (MaximumNotAboveMinimum num currentMin) else None
    else None
  else None.

(** [keyMapping] (lines 54-61) *)
Definition keyMapping (key : string) : option string :=
  if String.eqb key "botToken" then Some "TELEGRAM_BOT_TOKEN"
  else if String.eqb key "bakongId" then Some "KHQR_BAKONG_ID"
  else if String.eqb key "merchantName" then Some "KHQR_MERCHANT_NAME"
  else if String.eqb key "bearerToken" then Some "KHQR_BEARER_TOKEN"
  else if String.eqb key "minTopup" then Some "MIN_TOPUP_AMOUNT"
  else if String.eqb key "maxTopup" then Some "MAX_TOPUP_AMOUNT"
  else None.

(** The limit [getCurrentSettings()] reports once [value] is stored:
    [parseFloat(value || default)]. *)
Definition stored_limit (value : setting_value) (default : jsnum) : jsnum :=
  if truthy (given value) then parsed value else default.

(** [updateSetting] (lines 51-117), as far as the two limits and the
    controller go, for a key of [keyMapping] ([None] for another key,
    whose variable [key.toUpperCase()] is not modelled). When the .env
    file could be rewritten the value is stored, and the controller
    reloads its settings if the variable starts with [KHQR_]; when it
    could not, nothing is stored. The first component is [success]. *)
Definition updateSetting (key : string) (value : setting_value) (written : bool)
    (w : world) : option (bool * world) :=
  envKey ← keyMapping key;
  Some
    (if written then
       let limits :=
         if String.eqb envKey "MIN_TOPUP_AMOUNT"
         then (stored_limit value (Fin (1 # 100)), snd (settings w))
         else if String.eqb envKey "MAX_TOPUP_AMOUNT"
         then (fst (settings w), stored_limit value (Fin 1000))
         else settings w in
       let w := World (paymentCheckers w) (activeIntervals w) (processedMd5 w)
                      (cleanupInterval w) (minTopupAmount w) (maxTopupAmount w)
                      (clock w) (loops w) (live w) (timeouts w) (nextTimer w) (pending w)
                      (users w) (transactions w) limits (outbox w) (gateway w) in
       (true, if String.prefix "KHQR_" envKey then reloadSettings w else w)
     else (false, w)).

(** The keys the route accepts (part_001, lines 876-883). *)
Definition allowedSettings : list string :=
  ["botToken"; "bakongId"; "merchantName"; "bearerToken"; "minTopup"; "maxTopup"].

(** What the route answers. *)
Inductive route_reply : Type :=
| Updated
| InvalidKey
| InvalidValue (e : setting_error)
| NotWritten.

(** [POST /api/settings/update] (part_001, lines 871-907): the key is
    checked, the value validated, the setting updated. *)
Definition settings_update (key : string) (value : setting_value) (written : bool)
    (w : world) : option (route_reply * world) :=
  if negb (existsb (String.eqb key) allowedSettings) then Some (InvalidKey, w)
  else
    match validateSetting key value (settings w) with
    | Some e => Some (InvalidValue e, w)
    | None =>
        '(success, w') ← updateSetting key value written w;
        Some (if success : bool then Updated else NotWritten, w')
    end.

(** [parseFloat] makes [NaN] of a missing or empty text. *)
Definition well_read (value : setting_value) : Prop :=
  truthy (given value) = false -> parsed value = NaN.

(** The limits are two finite numbers with
    0.01 <= minimum < maximum <= 10000. *)
Definition limits_valid (limits : jsnum * jsnum) : Prop :=
  match limits with
  | (Fin lo, Fin hi) => (1 # 100 <= lo)%Q /\ (lo < hi)%Q /\ (hi <= 10000)%Q
  | _ => False
  end.

(** ** The caller: [handleTopupAmountInput] of [controllers/telegramBot.js] *)

(** What the handler reads of the text the user typed, once trimmed:
    whether it is empty ([!amount]), what [Number] makes of it (for
    [isNaN(amount)]) and what [parseFloat] makes of it. *)
Record amount_text : Type := AmountText {
  blank : bool;
  as_number : jsnum;
  as_float : jsnum
}.

(** The handler's own refusals (lines 415, 427, 435), with the limits
    their text shows. *)
Inductive handler_message : Type :=
| InvalidAmountBetween (minAmount maxAmount : jsnum)
| BelowMinimum (minAmount : jsnum)
| AboveMaximum (maxAmount : jsnum).

(** The handler refuses and returns, the user still being asked for an
    amount; or it stops asking and calls [processTopup], which runs up
    to its first [await]. *)
Inductive handled : Type :=
| Refused (m : handler_message)
| Forwarded (s : segment).

(** [Number] accepts no text that [parseFloat] makes [NaN] of, the empty
    text apart. *)
Definition conversions_agree (amount : amount_text) : Prop :=
  blank amount = false -> js_isNaN (as_number amount) = false ->
  js_isNaN (as_float amount) = false.

(** [handleTopupAmountInput] (lines 400-447), up to its first [await]. *)
Definition handleTopupAmountInput (chatId fromId : Z) (amount : amount_text)
    (transactionId : string) (w : world) : handled :=
  let minAmount := fst (settings w) in
  let maxAmount := snd (settings w) in
  if blank amount || js_isNaN (as_number amount) || js_le (as_float amount) (Fin 0)
  then Refused (InvalidAmountBetween minAmount maxAmount)
  else
    let numericAmount := as_float amount in
    if js_lt numericAmount minAmount then Refused (BelowMinimum minAmount)
    else if js_gt numericAmount maxAmount then Refused (AboveMaximum maxAmount)
    else Forwarded (processTopup chatId fromId numericAmount transactionId w).

(** ** [utils/helpers.js]: [escapeHtml]

    Strings are sequences of bytes (UTF-8); the five characters that are
    replaced are single bytes that occur in no other character's
    encoding. *)

(** [s.replace(/c/g, by)] for a character [c]. *)
Fixpoint replace_all (c : ascii) (by_ : string) (s : string) : string :=
  match s with
  | EmptyString => EmptyString
  | String a s =>
      if Ascii.eqb a c then by_ ++ replace_all c by_ s
      else String a (replace_all c by_ s)
  end.

(** The double quote. *)
Definition dquote : ascii := "034".

(** [escapeHtml] (lines 89-97); [None] is a missing text. *)
Definition escapeHtml (text : option string) : string :=
  match text with
  | Some text =>
      if String.eqb text "" then ""
      else
        replace_all "'" "&#39;"
          (replace_all dquote "&quot;"
             (replace_all ">" "&gt;"
                (replace_all "<" "&lt;"
                   (replace_all "&" "&amp;" text))))
  | None => ""
  end.

(** What stands for a character once escaped. *)
Definition entity (c : ascii) : string :=
  if Ascii.eqb c "&" then "&amp;"
  else if Ascii.eqb c "<" then "&lt;"
  else if Ascii.eqb c ">" then "&gt;"
  else if Ascii.eqb c dquote then "&quot;"
  else if Ascii.eqb c "'" then "&#39;"
  else String c "".

(** A text with every character escaped, in one pass. *)
Fixpoint entities (s : string) : string :=
  match s with
  | EmptyString => EmptyString
  | String a s => entity a ++ entities s
  end.

(** The characters HTML gives a meaning, the ampersand apart. *)
Definition markup (c : ascii) : bool :=
  Ascii.eqb c "<" || Ascii.eqb c ">" || Ascii.eqb c dquote || Ascii.eqb c "'".

(** ** [utils/helpers.js]: [createGameTypeKeyboard] *)

(** A button of an inline keyboard. *)
Record button : Type := Button {
  text : string;
  callback_data : string
}.

(** The button of a game type (lines 186-189, 192-195). *)
Definition browse_button (gameType : string) : button :=
  Button gameType ("browse_" ++ gameType).

(** The loop of lines 184-199: two game types a row. *)
Fixpoint game_rows (gameTypes : list string) : list (list button) :=
  match gameTypes with
  | [] => []
  | [a] => [[browse_button a]]
  | a :: b :: rest => [browse_button a; browse_button b] :: game_rows rest
  end.

(** The button of lines 202-205. *)
Definition all_games : button := Button "🎮 All Games" "browse_all".

(** [createGameTypeKeyboard] (lines 180-208): the [inline_keyboard]. *)
Definition createGameTypeKeyboard (gameTypes : list string) : list (list button) :=
  (game_rows gameTypes ++ [[all_games]])%list.

(** ** [utils/helpers.js]: [formatLastActive] *)

(** What the function is given: no date, a text that is no date, or a
    date, [diffMs] milliseconds before now. *)
Inductive last_seen : Type :=
| NoDate
| InvalidDate
| Elapsed (diffMs : Z).

(** The units the text is written in. *)
Inductive time_unit : Type := Minute | Hour | Day | Week | Month | Year.

(** The texts: ['Never'], ['Just now'], [`${n} ${unit}${s} ago`] with
    its plural [s], and ['NaN years ago']. *)
Inductive last_active : Type :=
| Never
| JustNow
| Ago (n : Z) (unit : time_unit) (plural : bool)
| NaNYearsAgo.

(** [`${n} unit${n !== 1 ? 's' : ''} ago`] *)
Definition ago (n : Z) (unit : time_unit) : last_active :=
  Ago n unit (negb (n =? 1)).

(** [formatLastActive] (lines 55-86); [/] on [Z] is [Math.floor] of the
    quotient. *)
Definition formatLastActive (seen : last_seen) : last_active :=
  match seen with
  | NoDate => Never
  | InvalidDate => NaNYearsAgo
  | Elapsed diffMs =>
      let diffSeconds := diffMs / 1000 in
      let diffMinutes := diffSeconds / 60 in
      let diffHours := diffMinutes / 60 in
      let diffDays := diffHours / 24 in
      let diffWeeks := diffDays / 7 in
      let diffMonths := diffDays / 30 in
      let diffYears := diffDays / 365 in
      if diffSeconds <? 60 then JustNow
      else if diffMinutes <? 60 then ago diffMinutes Minute
      else if diffHours <? 24 then ago diffHours Hour
      else if diffDays <? 7 then ago diffDays Day
      else if diffWeeks <? 4 then ago diffWeeks Week
      else if diffMonths <? 12 then ago diffMonths Month
      else ago diffYears Year
  end.

(** The length of a unit, in milliseconds; a month is 30 days and a year
    365. *)
Definition milliseconds (unit : time_unit) : Z :=
  match unit with
  | Minute => 60000
  | Hour => 3600000
  | Day => 86400000
  | Week => 7 * 86400000
  | Month => 30 * 86400000
  | Year => 365 * 86400000
  end.


(** * Tactics *)

(** Case analysis on what a resumed callback does next. *)
Ltac segments :=
  unfold gen_created, gen_result, gen_failed, gen_catch, gen_store, gen_started,
    tick_checked, tick_catch, settle_cleanup, sql_complete, await, done in *.

Ltac branches H :=
  repeat match type of H with
         | context [mbind _ ?x] => destruct x eqn:?; simpl in H
         | context [match ?x with _ => _ end] => destruct x eqn:?; simpl in H
         | context [if ?x then _ else _] => destruct x eqn:?; simpl in H
         end.

Ltac solve_hash :=
  intros; unfold hash_of; simpl;
  first [ reflexivity
        | rewrite lookup_alter; case_decide; [subst|reflexivity];
          match goal with |- context [loops ?w !! ?h] => destruct (loops w !! h) end;
          reflexivity
        | rewrite lookup_insert_ne by lia; reflexivity ].

Ltac solve_dom :=
  let Hs := fresh in
  intros ? Hs; simpl in Hs;
  first [ left; exact Hs
        | rewrite lookup_alter in Hs; case_decide; [subst|left; exact Hs];
          left; apply fmap_is_Some in Hs; exact Hs
        | rewrite lookup_insert in Hs; case_decide; [subst; right; simpl; lia|left; exact Hs] ].

Ltac solve_frame :=
  let Hfo := fresh in let Hh := fresh in
  intros ? ? Hfo Hh; simpl in Hfo;
  first [ discriminate Hfo | injection Hfo as <-; simpl in Hh; simpl; exact Hh ].

Ltac solve_stage :=
  let Hfo := fresh in let Hst := fresh in
  intros ? ? ? Hfo Hst; simpl in Hfo;
  first [ discriminate Hfo
        | injection Hfo as <-; simpl in Hst;
          first [ discriminate Hst
                | injection Hst as <- <-; eexists; split; [reflexivity|lia] ] ].


(** * Properties *)

(** ** Gateway client *)

Lemma axios_get_accepted (o : http check_data) :
  accepted o = true ->
  exists st d, o = Response st d /\ axios_get o = Some (st, d) /\
               (st =? 200) || (st =? 201) = true.
Proof.
  destruct o as [|st d]; simpl; [discriminate|].
  intros H. exists st, d. repeat split; [|exact H].
  apply orb_true_iff in H. destruct H as [H|H]; apply Z.eqb_eq in H; subst; reflexivity.
Qed.

Lemma checkPaymentStatus_accepted (o : http check_data) :
  accepted o = true ->
  checkPaymentStatus o = StatusOk (strict_eq_zero (code_of o)) (code_of o).
Proof.
  intros H. destruct (axios_get_accepted o H) as (st & d & -> & Hget & Hst).
  unfold checkPaymentStatus. rewrite Hget, Hst. destruct d; reflexivity.
Qed.

Lemma checkPaymentStatus_refused (o : http check_data) :
  accepted o = false -> exists e, checkPaymentStatus o = StatusError e.
Proof.
  destruct o as [|st d]; simpl; intros H; unfold checkPaymentStatus; simpl.
  - eauto.
  - destruct ((200 <=? st) && (st <? 300)); [rewrite H|]; eauto.
Qed.

Lemma strict_eq_zero_spec (v : jsval) : strict_eq_zero v = true <-> v = JNumber 0.
Proof.
  split; [|intros ->; reflexivity].
  destruct v as [|n|s]; try discriminate. destruct n; try discriminate. reflexivity.
Qed.

(** C8, as the code has it. [checkPaymentStatus] reports paid exactly
    when the response has status 200 or 201 and carries response code 0;
    any other code on such a response is a successful not-paid result; a
    transport failure, a non-2xx response, and also a 2xx response with
    another status, is an error result, and on an error result the poll
    loop's callback neither settles nor touches balance, ledger or
    processed set: below the tick bound it only counts the tick and the
    loop stays scheduled. *)
Theorem checkStatus_paid_exactly_on_code_zero
    (o : http check_data) (h : nat) (l : Loop.t) (w : world) :
  (confirmed (checkPaymentStatus o) = true <->
     accepted o = true /\ code_of o = JNumber 0) /\
  (accepted o = true ->
     checkPaymentStatus o = StatusOk (strict_eq_zero (code_of o)) (code_of o)) /\
  ((o = NetworkError \/ exists st d, o = Response st d /\ (st < 200 \/ 300 <= st)) ->
     accepted o = false) /\
  (accepted o = false ->
     exists e, checkPaymentStatus o = StatusError e /\
       let s := tick_checked h l (checkPaymentStatus o) w in
       processedMd5 (fst s) = processedMd5 w /\
       users (fst s) = users w /\
       transactions (fst s) = transactions w /\
       outbox (fst s) = outbox w /\
       snd s <> Some (SettleConfirm h) /\
       (Loop.checkCount l + 1 < maxChecks ->
          s = done (count_check h w) /\ live (fst s) = live w)).
Proof.
  split; [|split; [|split]].
  - split.
    + intros Hc. destruct (accepted o) eqn:Ha.
      * rewrite (checkPaymentStatus_accepted o Ha) in Hc. simpl in Hc.
        split; [reflexivity|]. now apply strict_eq_zero_spec.
      * destruct (checkPaymentStatus_refused o Ha) as [e He].
        rewrite He in Hc. discriminate.
    + intros [Ha Hz]. rewrite (checkPaymentStatus_accepted o Ha), Hz. reflexivity.
  - apply checkPaymentStatus_accepted.
  - intros [->|(st & d & -> & Hst)]; [reflexivity|]. simpl.
    apply orb_false_iff. split; apply Z.eqb_neq; lia.
  - intros Ha. destruct (checkPaymentStatus_refused o Ha) as [e He].
    exists e. split; [exact He|]. rewrite He. unfold tick_checked. simpl.
    destruct (Loop.checkCount l + 1 >=? maxChecks) eqn:Hb; simpl;
      repeat split; try discriminate.
    all: rewrite Z.geb_leb in Hb; apply Z.leb_le in Hb; lia.
Qed.

Lemma checkStatus_paid_exactly_on_code_zero_witness :
  accepted (Response 500 None) = false /\
  exists e, checkPaymentStatus (Response 500 None) = StatusError e.
Proof.
  split; [reflexivity|].
  destruct (checkStatus_paid_exactly_on_code_zero (Response 500 None) 0%nat
              (Loop.Make 7 "H" (Fin 5) 0) (boot (NaN, NaN) ∅ []))
    as (_ & _ & _ & H).
  destruct (H eq_refl) as (e & He & _). exists e. exact He.
Defined.

(** C8, counterexample. A 202 response is 2xx, so axios hands it over,
    and it carries response code 0; [checkPaymentStatus] does not report
    it paid but returns an error (line 162). *)
Lemma checkStatus_errors_on_202_with_code_zero :
  let o := Response 202 (Some (CheckData (JNumber 0))) in
  axios_get o = Some (202, Some (CheckData (JNumber 0))) /\
  code_of o = JNumber 0 /\
  checkPaymentStatus o = StatusError "Invalid response from payment service" /\
  confirmed (checkPaymentStatus o) = false.
Proof. repeat split. Qed.

Lemma create_outcome_fails (o : http Create.data) :
  (exists e, create_outcome o = inl e) <->
  (o = NetworkError \/
   exists st d, o = Response st d /\
     (st < 200 \/ 300 <= st \/ has_artifact d = false \/ has_hash d = false)).
Proof.
  unfold create_outcome. destruct o as [|st d]; simpl.
  - split; eauto.
  - destruct (200 <=? st) eqn:H1; destruct (st <? 300) eqn:H2; simpl;
      try apply Z.leb_le in H1; try apply Z.leb_gt in H1;
      try apply Z.ltb_lt in H2; try apply Z.ltb_ge in H2.
    2-4: split; [intros _; right; exists st, d; split; [reflexivity|lia] | eauto].
    destruct d as [p|]; simpl.
    + destruct (truthy (Create.qr p) || truthy (Create.qrdata p)) eqn:Ha;
        destruct (truthy (Create.md5 p)) eqn:Hh; simpl.
      * split; [intros [e He]; discriminate|].
        intros [Hn|(st' & d' & Heq & Hc)]; [discriminate|].
        injection Heq as <- <-. simpl in Hc. rewrite Ha, Hh in Hc.
        destruct Hc as [?|[?|[?|?]]]; try lia; discriminate.
      * split; [intros _|eauto]. right. exists st, (Some p).
        split; [reflexivity|]. simpl. rewrite Hh. auto.
      * split; [intros _|eauto]. right. exists st, (Some p).
        split; [reflexivity|]. simpl. rewrite Ha. auto.
      * split; [intros _|eauto]. right. exists st, (Some p).
        split; [reflexivity|]. simpl. rewrite Ha. auto.
    + split; [intros _|eauto]. right. exists st, None. simpl. auto.
Qed.

Lemma create_outcome_succeeds (st : Z) (p : Create.data) :
  200 <= st < 300 -> has_artifact (Some p) = true -> has_hash (Some p) = true ->
  create_outcome (Response st (Some p)) = inr p.
Proof.
  intros [H1 H2] Ha Hh. unfold create_outcome. simpl in *.
  apply Z.leb_le in H1. apply Z.ltb_lt in H2. rewrite H1, H2. simpl.
  rewrite Ha, Hh. reflexivity.
Qed.

(** The callbacks suspended on a failure message only notify. *)
Lemma gen_catch_ends (chatId : Z) (r : reply) (w : world) (s : segment) :
  resume (GenCatch chatId) r w = Some s -> s = done w.
Proof. destruct r; simpl; intros H; congruence. Qed.

Lemma gen_failed_ends (chatId : Z) : ends_notifying (GenFailed chatId).
Proof.
  intros r w s. destruct r; simpl; intros H; try discriminate;
    injection H as <-; (split; [repeat split|]).
  - right. exists (GenCatch chatId). split; [reflexivity|]. apply gen_catch_ends.
  - left. reflexivity.
Qed.


(** C7, as the code has it. [generateQRCode] returns an error exactly
    when the HTTP call fails, the response is non-2xx, or the response
    lacks a QR artifact or lacks a payment hash (either one is enough);
    a 2xx response carrying both succeeds. On an error [generateQR] sends
    the failure to the chat and the call ends having only notified: no
    ledger row, no timer, no registered request. *)
Theorem createPayment_fails_exactly
    (o : http Create.data) (chatId : Z) (amount : jsnum) (tid : string) (w : world) :
  ((exists e, create_outcome o = inl e) <->
   (o = NetworkError \/
    exists st d, o = Response st d /\
      (st < 200 \/ 300 <= st \/ has_artifact d = false \/ has_hash d = false))) /\
  (forall st p, o = Response st (Some p) -> 200 <= st < 300 ->
     has_artifact (Some p) = true -> has_hash (Some p) = true ->
     create_outcome o = inr p) /\
  (forall e, create_outcome o = inl e ->
     gen_created chatId amount tid o w
       = await (GenFailed chatId) (bot (SendMessage chatId (MsgQrFailed e)) w) /\
     only_notified w (fst (gen_created chatId amount tid o w)) /\
     ends_notifying (GenFailed chatId)).
Proof.
  split; [apply create_outcome_fails|split].
  - intros st p -> Hst Ha Hh. now apply create_outcome_succeeds.
  - intros e He. unfold gen_created. rewrite He. unfold gen_failed.
    split; [reflexivity|]. split; [repeat split|apply gen_failed_ends].
Qed.

Lemma createPayment_fails_exactly_witness :
  create_outcome (Response 200 (Some (Create.Data (Some "https://qr") None (Some "H1") None)))
  = inr (Create.Data (Some "https://qr") None (Some "H1") None).
Proof.
  destruct (createPayment_fails_exactly
              (Response 200 (Some (Create.Data (Some "https://qr") None (Some "H1") None)))
              7 (Fin 5) "rnd" (boot (NaN, NaN) ∅ [])) as (_ & H & _).
  apply (H 200 _ eq_refl); [lia|reflexivity|reflexivity].
Defined.

(** C7, counterexample to "missing both": a 200 response that carries
    a QR artifact but no payment hash is not missing both, yet
    [generateQRCode] returns an error. *)
Lemma createPayment_fails_with_artifact_only :
  let d := Create.Data (Some "https://qr") None None None in
  has_artifact (Some d) = true /\
  has_hash (Some d) = false /\
  axios_get (Response 200 (Some d)) = Some (200, Some d) /\
  create_outcome (Response 200 (Some d)) = inl "Invalid response from payment service".
Proof. repeat split. Qed.

(** ** Validation of the amount *)



(** An amount that gets past line 184 is a positive number, finite or
    [+Infinity]. *)
Lemma passes_first_test (amount : jsnum) :
  negb (js_truthy amount) || js_isNaN amount || js_le amount (Fin 0) = false ->
  finite_positive amount \/ amount = Inf false.
Proof.
  destruct amount as [|[|]|q]; simpl; try discriminate; auto.
  intros H. left. apply orb_false_iff in H. destruct H as [_ H].
  unfold js_le in H. simpl in H.
  destruct (Qcompare q 0) eqn:Hc; try discriminate.
  now apply Qgt_alt in Hc.
Qed.




(** ** Ledger statements *)

Lemma matches_set_status (md5 : string) (userId : Z) (st : tx_status) (d : option Z) (r : Row.t) :
  matches md5 userId (set_status st d r) = matches md5 userId r.
Proof. reflexivity. Qed.

Lemma rows_of_completed (md5 : string) (userId : Z) (now : Z) (rows : list Row.t) :
  Forall (fun r => Row.status r = Completed)
    (rows_of md5 userId
       (map (fun r => if matches md5 userId r
                      then set_status Completed (Some now) r else r) rows)).
Proof.
  unfold rows_of. induction rows as [|r rows IH]; simpl; [constructor|].
  destruct (matches md5 userId r) eqn:Hm; simpl.
  - rewrite matches_set_status, Hm. constructor; [reflexivity|exact IH].
  - rewrite Hm. exact IH.
Qed.

Lemma rows_of_length_completed (md5 : string) (userId : Z) (now : Z) (rows : list Row.t) :
  length (rows_of md5 userId
            (map (fun r => if matches md5 userId r
                           then set_status Completed (Some now) r else r) rows))
  = length (rows_of md5 userId rows).
Proof.
  unfold rows_of. induction rows as [|r rows IH]; simpl; [reflexivity|].
  destruct (matches md5 userId r) eqn:Hm; simpl.
  - rewrite matches_set_status, Hm. simpl. now rewrite IH.
  - rewrite Hm. exact IH.
Qed.

Lemma rows_of_app (md5 : string) (userId : Z) (rows rows' : list Row.t) :
  rows_of md5 userId (rows ++ rows') = (rows_of md5 userId rows ++ rows_of md5 userId rows')%list.
Proof. unfold rows_of. apply List.filter_app. Qed.


Lemma settle_cleanup_store (h : nat) (l : Loop.t) (w : world) :
  transactions (fst (settle_cleanup h l w)) = transactions w /\
  users (fst (settle_cleanup h l w)) = users w.
Proof. unfold settle_cleanup. destruct (paymentCheckers w !! Loop.userId l); auto. Qed.

(** ** Settlement: credit and ledger update *)

(** C2, as the code has it. The balance credit and the ledger update of
    a settlement are two statements, each awaited and caught on its own,
    with no transaction around them: each takes effect exactly when its
    own promise is fulfilled, whatever became of the other. When both are
    fulfilled the balance is credited and the rows of the hash are
    completed. *)
Theorem credit_and_ledger_update_are_separate
    (h : nat) (l : Loop.t) (w : world) (b : jsnum) (r1 r2 : reply) (t : Z)
    (s1 s2 : segment) :
  loops w !! h = Some l ->
  users w !! Loop.userId l = Some b ->
  resume (SettleCredit h) r1 w = Some s1 ->
  resume (SettleMark h) r2 (with_clock (fun _ => t) (fst s1)) = Some s2 ->
  snd s1 = Some (SettleMark h) /\
  transactions (fst s1) = transactions w /\
  users (fst s2) !! Loop.userId l
    = Some (match r1 with Fulfilled => js_add b (Loop.amount l) | _ => b end) /\
  match r2 with
  | Fulfilled =>
      Forall (fun r => Row.status r = Completed)
        (rows_of (Loop.md5 l) (Loop.userId l) (transactions (fst s2))) /\
      length (rows_of (Loop.md5 l) (Loop.userId l) (transactions (fst s2)))
      = length (rows_of (Loop.md5 l) (Loop.userId l) (transactions w))
  | _ => transactions (fst s2) = transactions w
  end.
Proof.
  intros Hl Hb H1 H2.
  assert (Hs1 : snd s1 = Some (SettleMark h) /\ transactions (fst s1) = transactions w /\
                loops (fst s1) = loops w /\ paymentCheckers (fst s1) = paymentCheckers w /\
                users (fst s1) !! Loop.userId l
                = Some (match r1 with Fulfilled => js_add b (Loop.amount l) | _ => b end)).
  { destruct r1; simpl in H1; try discriminate.
    - injection H1 as <-. simpl. auto.
    - rewrite Hl in H1. simpl in H1. injection H1 as <-. simpl.
      repeat split. rewrite lookup_alter_eq, Hb. reflexivity. }
  destruct Hs1 as (Hf & Ht & Hlo & Hp & Hu).
  split; [exact Hf|]. split; [exact Ht|].
  destruct r2; simpl in H2; try discriminate; rewrite Hlo, Hl in H2; simpl in H2.
  - unfold settle_cleanup in H2. simpl in H2.
    destruct (paymentCheckers (fst s1) !! Loop.userId l);
      injection H2 as <-; simpl; auto.
  - destruct (length (rows_of (Loop.md5 l) (Loop.userId l) (transactions (fst s1))) =? 0)%nat.
    + injection H2 as <-. simpl. rewrite Ht.
      split; [exact Hu|]. split; [apply rows_of_completed|apply rows_of_length_completed].
    + unfold settle_cleanup in H2. simpl in H2.
      destruct (paymentCheckers (fst s1) !! Loop.userId l);
        injection H2 as <-; simpl; rewrite Ht;
        (split; [exact Hu|]);
        (split; [apply rows_of_completed|apply rows_of_length_completed]).
Qed.

Lemma credit_and_ledger_update_are_separate_witness :
  let l := Loop.Make 7 "H1" (Fin 5) 0 in
  let w := with_loops (insert 0%nat l) shop in
  exists s2,
    resume (SettleMark 0) Rejected (with_clock (fun _ => 9) (sql_credit (Fin 5) 7 w)) = Some s2 /\
    users (fst s2) !! 7 = Some (js_add (Fin 3) (Fin 5)) /\
    transactions (fst s2) = transactions w.
Proof.
  intros l w.
  assert (Hl : loops w !! 0%nat = Some l) by reflexivity.
  assert (Hb : users w !! Loop.userId l = Some (Fin 3)) by reflexivity.
  assert (H1 : resume (SettleCredit 0) Fulfilled w
               = Some (await (SettleMark 0) (sql_credit (Fin 5) 7 w))) by reflexivity.
  assert (H2 : resume (SettleMark 0) Rejected
                 (with_clock (fun _ => 9) (fst (await (SettleMark 0) (sql_credit (Fin 5) 7 w))))
               = Some (done (with_clock (fun _ => 9) (sql_credit (Fin 5) 7 w)))) by reflexivity.
  eexists. split; [exact H2|].
  destruct (credit_and_ledger_update_are_separate 0 l w (Fin 3) Fulfilled Rejected 9 _ _
              Hl Hb H1 H2) as (_ & _ & Hu & Ht).
  split; [exact Hu|exact Ht].
Defined.

(** C2, counterexample. The gateway confirms; the credit statement is
    rejected by the store, the ledger statement is not: the row is
    completed and the balance is still 3. *)
Lemma completed_but_not_credited :
  after credit_not_stored
    (fun w => (users w !! 7, map Row.status (transactions w), pending w))
  = Some (Some (Fin 3), [Completed], []).
Proof. vm_compute. reflexivity. Qed.

(** ** A notification fails during the settlement *)

(** A message that cannot be sent ends the settlement where it stands
    (lines 332-340, then the catch at line 394): store and guard are
    left as they are. *)
Lemma settlement_stops_at_failed_message (h : nat) (f : frame) (w : world) (s : segment) :
  f = SettleConfirm h \/ f = SettleThanks h ->
  resume f Rejected w = Some s ->
  snd s = None /\ users (fst s) = users w /\ transactions (fst s) = transactions w /\
  processedMd5 (fst s) = processedMd5 w.
Proof.
  intros [-> | ->] Hs; simpl in Hs;
    (destruct (loops w !! h) as [l|]; [|discriminate]); simpl in Hs;
    injection Hs as <-; unfold tick_catch;
    destruct (Loop.checkCount l + 1 >=? maxChecks); simpl; auto.
Qed.

(** C3, at the failing input. The gateway confirms at the first tick and
    sending the confirmation message fails: the hash is marked processed
    and the loop is stopped, but the balance is still 3 and the row still
    pending; once the expiry timer has run nothing is scheduled or
    suspended that could credit it. *)
Lemma confirmation_failure_loses_the_credit :
  after confirmation_not_sent
    (fun w => (users w !! 7, map Row.status (transactions w),
               bool_decide ("H1" ∈ processedMd5 w),
               map_to_list (live w), map_to_list (timeouts w), pending w))
  = Some (Some (Fin 3), [Pending], true, [], [], []).
Proof. vm_compute. reflexivity. Qed.

(** ** A second top-up supersedes the first *)

(** Superseding a request leaves the expiry timers alone (lines 428-441). *)
Lemma clearUserPaymentChecker_keeps_timeouts (userId : Z) (w : world) :
  timeouts (clearUserPaymentChecker userId w) = timeouts w.
Proof.
  unfold clearUserPaymentChecker. destruct (activeIntervals w !! userId); reflexivity.
Qed.

(** C4, at the failing input. After the second top-up two expiry timers
    are scheduled for owner 7, and the first one, firing ten minutes
    after the first top-up, deletes the second top-up's QR message (88),
    discards its request and tells the owner it expired; the second
    top-up's loop then stops at its next tick, its own timer (3) not
    having fired. *)
Lemma superseded_timer_expires_the_new_request :
  after second_topup
    (fun w => (map_to_list (live w), timeouts w !! 1%nat, timeouts w !! 3%nat,
               Request.md5 <$> paymentCheckers w !! 7,
               map Row.status (transactions w)))
  = Some ([(2%nat, 541028)], Some (7, 600028), Some (7, 1140028), Some "H2",
          [Pending; Pending]) /\
  after first_timer_fires
    (fun w => (take 2 (outbox w), paymentCheckers w !! 7,
               map_to_list (live w), map_to_list (timeouts w),
               map Row.status (transactions w)))
  = Some ([SendMessage 7 MsgExpired; DeleteMessage 7 88], None,
          [], [(3%nat, (7, 1140028))], [Pending; Pending]).
Proof. split; vm_compute; reflexivity. Qed.

(** ** Terminal ledger states *)

(** The ledger update of a settlement completes every row of the hash
    and owner, whatever its status was (line 354). *)
Lemma settlement_completes_any_row (h : nat) (l : Loop.t) (w : world) (s : segment) :
  loops w !! h = Some l ->
  resume (SettleMark h) Fulfilled w = Some s ->
  Forall (fun r => Row.status r = Completed)
    (rows_of (Loop.md5 l) (Loop.userId l) (transactions (fst s))).
Proof.
  intros Hl Hs. simpl in Hs. rewrite Hl in Hs. simpl in Hs. injection Hs as <-.
  destruct (Nat.eqb _ 0); simpl.
  - apply rows_of_completed.
  - destruct (settle_cleanup_store h l
                (with_transactions
                   (map (fun r => if matches (Loop.md5 l) (Loop.userId l) r
                                  then set_status Completed (Some (clock w)) r else r)) w))
      as [-> _].
    apply rows_of_completed.
Qed.

(** C9, at the failing input. The row of H2 is expired by the tick
    bound while an earlier check is still in flight; that check comes
    back paid and the settlement's ledger update turns the expired row
    into a completed one. *)
Lemma markCompleted_overwrites_expired :
  after expired_with_check_in_flight
    (fun w => map (fun r => (Row.status r, Row.completed_date r)) (transactions w))
  = Some [(Expired, None)] /\
  after confirmed_after_expiry
    (fun w => map (fun r => (Row.status r, Row.completed_date r)) (transactions w))
  = Some [(Completed, Some 601540)].
Proof. split; vm_compute; reflexivity. Qed.

(** ** Expiry *)




(** ** A lost pending row *)

Lemma rows_in_app (st : tx_status) (md5 : string) (userId : Z) (rows rows' : list Row.t) :
  rows_in st md5 userId (rows ++ rows')
  = (rows_in st md5 userId rows ++ rows_in st md5 userId rows')%list.
Proof. unfold rows_in. rewrite rows_of_app. apply List.filter_app. Qed.

Lemma matches_refl (md5 : string) (userId : Z) (r : Row.t) :
  Row.md5_hash r = Some md5 -> Row.user_id r = userId -> matches md5 userId r = true.
Proof.
  intros Hm Hu. unfold matches. rewrite bool_decide_eq_true_2 by exact Hm.
  simpl. apply Z.eqb_eq. exact Hu.
Qed.

(** The INSERT of line 357 adds one completed row of the hash and owner. *)
Lemma insert_completed_row (l : Loop.t) (ref : txref) (w : world) :
  length (rows_in Completed (Loop.md5 l) (Loop.userId l)
            (transactions (sql_insert (completed_row (clock w) l ref) w)))
  = S (length (rows_in Completed (Loop.md5 l) (Loop.userId l) (transactions w))).
Proof.
  simpl. rewrite rows_in_app, length_app. unfold rows_in at 2, rows_of. simpl.
  rewrite matches_refl by reflexivity. simpl. lia.
Qed.

Lemma update_without_rows (md5 : string) (userId : Z) (g : Row.t -> Row.t) (rows : list Row.t) :
  rows_of md5 userId rows = [] ->
  map (fun r => if matches md5 userId r then g r else r) rows = rows.
Proof.
  unfold rows_of. induction rows as [|r rows IH]; simpl; [reflexivity|].
  destruct (matches md5 userId r); [discriminate|].
  intros H. now rewrite IH.
Qed.

Lemma rows_in_all (st : tx_status) (md5 : string) (userId : Z) (rows : list Row.t) :
  Forall (fun r => Row.status r = st) (rows_of md5 userId rows) ->
  rows_in st md5 userId rows = rows_of md5 userId rows.
Proof.
  unfold rows_in. induction (rows_of md5 userId rows) as [|r rs IH]; simpl; [reflexivity|].
  intros H. apply Forall_cons in H. destruct H as [Hr Hrs].
  rewrite bool_decide_eq_true_2 by exact Hr. now rewrite IH.
Qed.

(** C10. When the pending row cannot be written, [generateQR] goes on:
    the request stays registered, the poll loop and the expiry timer are
    started; the write is only attempted once the QR photo was sent and
    the request registered. A settlement whose ledger update finds no row
    of the hash and owner inserts a completed one; so a fulfilled ledger
    update either leaves completed rows or asks for the insert, which,
    fulfilled, adds the completed row. *)
Theorem lost_pending_row_is_replaced
    (chatId : Z) (amount : jsnum) (hash : string) (row : Row.t)
    (h : nat) (l : Loop.t) (w : world) :
  loops w !! h = Some l ->
  (exists w1,
     resume (GenPersist chatId amount hash row) Rejected w = Some (done w1) /\
     transactions w1 = transactions w /\
     paymentCheckers w1 = paymentCheckers w /\
     loops w1 !! nextTimer w = Some (Loop.Make chatId hash amount 0) /\
     live w1 !! nextTimer w = Some (clock w + 1000) /\
     activeIntervals w1 !! chatId = Some (nextTimer w) /\
     timeouts w1 !! S (nextTimer w) = Some (chatId, clock w + 600000)) /\
  (forall f r w0 s,
     resume f r w0 = Some s -> snd s = Some (GenPersist chatId amount hash row) ->
     exists mid url tid,
       r = Sent mid /\
       (f = GenSendStyled chatId amount url hash tid \/
        f = GenSendRaw chatId amount url hash tid) /\
       paymentCheckers (fst s) !! chatId
       = Some (Request.Make hash tid mid (clock w0) amount false)) /\
  (forall s, resume (SettleMark h) Fulfilled w = Some s ->
     (rows_of (Loop.md5 l) (Loop.userId l) (transactions w) = [] ->
        transactions (fst s) = transactions w /\
        snd s = Some (SettleInsert h (TopupRef (clock w) (Loop.userId l)))) /\
     (rows_of (Loop.md5 l) (Loop.userId l) (transactions w) <> [] ->
        rows_in Completed (Loop.md5 l) (Loop.userId l) (transactions (fst s)) <> [])) /\
  (forall ref, exists s,
     resume (SettleInsert h ref) Fulfilled w = Some s /\
     length (rows_in Completed (Loop.md5 l) (Loop.userId l) (transactions (fst s)))
     = S (length (rows_in Completed (Loop.md5 l) (Loop.userId l) (transactions w)))).
Proof.
  intros Hl. split; [|split; [|split]].
  - eexists. split; [reflexivity|]. simpl.
    repeat split; try apply lookup_insert_eq.
  - intros f r w0 s Hr Hs.
    destruct f; destruct r; simpl in Hr; try discriminate;
      segments; branches Hr; try discriminate;
      injection Hr as <-; simpl in Hs; try discriminate;
      injection Hs as <- <- <- <-; simpl;
      eexists _, _, _; (split; [reflexivity|]);
      (split; [eauto|]); apply lookup_insert_eq.
  - intros s Hs. simpl in Hs. rewrite Hl in Hs. simpl in Hs.
    injection Hs as <-. split.
    + intros Hnone. rewrite Hnone. simpl.
      split; [|reflexivity]. now apply update_without_rows.
    + intros Hsome.
      destruct (Nat.eqb (length (rows_of (Loop.md5 l) (Loop.userId l) (transactions w))) 0)
        eqn:Hlen.
      { apply Nat.eqb_eq in Hlen.
        destruct (rows_of (Loop.md5 l) (Loop.userId l) (transactions w)); [congruence|discriminate]. }
      destruct (settle_cleanup_store h l
                  (with_transactions
                     (map (fun r => if matches (Loop.md5 l) (Loop.userId l) r
                                    then set_status Completed (Some (clock w)) r else r)) w))
        as [-> _].
      simpl. rewrite rows_in_all by apply rows_of_completed.
      intros Hnil. apply (f_equal (@length _)) in Hnil.
      rewrite rows_of_length_completed in Hnil. simpl in Hnil.
      apply Nat.eqb_neq in Hlen. congruence.
  - intros ref. simpl. rewrite Hl. simpl. eexists. split; [reflexivity|].
    destruct (settle_cleanup_store h l (sql_insert (completed_row (clock w) l ref) w))
      as [-> _].
    apply insert_completed_row.
Qed.

(** ** The processed-hash guard *)

Lemma resume_guarded (f : frame) (r : reply) (w : world) (s : segment) :
  resume f r w = Some s -> guarded f w s.
Proof.
  intros Hr.
  destruct f; destruct r; simpl in Hr; try discriminate;
    segments; branches Hr; try discriminate; injection Hr as <-.
  all: unfold guarded, clearUserPaymentChecker; simpl.
  all: repeat match goal with
              | |- context [activeIntervals ?w !! ?k] => destruct (activeIntervals w !! k)
              end; simpl.
  all: split; [reflexivity|].
  all: split; [lia|].
  all: split; [solve_hash|].
  all: split; [solve_dom|].
  all: split; [solve_frame|].
  all: try (left; split; [reflexivity|solve_stage]).
  right. eexists _, _. split; [reflexivity|]. split; [eassumption|].
  split; [|split; reflexivity].
  match goal with
  | Hb : bool_decide _ = false |- _ => apply bool_decide_eq_false in Hb; exact Hb
  end.
Qed.

Lemma filter_delete_length {A : Type} (P : A -> bool) (l : list A) (i : nat) (x : A) :
  l !! i = Some x ->
  (length (List.filter P (delete i l)) + (if P x then 1 else 0)
   = length (List.filter P l))%nat.
Proof.
  revert i. induction l as [|a l IH]; intros [|i] Hi; simpl in *; try discriminate.
  - injection Hi as ->. destruct (P x); simpl; lia.
  - specialize (IH i Hi). destruct (P a); simpl; lia.
Qed.

(** The callbacks that have passed the guard for the hash [H] and have
    not gone past step [k] of the settlement. *)
Section Guard.
Variables (k : nat) (H : string).

Lemma owes_stable (w w' : world) (f : frame) :
  (forall h, frame_loop f = Some h -> hash_of w' h = hash_of w h) ->
  owes k H w' f = owes k H w f.
Proof.
  intros Hs. unfold owes. destruct f; simpl in *; try reflexivity;
    rewrite (Hs _ eq_refl); reflexivity.
Qed.

Lemma owing_stable (w w' : world) (p : list frame) :
  Forall (fun f => forall h, frame_loop f = Some h -> hash_of w' h = hash_of w h) p ->
  List.filter (owes k H w') p = List.filter (owes k H w) p.
Proof.
  induction 1 as [|f p Hf Hp IH]; simpl; [reflexivity|].
  rewrite (owes_stable w w' f Hf), IH. reflexivity.
Qed.

Lemma settles_stage_owes (i : nat) (r : reply) (w : world) (f : frame) :
  pending w !! i = Some f ->
  settles_stage k H (Settles i r) w = true ->
  r = Fulfilled /\ exists h, settle_stage f = Some (h, k) /\ hash_of w h = Some H.
Proof.
  intros Hf. unfold settles_stage. rewrite Hf. simpl.
  destruct r; try discriminate.
  destruct (settle_stage f) as [[h j]|]; [|discriminate].
  intros Hb. apply andb_true_iff in Hb. destruct Hb as [Hj Hh].
  apply Nat.eqb_eq in Hj. subst j. apply bool_decide_eq_true in Hh. eauto.
Qed.

Lemma settle_turn_ok (now : Z) (i : nat) (r : reply) (w w' : world) :
  allocated w -> step now (Settles i r) w = Some w' -> turn_ok k H (Settles i r) w w'.
Proof.
  intros [Hdom Hfr] Hstep. unfold step in Hstep.
  destruct (now <? clock w); [discriminate|]. simpl in Hstep.
  destruct (pending w !! i) as [f|] eqn:Hf; [|discriminate]. simpl in Hstep.
  destruct (resume f r _) as [s|] eqn:Hr; [|discriminate]. simpl in Hstep.
  injection Hstep as <-.
  pose proof (resume_guarded _ _ _ _ Hr) as (Hp & Hn & Hh & Hd & Hfl & Hg).
  simpl in Hp, Hn, Hd, Hg.
  assert (Hh0 : forall h, (h < nextTimer w)%nat -> hash_of (fst s) h = hash_of w h).
  { intros h Hlt. rewrite Hh by exact Hlt. reflexivity. }
  clear Hh. rename Hh0 into Hh.
  assert (Hf_in : forall h, frame_loop f = Some h -> (h < nextTimer w)%nat).
  { rewrite Forall_forall in Hfr. apply Hfr. apply list_elem_of_lookup. eauto. }
  assert (Hold : Forall (fun g => forall h, frame_loop g = Some h ->
                                            hash_of (fst s) h = hash_of w h)
                        (delete i (pending w))).
  { apply Forall_delete. eapply Forall_impl; [exact Hfr|].
    intros g Hb h Hgl. apply Hh, (Hb h Hgl). }
  assert (Hl' : loops (suspend s) = loops (fst s)).
  { unfold suspend. destruct (snd s); reflexivity. }
  assert (Hp' : pending (suspend s)
                = (delete i (pending w) ++ match snd s with Some g => [g] | None => [] end)%list).
  { unfold suspend. destruct (snd s); simpl; rewrite Hp; [reflexivity|].
    now rewrite app_nil_r. }
  assert (Hsus : forall g, owes k H (suspend s) g = owes k H (fst s) g).
  { intros g. apply owes_stable. intros h _. unfold hash_of. now rewrite Hl'. }
  assert (Hcount : forall fo : option frame, snd s = fo ->
            (owing k H (suspend s) + (if owes k H w f then 1 else 0)
             = owing k H w + match fo with Some g => if owes k H (fst s) g then 1 else 0 | None => 0 end)%nat).
  { intros fo Hfo. unfold owing. rewrite Hp', Hfo, List.filter_app, length_app.
    pose proof (filter_delete_length (owes k H w) (pending w) i f Hf) as Hdel.
    rewrite (owing_stable w (suspend s) (delete i (pending w))).
    - destruct fo as [g|]; simpl; [|lia].
      rewrite Hsus. destruct (owes k H (fst s) g); simpl; lia.
    - eapply Forall_impl; [exact Hold|]. intros g Hb h Hgl.
      unfold hash_of. rewrite Hl'. apply (Hb h Hgl). }
  specialize (Hcount _ eq_refl).
  assert (Hexec : settles_stage k H (Settles i r) w = true ->
                  owes k H w f = true /\
                  match snd s with Some g => owes k H (fst s) g = false | None => True end).
  { intros He. destruct (settles_stage_owes _ _ _ _ Hf He) as (-> & h & Hst & Hhash).
    split.
    - unfold owes. rewrite Hst, Nat.leb_refl, bool_decide_eq_true_2 by exact Hhash.
      reflexivity.
    - destruct (snd s) as [g|] eqn:Hg'; [|exact I].
      destruct Hg as [[_ Hnext]|(h' & l & -> & _)]; [|discriminate].
      unfold owes. destruct (settle_stage g) as [[h' j]|] eqn:Hsg; [|reflexivity].
      destruct (Hnext g h' j eq_refl Hsg) as (i' & Hi' & Hlt).
      rewrite Hst in Hi'. injection Hi' as <- <-.
      apply andb_false_iff. left. apply Nat.leb_gt. exact Hlt. }
  assert (Halloc : allocated (suspend s)).
  { split.
    - intros h Hs. assert (Hl : loops (suspend s) = loops (fst s)).
      { unfold suspend. destruct (snd s); reflexivity. }
      assert (Hnt : nextTimer (suspend s) = nextTimer (fst s)).
      { unfold suspend. destruct (snd s); reflexivity. }
      rewrite Hl in Hs. rewrite Hnt. destruct (Hd h Hs) as [Hw|Hw]; [|lia].
      specialize (Hdom h Hw). lia.
    - assert (Hnt : nextTimer (suspend s) = nextTimer (fst s)).
      { unfold suspend. destruct (snd s); reflexivity. }
      rewrite Hnt. unfold suspend. destruct (snd s) as [g|] eqn:Hg'; simpl.
      + rewrite Hp. apply Forall_app. split.
        * apply Forall_delete. eapply Forall_impl; [exact Hfr|].
          intros g' Hb h Hgl. specialize (Hb h Hgl). lia.
        * constructor; [|constructor]. intros h Hgl.
          specialize (Hf_in h (Hfl g h eq_refl Hgl)). lia.
      + rewrite Hp. apply Forall_delete. eapply Forall_impl; [exact Hfr|].
        intros g' Hb h Hgl. specialize (Hb h Hgl). lia. }
  assert (Hproc : processedMd5 (suspend s) = processedMd5 (fst s)).
  { unfold suspend. destruct (snd s); reflexivity. }
  split; [exact Halloc|].
  destruct Hg as [[Hsame Hnext]|(h & l & -> & Hl & Hnew & Hadd & Hsnd)].
  - (* the guard is not passed in this segment *)
    assert (Hle : match snd s with
                  | Some g => owes k H (fst s) g = true -> owes k H w f = true
                  | None => True
                  end).
    { destruct (snd s) as [g|] eqn:Hg'; [|exact I].
      unfold owes. destruct (settle_stage g) as [[h' j]|] eqn:Hsg; [|discriminate].
      destruct (Hnext g h' j eq_refl Hsg) as (i' & Hi' & Hlt).
      rewrite Hi'. intros Hb. apply andb_true_iff in Hb. destruct Hb as [Hj Hhash].
      apply Nat.leb_le in Hj.
      assert (Hlt' : (h' < nextTimer w)%nat).
      { apply Hf_in. destruct f; simpl in Hi' |- *; congruence. }
      rewrite <- (Hh h' Hlt'). rewrite Hhash.
      rewrite (proj2 (Nat.leb_le i' k)) by lia. reflexivity. }
    assert (Hdrop : (owing k H (suspend s)
                     + (if settles_stage k H (Settles i r) w then 1 else 0)
                     <= owing k H w)%nat).
    { destruct (settles_stage k H (Settles i r) w) eqn:He.
      - destruct (Hexec eq_refl) as [Hof Hog]. rewrite Hof in Hcount.
        destruct (snd s) as [g|]; [rewrite Hog in Hcount|]; lia.
      - destruct (snd s) as [g|]; [|destruct (owes k H w f); lia].
        destruct (owes k H (fst s) g); [rewrite (Hle eq_refl) in Hcount|];
          destruct (owes k H w f); lia. }
    split; [rewrite Hproc, Hsame; reflexivity|]. split.
    + intros _. exact Hdrop.
    + intros _ Hz. rewrite Hz in Hdrop.
      destruct (settles_stage k H (Settles i r) w); [lia|].
      split; [reflexivity|]. split; [lia|]. intros _. lia.
  - (* the guard is passed: a settlement of [Loop.md5 l] begins *)
    assert (He : settles_stage k H (Settles i r) w = false).
    { destruct (settles_stage k H (Settles i r) w) eqn:He; [|reflexivity].
      destruct (settles_stage_owes _ _ _ _ Hf He) as (_ & h' & Hst & _).
      discriminate. }
    rewrite He. rewrite Hsnd in Hcount. simpl in Hcount.
    assert (Hnewowes : owes k H (fst s) (SettleConfirm h) = bool_decide (Loop.md5 l = H)).
    { unfold owes. simpl. rewrite Hh by (apply Hf_in; reflexivity).
      unfold hash_of. rewrite Hl. simpl.
      destruct (decide (Loop.md5 l = H)) as [->|Hne].
      - now rewrite !bool_decide_eq_true_2.
      - rewrite !bool_decide_eq_false_2; [reflexivity|exact Hne|congruence]. }
    rewrite Hnewowes in Hcount.
    split; [rewrite Hproc, Hadd; apply union_subseteq_r|]. split.
    + intros Hin.
      rewrite bool_decide_eq_false_2 in Hcount
        by (intros Heq; apply Hnew; rewrite Heq; exact Hin).
      lia.
    + intros Hnin Hz. split; [reflexivity|].
      destruct (bool_decide (Loop.md5 l = H)) eqn:Hb.
      * split; [lia|]. intros Hnin'. exfalso. apply Hnin'.
        apply bool_decide_eq_true in Hb. rewrite Hproc, Hadd, Hb.
        apply elem_of_union_l, elem_of_singleton. reflexivity.
      * split; [lia|]. intros _. lia.
Qed.

(** A turn that neither resumes a callback nor touches loops or guard. *)
Lemma quiet_turn_ok (a : action) (w w' : world) (fs : list frame) :
  allocated w ->
  loops w' = loops w -> nextTimer w' = nextTimer w ->
  processedMd5 w' = processedMd5 w ->
  pending w' = (pending w ++ fs)%list ->
  Forall (fun f => settle_stage f = None /\
                   forall h, frame_loop f = Some h -> is_Some (loops w !! h)) fs ->
  settles_stage k H a w = false ->
  turn_ok k H a w w'.
Proof.
  intros [Hdom Hfr] Hl Hn Hp Hpend Hfs Hno.
  assert (Hsame : owing k H w' = owing k H w).
  { unfold owing. rewrite Hpend, List.filter_app, length_app.
    assert (Hnil : List.filter (owes k H w') fs = []).
    { clear -Hfs. induction Hfs as [|f fs [Hf _] _ IH]; simpl; [reflexivity|].
      unfold owes at 1. rewrite Hf. exact IH. }
    rewrite Hnil. simpl. rewrite Nat.add_0_r.
    f_equal. apply owing_stable. apply Forall_forall. intros f _ h _.
    unfold hash_of. now rewrite Hl. }
  split; [|split; [|split]].
  - split.
    + intros h Hs. rewrite Hl in Hs. rewrite Hn. exact (Hdom h Hs).
    + rewrite Hpend, Hn. apply Forall_app. split; [exact Hfr|].
      eapply Forall_impl; [exact Hfs|]. intros f [_ Hf] h Hfl. exact (Hdom h (Hf h Hfl)).
  - rewrite Hp. reflexivity.
  - intros _. rewrite Hsame, Hno. lia.
  - intros _ Hz. rewrite Hsame, Hz. split; [exact Hno|]. split; [lia|]. reflexivity.
Qed.

Lemma suspend_pending (s : segment) :
  pending (suspend s)
  = (pending (fst s) ++ match snd s with Some f => [f] | None => [] end)%list.
Proof. unfold suspend. destruct (snd s); simpl; [reflexivity|]. now rewrite app_nil_r. Qed.

Lemma suspend_fields (s : segment) :
  loops (suspend s) = loops (fst s) /\ nextTimer (suspend s) = nextTimer (fst s) /\
  processedMd5 (suspend s) = processedMd5 (fst s).
Proof. unfold suspend. destruct (snd s); auto. Qed.

Lemma quiet_segment_ok (a : action) (w : world) (s : segment) :
  allocated w ->
  loops (fst s) = loops w -> nextTimer (fst s) = nextTimer w ->
  processedMd5 (fst s) = processedMd5 w ->
  pending (fst s) = pending w ->
  (forall f, snd s = Some f ->
     settle_stage f = None /\
     forall h, frame_loop f = Some h -> is_Some (loops w !! h)) ->
  settles_stage k H a w = false ->
  turn_ok k H a w (suspend s).
Proof.
  intros Hw Hl Hn Hp Hpend Hf Hno.
  destruct (suspend_fields s) as (Hl' & Hn' & Hp').
  eapply quiet_turn_ok; [exact Hw|congruence|congruence|congruence| | |exact Hno].
  - rewrite suspend_pending, Hpend. reflexivity.
  - destruct (snd s) as [f|]; constructor; [|constructor]. now apply Hf.
Qed.

(** Every turn keeps the guard's bookkeeping. *)
Lemma step_turn_ok (now : Z) (a : action) (w w' : world) :
  allocated w -> step now a w = Some w' -> turn_ok k H a w w'.
Proof.
  intros Hw Hstep. destruct a as [chatId userId amount tid|h|t| | |i r].
  6: now apply (settle_turn_ok now i r).
  all: unfold step in Hstep; destruct (now <? clock w); [discriminate|]; simpl in Hstep.
  - injection Hstep as <-.
    apply quiet_segment_ok; try exact Hw; try reflexivity;
      unfold generateQR;
      repeat match goal with |- context [if ?b then _ else _] => destruct b end;
      try reflexivity;
      intros f Hf; injection Hf as <-; (split; [reflexivity|discriminate]).
  - destruct (live w !! h) as [due|]; [|discriminate]. simpl in Hstep.
    destruct (loops w !! h) as [l|] eqn:Hlh; [|discriminate]. simpl in Hstep.
    destruct (due <=? now); [|discriminate]. injection Hstep as <-.
    apply quiet_segment_ok; try exact Hw; try reflexivity;
      unfold tick; simpl; destruct (paymentCheckers w !! Loop.userId l); simpl;
      try destruct (bool_decide _); try reflexivity;
      intros f Hf; try discriminate; injection Hf as <-;
      (split; [reflexivity|]); intros h' Hh'; injection Hh' as <-; rewrite Hlh; eauto.
  - destruct (timeouts w !! t) as [c|]; [|discriminate]. simpl in Hstep.
    destruct (snd c <=? now); [|discriminate]. injection Hstep as <-.
    apply quiet_segment_ok; try exact Hw; try reflexivity;
      unfold timeout; simpl; destruct (paymentCheckers w !! fst c); simpl;
      try reflexivity;
      intros f Hf; try discriminate; injection Hf as <-;
      (split; [reflexivity|discriminate]).
  - destruct (cleanupInterval w); [|discriminate]. injection Hstep as <-.
    eapply (quiet_turn_ok _ w _ []); try reflexivity; [exact Hw| |constructor].
    simpl. now rewrite app_nil_r.
  - injection Hstep as <-.
    eapply (quiet_turn_ok _ w _ []); try reflexivity; [exact Hw| |constructor].
    simpl. now rewrite app_nil_r.
Qed.

(** Along a schedule, step [k] of a settlement of [H] runs at most as
    often as callbacks are on their way to it: once, and only after the
    guard was passed for [H]. *)
Lemma count_along_bound (evs : list (Z * action)) (w : world) :
  allocated w ->
  (H ∉ processedMd5 w -> owing k H w = 0%nat) ->
  (owing k H w <= 1)%nat ->
  (count_along (settles_stage k H) evs w
   <= if bool_decide (H ∈ processedMd5 w) then owing k H w else 1)%nat.
Proof.
  revert w. induction evs as [|[now a] evs IH]; intros w Hw Hz Hone; simpl.
  - destruct (bool_decide _); lia.
  - destruct (step now a w) as [w'|] eqn:Hstep; [|destruct (bool_decide _); lia].
    destruct (step_turn_ok now a w w' Hw Hstep) as (Hw' & Hsub & Hin & Hout).
    destruct (decide (H ∈ processedMd5 w)) as [Hp|Hp].
    + rewrite bool_decide_eq_true_2 by exact Hp. specialize (Hin Hp).
      assert (Hp' : H ∈ processedMd5 w') by (apply Hsub; exact Hp).
      specialize (IH w' Hw' (fun Hn => False_ind _ (Hn Hp')) ltac:(lia)).
      rewrite bool_decide_eq_true_2 in IH by exact Hp'. lia.
    + rewrite bool_decide_eq_false_2 by exact Hp.
      destruct (Hout Hp (Hz Hp)) as (Hno & Hle & Hz').
      rewrite Hno. specialize (IH w' Hw' Hz' Hle).
      destruct (bool_decide (H ∈ processedMd5 w')); lia.
Qed.

End Guard.

Lemma boot_allocated (cfg : jsnum * jsnum) (balances : gmap Z jsnum) (rows : list Row.t) :
  allocated (boot cfg balances rows).
Proof.
  split; simpl.
  - intros h Hs. rewrite lookup_empty in Hs. destruct Hs as [? Hs]. discriminate.
  - constructor.
Qed.

(** ** Idempotent settlement *)

Lemma finish_suspended (rs : list (Z * reply)) (s : segment) (f : frame) (w1 : world) :
  finish rs s = Some w1 -> snd s = Some f ->
  exists t r rs' s',
    rs = (t, r) :: rs' /\
    resume f r (with_clock (fun _ => t) (fst s)) = Some s' /\
    finish rs' s' = Some w1.
Proof.
  intros Hfin Hf. destruct s as [w fo]. simpl in Hf. subst fo.
  destruct rs as [|[t r] rs]; [discriminate|].
  change (resume f r (with_clock (fun _ => t) w) ≫= finish rs = Some w1) in Hfin.
  destruct (resume f r (with_clock (fun _ => t) w)) as [s'|] eqn:Hr; [|discriminate].
  exists t, r, rs, s'. auto.
Qed.

Lemma finish_returned (rs : list (Z * reply)) (s : segment) (w1 : world) :
  finish rs s = Some w1 -> snd s = None -> w1 = fst s.
Proof.
  intros Hfin Hf. destruct s as [w fo]. simpl in Hf. subst fo.
  destruct rs; [|discriminate]. injection Hfin as <-. reflexivity.
Qed.

(** The end of a settlement (lines 366-378) leaves the store and the
    guard alone. *)
Lemma finish_settle_cleanup (h : nat) (l : Loop.t) (w w1 : world) (rs : list (Z * reply)) :
  loops w !! h = Some l ->
  finish rs (settle_cleanup h l w) = Some w1 ->
  users w1 = users w /\ transactions w1 = transactions w /\
  processedMd5 w1 = processedMd5 w.
Proof.
  intros Hl Hfin. unfold settle_cleanup in Hfin.
  destruct (paymentCheckers w !! Loop.userId l) as [t|].
  - destruct (finish_suspended _ _ _ _ Hfin eq_refl) as (t' & r & rs' & s' & -> & Hs' & Hfin').
    destruct r; simpl in Hs'; try discriminate;
      rewrite Hl in Hs'; injection Hs' as <-;
      rewrite (finish_returned _ _ _ Hfin' eq_refl); auto.
  - rewrite (finish_returned _ _ _ Hfin eq_refl). auto.
Qed.

Lemma rows_in_sub (st : tx_status) (md5 : string) (userId : Z) (rows : list Row.t) :
  rows_of md5 userId rows = [] -> rows_in st md5 userId rows = [].
Proof. unfold rows_in. now intros ->. Qed.

(** The guard is passed (lines 316-332). *)
Lemma guard_passed (h : nat) (l : Loop.t) (st : payment_status) (w : world) :
  confirmed st = true -> Loop.md5 l ∉ processedMd5 w ->
  let s := tick_checked h l st w in
  snd s = Some (SettleConfirm h) /\
  users (fst s) = users w /\ transactions (fst s) = transactions w /\
  loops (fst s) = loops w /\
  processedMd5 (fst s) = {[Loop.md5 l]} ∪ processedMd5 w.
Proof.
  intros Hst Hnew. unfold tick_checked. rewrite Hst. simpl.
  rewrite bool_decide_eq_false_2 by exact Hnew. simpl. auto.
Qed.

(** The guard is not passed a second time (lines 321-323). *)
Lemma guard_holds (h : nat) (l : Loop.t) (st : payment_status) (w : world) :
  confirmed st = true -> Loop.md5 l ∈ processedMd5 w ->
  tick_checked h l st w = done (stop_loop h (Loop.userId l) w).
Proof.
  intros Hst Hin. unfold tick_checked. rewrite Hst. simpl.
  rewrite bool_decide_eq_true_2 by exact Hin. reflexivity.
Qed.

(** The two messages (lines 332-340), when they are sent. *)
Lemma settle_confirm_sent (h : nat) (r : reply) (w : world) (s : segment) :
  resume (SettleConfirm h) r w = Some s -> r <> Rejected ->
  snd s = Some (SettleThanks h) /\ store_same w (fst s).
Proof.
  intros Hs Hr. destruct r; simpl in Hs; try discriminate; try congruence.
  destruct (loops w !! h); [|discriminate]. injection Hs as <-.
  split; [reflexivity|]. repeat split.
Qed.

Lemma settle_thanks_sent (h : nat) (r : reply) (w : world) (s : segment) :
  resume (SettleThanks h) r w = Some s -> r <> Rejected ->
  snd s = Some (SettleCredit h) /\ store_same w (fst s).
Proof.
  intros Hs Hr. destruct r; simpl in Hs; try discriminate; try congruence.
  injection Hs as <-. split; [reflexivity|]. repeat split.
Qed.

(** The credit statement (line 346), when it succeeds. *)
Lemma settle_credit (h : nat) (l : Loop.t) (r : reply) (w : world) (s : segment) :
  loops w !! h = Some l -> r <> Rejected ->
  resume (SettleCredit h) r w = Some s ->
  snd s = Some (SettleMark h) /\
  users (fst s) = alter (fun b => js_add b (Loop.amount l)) (Loop.userId l) (users w) /\
  transactions (fst s) = transactions w /\
  processedMd5 (fst s) = processedMd5 w /\ loops (fst s) = loops w.
Proof.
  intros Hl Hr Hs. destruct r; simpl in Hs; try discriminate; try congruence.
  rewrite Hl in Hs. injection Hs as <-. simpl. auto.
Qed.

(** The ledger statements (lines 354-361), when they succeed, leave one
    completed row of the hash where there was at most one row before. *)
Lemma settle_ledger (h : nat) (l : Loop.t) (w w1 : world) (r : reply) (s : segment)
    (rs : list (Z * reply)) :
  loops w !! h = Some l ->
  (length (rows_of (Loop.md5 l) (Loop.userId l) (transactions w)) <= 1)%nat ->
  r <> Rejected -> Forall (fun tr => snd tr <> Rejected) rs ->
  resume (SettleMark h) r w = Some s ->
  finish rs s = Some w1 ->
  users w1 = users w /\ processedMd5 w1 = processedMd5 w /\
  length (rows_in Completed (Loop.md5 l) (Loop.userId l) (transactions w1)) = 1%nat.
Proof.
  intros Hl Hrows Hr Hall Hs Hfin.
  destruct r; simpl in Hs; try discriminate; try congruence.
  rewrite Hl in Hs. simpl in Hs. injection Hs as <-.
  destruct (Nat.eqb (length (rows_of (Loop.md5 l) (Loop.userId l) (transactions w))) 0)
    eqn:Hlen.
  - (* no row of the hash: the INSERT of line 357 *)
    apply Nat.eqb_eq in Hlen.
    assert (Hnone : rows_of (Loop.md5 l) (Loop.userId l) (transactions w) = []).
    { destruct (rows_of _ _ (transactions w)); [reflexivity|discriminate]. }
    destruct (finish_suspended _ _ _ _ Hfin eq_refl) as (t & r & rs' & s' & -> & Hs' & Hfin').
    apply Forall_cons in Hall. destruct Hall as [Hr' _]. simpl in Hr'.
    destruct r; simpl in Hs'; try discriminate; try congruence.
    rewrite Hl in Hs'. simpl in Hs'. injection Hs' as <-.
    apply finish_settle_cleanup in Hfin'; [|exact Hl].
    destruct Hfin' as (Hu & Ht & Hp). rewrite Hu, Ht, Hp.
    split; [reflexivity|]. split; [reflexivity|]. simpl.
    rewrite (update_without_rows _ _ _ _ Hnone).
    rewrite rows_in_app, length_app, (rows_in_sub _ _ _ _ Hnone).
    unfold rows_in, rows_of. simpl. rewrite matches_refl by reflexivity. reflexivity.
  - (* the row of the hash is updated *)
    apply Nat.eqb_neq in Hlen.
    apply finish_settle_cleanup in Hfin; [|exact Hl].
    destruct Hfin as (Hu & Ht & Hp). rewrite Hu, Ht, Hp.
    split; [reflexivity|]. split; [reflexivity|]. simpl.
    rewrite rows_in_all by apply rows_of_completed.
    rewrite rows_of_length_completed. lia.
Qed.

(** C1. For every payment hash and along every schedule of a freshly
    constructed controller, the balance credit of a settlement of that
    hash (step 2) runs at most once, and so do its ledger update (step 3)
    and its ledger insert (step 4), however many ticks observe paid and
    whatever fails. And when a tick that observed paid settles a hash not
    yet processed, for an owner with at most one ledger row of that hash,
    and nothing it awaits fails, the balance is credited once and exactly
    one completed row of the hash is left; a second settlement of the
    hash returns at the processed-hash guard and changes neither balance,
    ledger, processed set nor outbox. *)
Theorem settlement_happens_once
    (H : string) (evs : list (Z * action))
    (cfg : jsnum * jsnum) (balances : gmap Z jsnum) (rows : list Row.t)
    (h : nat) (l : Loop.t) (w : world) (b : jsnum) (st : payment_status)
    (rs : list (Z * reply)) (w1 : world) :
  loops w !! h = Some l ->
  Loop.md5 l ∉ processedMd5 w ->
  users w !! Loop.userId l = Some b ->
  (length (rows_of (Loop.md5 l) (Loop.userId l) (transactions w)) <= 1)%nat ->
  confirmed st = true ->
  Forall (fun tr => snd tr <> Rejected) rs ->
  finish rs (tick_checked h l st w) = Some w1 ->
  ((count_along (settles_stage 2 H) evs (boot cfg balances rows) <= 1)%nat /\
   (count_along (settles_stage 3 H) evs (boot cfg balances rows) <= 1)%nat /\
   (count_along (settles_stage 4 H) evs (boot cfg balances rows) <= 1)%nat) /\
  (users w1 !! Loop.userId l = Some (js_add b (Loop.amount l)) /\
   length (rows_in Completed (Loop.md5 l) (Loop.userId l) (transactions w1)) = 1%nat /\
   Loop.md5 l ∈ processedMd5 w1) /\
  (forall st' l', Loop.md5 l' = Loop.md5 l -> confirmed st' = true ->
     let s := tick_checked h l' st' w1 in
     snd s = None /\ users (fst s) = users w1 /\
     transactions (fst s) = transactions w1 /\
     processedMd5 (fst s) = processedMd5 w1 /\ outbox (fst s) = outbox w1).
Proof.
  intros Hl Hnew Hb Hrows Hst Hall Hfin.
  assert (Hfirst : users w1 !! Loop.userId l = Some (js_add b (Loop.amount l)) /\
                   length (rows_in Completed (Loop.md5 l) (Loop.userId l) (transactions w1)) = 1%nat /\
                   Loop.md5 l ∈ processedMd5 w1).
  { destruct (guard_passed h l st w Hst Hnew) as (Hf0 & Hu0 & Ht0 & Hl0 & Hp0).
    destruct (finish_suspended _ _ _ _ Hfin Hf0) as (t1 & r1 & rs1 & s1 & -> & Hs1 & Hfin1).
    apply Forall_cons in Hall. destruct Hall as [Hr1 Hall]. simpl in Hr1.
    destruct (settle_confirm_sent _ _ _ _ Hs1 Hr1) as (Hf1 & Hu1 & Ht1 & Hp1 & Hl1).
    simpl in Hu1, Ht1, Hp1, Hl1.
    destruct (finish_suspended _ _ _ _ Hfin1 Hf1) as (t2 & r2 & rs2 & s2 & -> & Hs2 & Hfin2).
    apply Forall_cons in Hall. destruct Hall as [Hr2 Hall]. simpl in Hr2.
    destruct (settle_thanks_sent _ _ _ _ Hs2 Hr2) as (Hf2 & Hu2 & Ht2 & Hp2 & Hl2).
    simpl in Hu2, Ht2, Hp2, Hl2.
    destruct (finish_suspended _ _ _ _ Hfin2 Hf2) as (t3 & r3 & rs3 & s3 & -> & Hs3 & Hfin3).
    apply Forall_cons in Hall. destruct Hall as [Hr3 Hall]. simpl in Hr3.
    assert (Hl2' : loops (with_clock (fun _ => t3) (fst s2)) !! h = Some l).
    { simpl. rewrite Hl2, Hl1, Hl0. exact Hl. }
    destruct (settle_credit h l r3 _ s3 Hl2' Hr3 Hs3) as (Hf3 & Hu3 & Ht3 & Hp3 & Hl3).
    simpl in Hu3, Ht3, Hp3, Hl3.
    destruct (finish_suspended _ _ _ _ Hfin3 Hf3) as (t4 & r4 & rs4 & s4 & -> & Hs4 & Hfin4).
    apply Forall_cons in Hall. destruct Hall as [Hr4 Hall]. simpl in Hr4.
    assert (Hl3' : loops (with_clock (fun _ => t4) (fst s3)) !! h = Some l).
    { simpl. rewrite Hl3, Hl2, Hl1, Hl0. exact Hl. }
    assert (Hrows3 : (length (rows_of (Loop.md5 l) (Loop.userId l)
                                (transactions (with_clock (fun _ => t4) (fst s3)))) <= 1)%nat).
    { simpl. rewrite Ht3, Ht2, Ht1, Ht0. exact Hrows. }
    destruct (settle_ledger h l _ w1 r4 s4 rs4 Hl3' Hrows3 Hr4 Hall Hs4 Hfin4)
      as (Hu4 & Hp4 & Hc4).
    simpl in Hu4, Hp4.
    split; [|split].
    - rewrite Hu4, Hu3, Hu2, Hu1, Hu0, lookup_alter_eq, Hb. reflexivity.
    - exact Hc4.
    - rewrite Hp4, Hp3, Hp2, Hp1, Hp0. apply elem_of_union_l, elem_of_singleton.
      reflexivity. }
  split; [|split; [exact Hfirst|]].
  - repeat split;
      (eapply Nat.le_trans;
       [apply count_along_bound; [apply boot_allocated|reflexivity|apply Nat.le_0_l]|]);
      rewrite bool_decide_eq_false_2 by (simpl; apply not_elem_of_empty); reflexivity.
  - intros st' l' Hmd5 Hst'. destruct Hfirst as (_ & _ & Hin).
    rewrite <- Hmd5 in Hin. rewrite (guard_holds h l' st' w1 Hst' Hin). simpl. auto.
Qed.

Lemma settlement_happens_once_witness :
  exists w1,
    finish all_goes_well (tick_checked 0 (Loop.Make 7 "H1" (Fin 5) 2)
                            (StatusOk true (JNumber 0)) polling) = Some w1 /\
    users w1 !! 7 = Some (js_add (Fin 3) (Fin 5)) /\
    length (rows_in Completed "H1" 7 (transactions w1)) = 1%nat /\
    "H1" ∈ processedMd5 w1.
Proof.
  destruct (finish all_goes_well (tick_checked 0 (Loop.Make 7 "H1" (Fin 5) 2)
                                    (StatusOk true (JNumber 0)) polling))
    as [w1|] eqn:Hfin; [|vm_compute in Hfin; discriminate].
  exists w1. split; [reflexivity|].
  assert (Hl : loops polling !! 0%nat = Some (Loop.Make 7 "H1" (Fin 5) 2))
    by reflexivity.
  assert (Hnew : Loop.md5 (Loop.Make 7 "H1" (Fin 5) 2) ∉ processedMd5 polling)
    by (simpl; apply not_elem_of_empty).
  assert (Hb : users polling !! Loop.userId (Loop.Make 7 "H1" (Fin 5) 2) = Some (Fin 3))
    by reflexivity.
  assert (Hrows : (length (rows_of "H1" 7 (transactions polling)) <= 1)%nat)
    by (vm_compute; lia).
  assert (Hall : Forall (fun tr : Z * reply => snd tr <> Rejected) all_goes_well)
    by (repeat constructor; discriminate).
  exact (proj1 (proj2 (settlement_happens_once "H1" [] (NaN, NaN) ∅ []
                         0 (Loop.Make 7 "H1" (Fin 5) 2) polling (Fin 3)
                         (StatusOk true (JNumber 0)) all_goes_well w1
                         Hl Hnew Hb Hrows eq_refl Hall Hfin))).
Defined.

Lemma lost_pending_row_is_replaced_witness :
  loops polling_without_row !! 0%nat = Some (Loop.Make 7 "H1" (Fin 5) 2) /\
  exists s,
    resume (SettleInsert 0 (TopupRef 3070 7)) Fulfilled polling_without_row = Some s /\
    length (rows_in Completed "H1" 7 (transactions (fst s))) = 1%nat.
Proof.
  split; [reflexivity|].
  destruct (lost_pending_row_is_replaced 7 (Fin 5) "H1"
              (Row.Make 0 7 Topup (Fin 5) Pending (Some "H1") (Some 77)
                 (Some "https://qr") (GatewayRef "rnd") 0 None)
              0 (Loop.Make 7 "H1" (Fin 5) 2) polling_without_row eq_refl)
    as (_ & _ & _ & Hins).
  destruct (Hins (TopupRef 3070 7)) as (s & Hs & Hlen).
  exists s. split; [exact Hs|exact Hlen].
Defined.

(** C10, end to end: the pending row cannot be written, the request is
    registered and loop and timer run all the same; the gateway confirms
    at the third tick, and the settlement leaves the balance credited
    and one completed row, inserted. *)
Example pending_write_lost_then_settled :
  after pending_write_lost
    (fun w => (transactions w, Request.md5 <$> paymentCheckers w !! 7,
               map_to_list (live w), map_to_list (timeouts w), outbox w))
  = Some ([], Some "H1", [(0%nat, 1028)], [(1%nat, (7, 600028))],
          [SendPhoto 7 StyledCard (Fin 5)]) /\
  after settled_without_pending_row
    (fun w => (users w !! 7,
               map (fun r => (Row.status r, Row.md5_hash r, Row.user_id r)) (transactions w)))
  = Some (Some (Fin 8), [(Completed, Some "H1", 7)]).
Proof. split; vm_compute; reflexivity. Qed.

(** End to end, when all goes well: owner 42 tops up 10, the third tick
    is answered paid; the balance goes from 0 to 10, the row is
    completed, the QR message deleted and the request discarded. *)
Example paid_at_third_tick_settles :
  after paid_at_third_tick
    (fun w => (users w !! 42, map Row.status (transactions w),
               head (outbox w), paymentCheckers w !! 42, map_to_list (live w)))
  = Some (Some (Fin 10), [Completed], Some (DeleteMessage 42 77), None, []).
Proof. vm_compute. reflexivity. Qed.

(** * More properties *)

(** ** The ledger and the balances along a schedule *)

Lemma row_moves_refl (r : Row.t) : row_moves r r.
Proof. split; [reflexivity|left; reflexivity]. Qed.

Lemma row_moves_trans (r1 r2 r3 : Row.t) :
  row_moves r1 r2 -> row_moves r2 r3 -> row_moves r1 r3.
Proof.
  intros [Hk1 Hs1] [Hk2 Hs2]. split; [congruence|].
  destruct Hs2 as [Hs2|[Hs2|[Hp Hs2]]].
  - rewrite Hs2. exact Hs1.
  - right; left; exact Hs2.
  - destruct Hs1 as [Hs1|[Hs1|[_ Hs1]]]; try congruence.
    right; right. split; congruence.
Qed.

Lemma ledger_grows_refl (rows : list Row.t) : ledger_grows rows rows.
Proof.
  exists rows, []. split; [symmetry; apply app_nil_r|].
  apply Forall2_same_length_lookup_2; [reflexivity|].
  intros i r r' H1 H2. assert (r = r') as -> by congruence. apply row_moves_refl.
Qed.

Lemma ledger_grows_trans (rows1 rows2 rows3 : list Row.t) :
  ledger_grows rows1 rows2 -> ledger_grows rows2 rows3 -> ledger_grows rows1 rows3.
Proof.
  intros (k1 & a1 & -> & H1) (k2 & a2 & -> & H2).
  apply Forall2_app_inv_l in H2. destruct H2 as (k2a & k2b & Ha & Hb & ->).
  exists k2a, (k2b ++ a2)%list. split; [symmetry; apply app_assoc|].
  clear Hb. revert k2a Ha. induction H1 as [|r r' rows k1 Hr H1 IH]; intros k2a Ha.
  - inversion Ha. constructor.
  - inversion Ha as [|? r'' ? k2a' Hr' Ha']; subst. constructor.
    + eapply row_moves_trans; eassumption.
    + apply IH. exact Ha'.
Qed.

Lemma ledger_grows_update (rows : list Row.t) (g : Row.t -> Row.t) :
  (forall r, row_moves r (g r)) -> ledger_grows rows (map g rows).
Proof.
  intros Hg. exists (map g rows), []. split; [symmetry; apply app_nil_r|].
  induction rows; constructor; auto.
Qed.

Lemma ledger_grows_complete (md5 : string) (userId : Z) (d : option Z) (rows : list Row.t) :
  ledger_grows rows
    (map (fun r => if matches md5 userId r then set_status Completed d r else r) rows).
Proof.
  apply ledger_grows_update. intros r.
  destruct (matches md5 userId r); [|apply row_moves_refl].
  split; [reflexivity|right; left; reflexivity].
Qed.

Lemma ledger_grows_expire (md5 : string) (userId : Z) (rows : list Row.t) :
  ledger_grows rows
    (map (fun r => if matches md5 userId r && is_pending r
                   then set_status Expired (Row.completed_date r) r else r) rows).
Proof.
  apply ledger_grows_update. intros r.
  destruct (matches md5 userId r && is_pending r) eqn:Hc; [|apply row_moves_refl].
  apply andb_true_iff in Hc. destruct Hc as [_ Hp].
  apply bool_decide_eq_true in Hp.
  split; [reflexivity|right; right; split; [exact Hp|reflexivity]].
Qed.

Lemma ledger_grows_insert (rows added : list Row.t) :
  ledger_grows rows (rows ++ added).
Proof.
  exists rows, added. split; [reflexivity|].
  induction rows; constructor; [apply row_moves_refl|assumption].
Qed.

(** What one segment of a callback does to the ledger, the balances and
    the processed set. *)
Lemma resume_store (f : frame) (r : reply) (w : world) (s : segment) :
  resume f r w = Some s ->
  ledger_grows (transactions w) (transactions (fst s)) /\
  (users (fst s) = users w \/
   exists a u, users (fst s) = alter (fun b => js_add b a) u (users w)).
Proof.
  intros Hr.
  destruct f; destruct r; simpl in Hr; try discriminate;
    segments; branches Hr; try discriminate; injection Hr as <-.
  all: unfold clearUserPaymentChecker; simpl.
  all: repeat match goal with
              | |- context [activeIntervals ?w !! ?k] => destruct (activeIntervals w !! k)
              end; simpl.
  all: split;
    [ first [ apply ledger_grows_refl | apply ledger_grows_complete
            | apply ledger_grows_expire | apply ledger_grows_insert ]
    | first [ left; reflexivity | right; eexists _, _; reflexivity ] ].
Qed.

Lemma suspend_store (s : segment) :
  transactions (suspend s) = transactions (fst s) /\ users (suspend s) = users (fst s).
Proof. unfold suspend. destruct (snd s); auto. Qed.

Lemma resume_processed (f : frame) (r : reply) (w : world) (s : segment) :
  resume f r w = Some s -> processedMd5 w ⊆ processedMd5 (fst s).
Proof.
  intros Hr. apply resume_guarded in Hr.
  destruct Hr as (_ & _ & _ & _ & _ & [[-> _]|(h & l & _ & _ & _ & -> & _)]).
  - reflexivity.
  - apply union_subseteq_r.
Qed.

(** One turn of the event loop: the ledger grows, the balances stay or
    one of them is added to, the processed set grows. *)
Lemma step_store (now : Z) (a : action) (w w' : world) :
  step now a w = Some w' ->
  ledger_grows (transactions w) (transactions w') /\
  (users w' = users w \/
   exists x u, users w' = alter (fun b => js_add b x) u (users w)) /\
  processedMd5 w ⊆ processedMd5 w'.
Proof.
  intros Hstep. unfold step in Hstep.
  destruct (now <? clock w); [discriminate|].
  destruct a as [chatId userId amount tid|h|t| | |i r]; simpl in Hstep.
  - injection Hstep as <-.
    destruct (suspend_store (generateQR chatId userId amount tid
                               (with_clock (fun _ => now) w))) as [-> ->].
    destruct (suspend_fields (generateQR chatId userId amount tid
                               (with_clock (fun _ => now) w))) as (_ & _ & ->).
    unfold generateQR.
    repeat match goal with |- context [if ?b then _ else _] => destruct b end;
      (split; [apply ledger_grows_refl|split; [left; reflexivity|reflexivity]]).
  - destruct (live w !! h) as [due|]; [|discriminate]. simpl in Hstep.
    destruct (loops w !! h) as [l|]; [|discriminate]. simpl in Hstep.
    destruct (due <=? now); [|discriminate]. injection Hstep as <-.
    match goal with |- context [suspend ?s] =>
      destruct (suspend_store s) as [-> ->]; destruct (suspend_fields s) as (_ & _ & ->)
    end.
    unfold tick; simpl. destruct (paymentCheckers w !! Loop.userId l); simpl;
      try destruct (bool_decide _);
      (split; [apply ledger_grows_refl|split; [left; reflexivity|reflexivity]]).
  - destruct (timeouts w !! t) as [c|]; [|discriminate]. simpl in Hstep.
    destruct (snd c <=? now); [|discriminate]. injection Hstep as <-.
    match goal with |- context [suspend ?s] =>
      destruct (suspend_store s) as [-> ->]; destruct (suspend_fields s) as (_ & _ & ->)
    end.
    unfold timeout; simpl. destruct (paymentCheckers w !! fst c); simpl;
      (split; [apply ledger_grows_refl|split; [left; reflexivity|reflexivity]]).
  - destruct (cleanupInterval w); [|discriminate]. injection Hstep as <-.
    split; [apply ledger_grows_refl|split; [left; reflexivity|reflexivity]].
  - injection Hstep as <-.
    split; [apply ledger_grows_refl|split; [left; reflexivity|reflexivity]].
  - destruct (pending w !! i) as [f|]; [|discriminate]. simpl in Hstep.
    destruct (resume f r _) as [s|] eqn:Hr; [|discriminate]. injection Hstep as <-.
    destruct (suspend_store s) as [-> ->]. destruct (suspend_fields s) as (_ & _ & ->).
    destruct (resume_store _ _ _ _ Hr) as [Hl Hu].
    split; [exact Hl|]. split; [exact Hu|]. exact (resume_processed _ _ _ _ Hr).
Qed.

(** X1. Along any schedule the controller deletes no ledger row: every
    row that was there is still there, at the same place, with its id,
    owner, type, amount, hash, message, QR url, transaction id and
    timestamp. Only its status and completion date can differ: the
    status is the same, or has become completed, or has gone from
    pending to expired. In particular a completed row stays completed. *)
Theorem ledger_rows_are_kept (evs : list (Z * action)) (w w' : world) :
  run evs w = Some w' ->
  ledger_grows (transactions w) (transactions w') /\
  forall i r, transactions w !! i = Some r ->
    exists r', transactions w' !! i = Some r' /\ row_key r' = row_key r /\
      (Row.status r = Completed -> Row.status r' = Completed).
Proof.
  intros Hrun.
  assert (Hg : ledger_grows (transactions w) (transactions w')).
  { revert w Hrun. induction evs as [|[now a] evs IH]; intros w Hrun; simpl in Hrun.
    - injection Hrun as <-. apply ledger_grows_refl.
    - destruct (step now a w) as [w1|] eqn:Hstep; [|discriminate]. simpl in Hrun.
      eapply ledger_grows_trans; [exact (proj1 (step_store _ _ _ _ Hstep))|].
      apply IH. exact Hrun. }
  split; [exact Hg|].
  destruct Hg as (kept & added & Heq & Hk). intros i r Hi.
  destruct (Forall2_lookup_l _ _ _ _ _ Hk Hi) as (r' & Hi' & Hkey & Hst).
  exists r'. split; [rewrite Heq; apply lookup_app_l_Some; exact Hi'|].
  split; [exact Hkey|]. intros Hc.
  destruct Hst as [Hst|[Hst|[Hp _]]]; congruence.
Qed.

Lemma ledger_rows_are_kept_witness :
  exists w w',
    run expired_with_check_in_flight shop = Some w /\
    run [ (601500, Settles 0 paid);
          (601510, Settles 1 (Sent 78)); (601520, Settles 1 (Sent 79));
          (601530, Settles 1 Fulfilled); (601540, Settles 1 Fulfilled) ] w = Some w' /\
    ledger_grows (transactions w) (transactions w') /\
    map Row.status (transactions w) = [Expired] /\
    map Row.status (transactions w') = [Completed].
Proof.
  destruct (run expired_with_check_in_flight shop) as [w|] eqn:Hrun;
    [|vm_compute in Hrun; discriminate].
  destruct (run [ (601500, Settles 0 paid);
                  (601510, Settles 1 (Sent 78)); (601520, Settles 1 (Sent 79));
                  (601530, Settles 1 Fulfilled); (601540, Settles 1 Fulfilled) ] w)
    as [w'|] eqn:Hrun';
    [|vm_compute in Hrun; injection Hrun as <-; vm_compute in Hrun'; discriminate].
  exists w, w'. split; [reflexivity|]. split; [exact Hrun'|].
  split; [exact (proj1 (ledger_rows_are_kept _ w w' Hrun'))|].
  vm_compute in Hrun. injection Hrun as <-.
  vm_compute in Hrun'. injection Hrun' as <-.
  split; reflexivity.
Defined.

(** X2. Along any schedule the controller creates no user account and
    removes none: the owners that have a balance are the same before and
    after. A settlement for an owner without an account credits no one
    (the UPDATE of line 346 changes no row, and nothing else is tried). *)
Theorem accounts_are_neither_created_nor_removed
    (evs : list (Z * action)) (w w' : world) (u : Z) :
  run evs w = Some w' ->
  (is_Some (users w' !! u) <-> is_Some (users w !! u)).
Proof.
  revert w. induction evs as [|[now a] evs IH]; intros w Hrun; simpl in Hrun.
  - injection Hrun as <-. reflexivity.
  - destruct (step now a w) as [w1|] eqn:Hstep; [|discriminate]. simpl in Hrun.
    rewrite (IH w1 Hrun).
    destruct (step_store _ _ _ _ Hstep) as (_ & [->|(x & v & ->)] & _); [reflexivity|].
    rewrite lookup_alter. case_decide; [subst|reflexivity].
    rewrite fmap_is_Some. reflexivity.
Qed.

Lemma accounts_are_neither_created_nor_removed_witness :
  exists w', run stranger_pays shop = Some w' /\
    users w' !! 99 = None /\
    map (fun r => (Row.user_id r, Row.status r)) (transactions w') = [(99, Completed)].
Proof.
  destruct (run stranger_pays shop) as [w'|] eqn:Hrun;
    [|vm_compute in Hrun; discriminate].
  exists w'. split; [reflexivity|]. split.
  - pose proof (accounts_are_neither_created_nor_removed stranger_pays shop w' 99 Hrun)
      as Hiff.
    destruct (users w' !! 99) as [b|]; [|reflexivity].
    destruct (proj1 Hiff (mk_is_Some _ _ eq_refl)) as [b' Hb']. vm_compute in Hb'.
    discriminate Hb'.
  - vm_compute in Hrun. injection Hrun as <-. reflexivity.
Defined.

(** X3. The set of processed hashes only grows along a schedule; no
    callback and not even [stop] takes a hash out of it. *)
Theorem processed_hashes_are_kept (evs : list (Z * action)) (w w' : world) :
  run evs w = Some w' -> processedMd5 w ⊆ processedMd5 w'.
Proof.
  revert w. induction evs as [|[now a] evs IH]; intros w Hrun; simpl in Hrun.
  - injection Hrun as <-. reflexivity.
  - destruct (step now a w) as [w1|] eqn:Hstep; [|discriminate]. simpl in Hrun.
    transitivity (processedMd5 w1); [|apply IH; exact Hrun].
    exact (proj2 (proj2 (step_store _ _ _ _ Hstep))).
Qed.

Lemma processed_hashes_are_kept_witness :
  exists w' w'',
    run paid_at_third_tick shop = Some w' /\ run [ (4000, Stop) ] w' = Some w'' /\
    "H1" ∈ processedMd5 w''.
Proof.
  destruct (run paid_at_third_tick shop) as [w'|] eqn:Hrun;
    [|vm_compute in Hrun; discriminate].
  destruct (run [ (4000, Stop) ] w') as [w''|] eqn:Hstop.
  - exists w', w''. split; [reflexivity|]. split; [exact Hstop|].
    apply (processed_hashes_are_kept [ (4000, Stop) ] w' w'' Hstop).
    vm_compute in Hrun. injection Hrun as <-.
    apply (bool_decide_unpack _). vm_compute. exact I.
  - exfalso. vm_compute in Hrun. injection Hrun as <-. vm_compute in Hstop. discriminate.
Defined.

(** ** The limits of a top-up *)

Lemma js_lt_Fin (p q : Q) : js_lt (Fin p) (Fin q) = false <-> (q <= p)%Q.
Proof.
  unfold js_lt. simpl. rewrite Qle_alt, <- Qgt_alt, Qlt_alt.
  destruct (p ?= q)%Q; split; intros; congruence.
Qed.

Lemma js_gt_Fin (p q : Q) : js_gt (Fin p) (Fin q) = false <-> (p <= q)%Q.
Proof.
  unfold js_gt. simpl. rewrite Qle_alt.
  destruct (p ?= q)%Q; split; intros; congruence.
Qed.

Lemma passes_first_test_Fin (q : Q) :
  negb (js_truthy (Fin q)) || js_isNaN (Fin q) || js_le (Fin q) (Fin 0) = false
  <-> (0 < q)%Q.
Proof.
  split.
  - intros H. destruct (passes_first_test _ H) as [Hp|Hp]; [exact Hp|discriminate].
  - intros H. simpl. unfold js_le. simpl.
    assert (Hc : (q ?= 0)%Q = Gt) by (apply Qgt_alt; exact H).
    rewrite Hc. destruct (Qeq_bool q 0) eqn:He; [exfalso|reflexivity].
    apply Qeq_bool_iff in He. rewrite He in H. now apply Qlt_irrefl in H.
Qed.

Lemma generateQR_requests_iff
    (chatId userId : Z) (amount : jsnum) (tid : string) (w : world) (lo hi : Q) :
  minTopupAmount (loadSettings w) = Fin lo ->
  maxTopupAmount (loadSettings w) = Fin hi ->
  (snd (generateQR chatId userId amount tid w) = Some (GenCreate chatId amount tid)
   <-> exists q, amount = Fin q /\ (0 < q)%Q /\ (lo <= q)%Q /\ (q <= hi)%Q).
Proof.
  intros Hlo Hhi. unfold generateQR. rewrite Hlo, Hhi.
  destruct (negb (js_truthy amount) || js_isNaN amount || js_le amount (Fin 0)) eqn:H1.
  { split; [discriminate|].
    intros (q & -> & Hq & _). apply passes_first_test_Fin in Hq. congruence. }
  destruct (js_lt amount (Fin lo)) eqn:H2.
  { split; [discriminate|].
    intros (q & -> & _ & Hq & _). apply js_lt_Fin in Hq. congruence. }
  destruct (js_gt amount (Fin hi)) eqn:H3.
  { split; [discriminate|].
    intros (q & -> & _ & _ & Hq). apply js_gt_Fin in Hq. congruence. }
  split; [intros _|reflexivity].
  destruct (passes_first_test amount H1) as [Hp| ->]; [|discriminate].
  destruct amount as [| |q]; try contradiction.
  exists q. split; [reflexivity|]. split; [exact Hp|].
  split; [apply js_lt_Fin; exact H2|apply js_gt_Fin; exact H3].
Qed.

(** X4. With finite limits loaded, [generateQR] asks the gateway for a
    QR code exactly for the finite amounts that are positive and lie
    between the minimum and the maximum, both limits included; it then
    makes that one request and sends no message. *)
Theorem amount_within_limits_is_requested
    (chatId userId : Z) (amount : jsnum) (tid : string) (w : world) (lo hi : Q) :
  minTopupAmount (loadSettings w) = Fin lo ->
  maxTopupAmount (loadSettings w) = Fin hi ->
  let s := generateQR chatId userId amount tid w in
  (snd s = Some (GenCreate chatId amount tid)
   <-> exists q, amount = Fin q /\ (0 < q)%Q /\ (lo <= q)%Q /\ (q <= hi)%Q) /\
  (snd s = Some (GenCreate chatId amount tid) ->
   fst s = request (GwCreate amount) (loadSettings w) /\
   gateway (fst s) = GwCreate amount :: gateway w /\ outbox (fst s) = outbox w).
Proof.
  intros Hlo Hhi s. subst s.
  split; [apply generateQR_requests_iff; assumption|].
  unfold generateQR.
  repeat match goal with |- context [if ?b then _ else _] => destruct b end;
    try discriminate.
  intros _. repeat split.
Qed.

Lemma amount_within_limits_is_requested_witness :
  let s := generateQR 7 7 (Fin 1000) "rnd" shop in
  snd s = Some (GenCreate 7 (Fin 1000) "rnd") /\
  gateway (fst s) = [GwCreate (Fin 1000)] /\ outbox (fst s) = [].
Proof.
  destruct (amount_within_limits_is_requested 7 7 (Fin 1000) "rnd" shop (1 # 100) 1000
              eq_refl eq_refl) as [Hiff Hreq].
  assert (Hs : snd (generateQR 7 7 (Fin 1000) "rnd" shop)
               = Some (GenCreate 7 (Fin 1000) "rnd")).
  { apply Hiff. exists 1000%Q. repeat split; discriminate. }
  destruct (Hreq Hs) as (_ & Hg & Ho).
  intros s. split; [exact Hs|]. split; [exact Hg|exact Ho].
Defined.

(** ** Stopping and clearing *)

(** X5. [clearUserPaymentChecker] discards the owner's request, forgets
    the interval registered for the owner and clears that interval; it
    leaves every other owner's request and registration, every other
    interval, all expiry timers and the ledger as they are. *)
Theorem clearUserPaymentChecker_clears_one_owner (u v : Z) (h : nat) (w : world) :
  let w' := clearUserPaymentChecker u w in
  getTransaction u w' = None /\
  activeIntervals w' !! u = None /\
  (activeIntervals w !! u = Some h -> live w' !! h = None) /\
  (activeIntervals w !! u <> Some h -> live w' !! h = live w !! h) /\
  (v <> u -> getTransaction v w' = getTransaction v w /\
             activeIntervals w' !! v = activeIntervals w !! v) /\
  timeouts w' = timeouts w /\ transactions w' = transactions w /\
  pending w' = pending w.
Proof.
  unfold clearUserPaymentChecker, getTransaction.
  destruct (activeIntervals w !! u) as [h'|] eqn:Hu; simpl.
  - split; [apply lookup_delete_eq|]. split; [apply lookup_delete_eq|].
    split; [intros [= ->]; apply lookup_delete_eq|].
    split; [intros Hne; apply lookup_delete_ne; congruence|].
    split; [|auto].
    intros Hvu. split; apply lookup_delete_ne; congruence.
  - split; [apply lookup_delete_eq|]. split; [exact Hu|].
    split; [discriminate|]. split; [reflexivity|]. split; [|auto].
    intros Hvu. split; [apply lookup_delete_ne; congruence|reflexivity].
Qed.

(** X6. After [stop] no request is registered and no interval is
    registered for an owner; every interval that was registered is
    cleared and the cleanup service no longer runs. The expiry timers,
    the suspended callbacks, the processed hashes and the ledger are as
    before. *)
Theorem stop_clears_what_is_registered (u : Z) (h : nat) (now : Z) (w : world) :
  getTransaction u (stop w) = None /\
  activeIntervals (stop w) !! u = None /\
  getActiveTransactionsCount (stop w) = 0%nat /\
  (activeIntervals w !! u = Some h -> live (stop w) !! h = None) /\
  step now CleanupFires (stop w) = None /\
  timeouts (stop w) = timeouts w /\ pending (stop w) = pending w /\
  processedMd5 (stop w) = processedMd5 w /\ transactions (stop w) = transactions w.
Proof.
  unfold getTransaction, getActiveTransactionsCount. simpl.
  split; [apply lookup_empty|]. split; [apply lookup_empty|].
  split; [apply map_size_empty|].
  split.
  - intros Hu. apply map_lookup_filter_None. right. intros due _ Hnot. simpl in Hnot.
    apply Hnot. apply elem_of_map_img. exists u. exact Hu.
  - split; [|auto]. unfold step. simpl. destruct (now <? clock w); reflexivity.
Qed.



(** ** The expiry timer, the cleanup service, a tick *)

(** X8. When the expiry timer fires for an owner with a registered
    request, its callback asks for the QR message to be deleted, discards
    the request and sends the expiry notice, whether the deletion and the
    notice succeed or fail. It writes nothing to the ledger or the
    balances (the ledger row stays as it is) and clears no interval. *)
Theorem expiry_timer_discards_and_notifies
    (u : Z) (t : Request.t) (rs : list (Z * reply)) (w w' : world) :
  getTransaction u w = Some t ->
  finish rs (timeout u w) = Some w' ->
  getTransaction u w' = None /\
  outbox w' = SendMessage u MsgExpired :: DeleteMessage u (Request.message_id t) :: outbox w /\
  transactions w' = transactions w /\ users w' = users w /\
  live w' = live w /\ activeIntervals w' = activeIntervals w /\
  processedMd5 w' = processedMd5 w.
Proof.
  unfold getTransaction, timeout. intros Ht Hfin. rewrite Ht in Hfin.
  destruct (finish_suspended _ _ _ _ Hfin eq_refl) as (t1 & r1 & rs1 & s1 & -> & Hs1 & Hfin1).
  assert (Hs1' : s1 = await (TimeoutNotify u)
                        (bot (SendMessage u MsgExpired)
                           (with_paymentCheckers (delete u)
                              (with_clock (fun _ => t1)
                                 (bot (DeleteMessage u (Request.message_id t)) w))))).
  { destruct r1; simpl in Hs1; try discriminate; injection Hs1 as <-; reflexivity. }
  subst s1.
  destruct (finish_suspended _ _ _ _ Hfin1 eq_refl) as (t2 & r2 & rs2 & s2 & -> & Hs2 & Hfin2).
  assert (Hs2' : s2 = done (with_clock (fun _ => t2)
                        (bot (SendMessage u MsgExpired)
                           (with_paymentCheckers (delete u)
                              (with_clock (fun _ => t1)
                                 (bot (DeleteMessage u (Request.message_id t)) w)))))).
  { destruct r2; simpl in Hs2; try discriminate; injection Hs2 as <-; reflexivity. }
  subst s2. rewrite (finish_returned _ _ _ Hfin2 eq_refl). simpl.
  split; [apply lookup_delete_eq|]. repeat split.
Qed.

Lemma expiry_timer_discards_and_notifies_witness :
  exists w',
    finish [ (600040, Rejected); (600050, Rejected) ] (timeout 7 polling) = Some w' /\
    getTransaction 7 w' = None /\
    outbox w' = [ SendMessage 7 MsgExpired; DeleteMessage 7 77 ] /\
    map Row.status (transactions w') = [Pending].
Proof.
  destruct (finish [ (600040, Rejected); (600050, Rejected) ] (timeout 7 polling))
    as [w'|] eqn:Hfin; [|vm_compute in Hfin; discriminate].
  exists w'. split; [reflexivity|].
  destruct (expiry_timer_discards_and_notifies 7
              (Request.Make "H1" "rnd" 77 8 (Fin 5) false)
              [ (600040, Rejected); (600050, Rejected) ] polling w' eq_refl Hfin)
    as (Hg & Ho & Ht & _).
  split; [exact Hg|]. split; [exact Ho|]. rewrite Ht. reflexivity.
Defined.

(** X9. A run of the cleanup service discards exactly the requests that
    are more than ten minutes old: a request is still registered
    afterwards if and only if its age is at most 600000 ms. The service
    clears no interval and no expiry timer, sends nothing and writes
    nothing. *)
Theorem cleanup_discards_only_old_requests (now : Z) (u : Z) (w w' : world) :
  step now CleanupFires w = Some w' ->
  getTransaction u w' =
    (t ← getTransaction u w;
     if now - Request.timestamp t >? 600000 then None else Some t) /\
  live w' = live w /\ timeouts w' = timeouts w /\
  activeIntervals w' = activeIntervals w /\ pending w' = pending w /\
  silent w w'.
Proof.
  unfold step, getTransaction. intros Hstep.
  destruct (now <? clock w); [discriminate|]. simpl in Hstep.
  destruct (cleanupInterval w); [|discriminate]. injection Hstep as <-. simpl.
  split; [|repeat split].
  rewrite map_lookup_filter. destruct (paymentCheckers w !! u) as [t|]; [|reflexivity].
  simpl. unfold expiredTime.
  destruct (now - Request.timestamp t >? 600000) eqn:Hage.
  - apply Z.gtb_gt in Hage.
    rewrite option_guard_False by (intros Hn; apply Hn; simpl; lia). reflexivity.
  - rewrite Z.gtb_ltb in Hage. apply Z.ltb_ge in Hage.
    rewrite option_guard_True; [reflexivity|]. simpl. lia.
Qed.

Lemma cleanup_discards_only_old_requests_witness :
  exists w1 w2,
    step 600008 CleanupFires polling = Some w1 /\
    step 600009 CleanupFires polling = Some w2 /\
    (Request.timestamp <$> getTransaction 7 w1) = Some 8 /\
    getTransaction 7 w2 = None.
Proof.
  destruct (step 600008 CleanupFires polling) as [w1|] eqn:H1;
    [|vm_compute in H1; discriminate].
  destruct (step 600009 CleanupFires polling) as [w2|] eqn:H2;
    [|vm_compute in H2; discriminate].
  exists w1, w2. split; [reflexivity|]. split; [reflexivity|].
  rewrite (proj1 (cleanup_discards_only_old_requests 600008 7 polling w1 H1)).
  rewrite (proj1 (cleanup_discards_only_old_requests 600009 7 polling w2 H2)).
  split; reflexivity.
Defined.

(** X10. A tick of a poll loop asks the gateway about its hash exactly
    when its owner still has a registered request and the hash is not
    processed: then it makes that one check and stays due a second
    later. Otherwise it asks nothing, clears its interval and forgets the
    owner's registered interval. In both cases it sends nothing and
    writes nothing. *)
Theorem tick_polls_only_open_requests (now : Z) (h : nat) (l : Loop.t) (w w' : world) :
  loops w !! h = Some l ->
  step now (IntervalFires h) w = Some w' ->
  outbox w' = outbox w /\ transactions w' = transactions w /\ users w' = users w /\
  (is_Some (getTransaction (Loop.userId l) w) -> Loop.md5 l ∉ processedMd5 w ->
   gateway w' = GwCheck (Loop.md5 l) :: gateway w /\
   pending w' = (pending w ++ [TickCheck h])%list /\
   live w' !! h = Some (now + 1000)) /\
  (getTransaction (Loop.userId l) w = None \/ Loop.md5 l ∈ processedMd5 w ->
   gateway w' = gateway w /\ pending w' = pending w /\
   live w' !! h = None /\ activeIntervals w' !! Loop.userId l = None).
Proof.
  unfold step, getTransaction. intros Hl Hstep.
  destruct (now <? clock w); [discriminate|]. simpl in Hstep.
  destruct (live w !! h) as [due|]; [|discriminate]. simpl in Hstep.
  rewrite Hl in Hstep. simpl in Hstep.
  destruct (due <=? now); [|discriminate]. injection Hstep as <-.
  unfold tick. simpl.
  destruct (paymentCheckers w !! Loop.userId l) as [t|] eqn:Ht; simpl.
  - destruct (bool_decide (Loop.md5 l ∈ processedMd5 w)) eqn:Hp; simpl.
    + apply bool_decide_eq_true in Hp.
      split; [reflexivity|]. split; [reflexivity|]. split; [reflexivity|].
      split; [intros _ Hn; contradiction|]. intros _.
      split; [reflexivity|]. split; [reflexivity|].
      split; apply lookup_delete_eq.
    + apply bool_decide_eq_false in Hp.
      split; [reflexivity|]. split; [reflexivity|]. split; [reflexivity|].
      split.
      * intros _ _. split; [reflexivity|]. split; [reflexivity|]. apply lookup_insert_eq.
      * intros [Hn|Hn]; [discriminate|contradiction].
  - split; [reflexivity|]. split; [reflexivity|]. split; [reflexivity|].
    split; [intros [? Hn]; discriminate|]. intros _.
    split; [reflexivity|]. split; [reflexivity|].
    split; apply lookup_delete_eq.
Qed.

Lemma tick_polls_only_open_requests_witness :
  exists w w',
    run polling_for_a_minute shop = Some w /\
    step 60028 (IntervalFires 0%nat) w = Some w' /\
    head (gateway w') = Some (GwCheck "H1") /\ live w' !! 0%nat = Some 61028.
Proof.
  destruct (run polling_for_a_minute shop) as [w|] eqn:Hrun;
    [|vm_compute in Hrun; discriminate].
  assert (Hw : loops w !! 0%nat = Some (Loop.Make 7 "H1" (Fin 5) 59) /\
               is_Some (getTransaction 7 w) /\ "H1" ∉ processedMd5 w).
  { vm_compute in Hrun. injection Hrun as <-.
    split; [reflexivity|]. split; [eexists; reflexivity|].
    simpl. apply not_elem_of_empty. }
  destruct Hw as (Hl & Ht & Hp).
  destruct (step 60028 (IntervalFires 0%nat) w) as [w'|] eqn:Hstep;
    [|vm_compute in Hrun; injection Hrun as <-; vm_compute in Hstep; discriminate].
  exists w, w'. split; [reflexivity|]. split; [exact Hstep|].
  destruct (tick_polls_only_open_requests 60028 0 _ w w' Hl Hstep)
    as (_ & _ & _ & Hopen & _).
  destruct (Hopen Ht Hp) as (Hg & _ & Hlive).
  rewrite Hg. split; [reflexivity|exact Hlive].
Defined.

(** ** Balances only go up *)

Lemma at_least_add (b : Q) (x a : jsnum) :
  at_least b x -> creditable a -> at_least b (js_add x a).
Proof.
  unfold creditable, js_gt.
  destruct x as [|[|]|q]; simpl; try contradiction;
    destruct a as [|[|]|p]; simpl; try discriminate; auto.
  intros Hb Hp. destruct (p ?= 0)%Q eqn:Hc; try discriminate.
  apply Qgt_alt in Hc. apply Qle_trans with (1 := Hb).
  rewrite <- (Qplus_0_r q) at 1. apply Qplus_le_r. now apply Qlt_le_weak.
Qed.

Lemma passes_first_test_above_zero (amount : jsnum) :
  negb (js_truthy amount) || js_isNaN amount || js_le amount (Fin 0) = false ->
  creditable amount.
Proof.
  intros H. destruct (passes_first_test amount H) as [Hp| ->]; [|reflexivity].
  destruct amount as [| |q]; try contradiction.
  unfold creditable, js_gt. simpl. apply Qgt_alt in Hp. now rewrite Hp.
Qed.

(** The credit of line 346 adds the amount of the loop that settles. *)
Lemma resume_credit (f : frame) (r : reply) (w : world) (s : segment) :
  resume f r w = Some s ->
  users (fst s) = users w \/
  exists h l, loops w !! h = Some l /\
    users (fst s) = alter (fun b => js_add b (Loop.amount l)) (Loop.userId l) (users w).
Proof.
  intros Hr.
  destruct f; destruct r; simpl in Hr; try discriminate;
    segments; branches Hr; try discriminate; injection Hr as <-.
  all: unfold clearUserPaymentChecker; simpl.
  all: repeat match goal with
              | |- context [activeIntervals ?w !! ?k] => destruct (activeIntervals w !! k)
              end; simpl.
  all: first [ left; reflexivity
             | right; eexists _, _; split; [eassumption|reflexivity] ].
Qed.

(** A segment hands amounts above zero on: to the loop it starts and to
    the frame it suspends at. *)
Lemma resume_amounts (f : frame) (r : reply) (w : world) (s : segment) :
  resume f r w = Some s ->
  (forall a, frame_amount f = Some a -> creditable a) ->
  (forall h l, loops w !! h = Some l -> creditable (Loop.amount l)) ->
  (forall h l, loops (fst s) !! h = Some l -> creditable (Loop.amount l)) /\
  (forall fo a, snd s = Some fo -> frame_amount fo = Some a -> creditable a).
Proof.
  intros Hr Hf Hw.
  destruct f; destruct r; simpl in Hr; try discriminate;
    segments; branches Hr; try discriminate; injection Hr as <-.
  all: unfold clearUserPaymentChecker; simpl.
  all: repeat match goal with
              | |- context [activeIntervals ?w !! ?k] => destruct (activeIntervals w !! k)
              end; simpl.
  all: split;
    [ intros h' l' Hl'; simpl in Hl';
      first [ exact (Hw _ _ Hl')
            | rewrite lookup_alter in Hl'; case_decide;
              [ subst; apply fmap_Some in Hl'; destruct Hl' as (l0 & Hl0 & ->);
                exact (Hw _ _ Hl0)
              | exact (Hw _ _ Hl') ]
            | rewrite lookup_insert in Hl'; case_decide;
              [ injection Hl' as <-; simpl; apply Hf; reflexivity
              | exact (Hw _ _ Hl') ] ]
    | intros fo a Hfo Ha; simpl in Hfo;
      first [ discriminate Hfo
            | injection Hfo as <-; simpl in Ha;
              first [ discriminate Ha | injection Ha as <-; apply Hf; reflexivity ] ] ].
Qed.

Lemma step_amounts (now : Z) (a : action) (w w' : world) :
  amounts_positive w -> step now a w = Some w' -> amounts_positive w'.
Proof.
  intros [Hw Hp] Hstep. unfold step in Hstep.
  destruct (now <? clock w); [discriminate|].
  destruct a as [chatId userId amount tid|h|t| | |i r]; simpl in Hstep.
  - injection Hstep as <-. unfold generateQR.
    destruct (negb (js_truthy amount) || js_isNaN amount || js_le amount (Fin 0)) eqn:H1;
      [|repeat match goal with |- context [if ?b then _ else _] => destruct b end];
      (split; [exact Hw|]); simpl; apply Forall_app; (split; [exact Hp|]);
      constructor; try constructor; try discriminate.
    intros a [= <-]. now apply passes_first_test_above_zero.
  - destruct (live w !! h) as [due|]; [|discriminate]. simpl in Hstep.
    destruct (loops w !! h) as [l|]; [|discriminate]. simpl in Hstep.
    destruct (due <=? now); [|discriminate]. injection Hstep as <-.
    unfold tick; simpl. destruct (paymentCheckers w !! Loop.userId l); simpl;
      try destruct (bool_decide _); (split; [exact Hw|]); simpl; try exact Hp.
    apply Forall_app. split; [exact Hp|]. constructor; [discriminate|constructor].
  - destruct (timeouts w !! t) as [c|]; [|discriminate]. simpl in Hstep.
    destruct (snd c <=? now); [|discriminate]. injection Hstep as <-.
    unfold timeout; simpl. destruct (paymentCheckers w !! fst c); simpl;
      (split; [exact Hw|]); simpl; try exact Hp.
    apply Forall_app. split; [exact Hp|]. constructor; [discriminate|constructor].
  - destruct (cleanupInterval w); [|discriminate]. injection Hstep as <-.
    split; [exact Hw|exact Hp].
  - injection Hstep as <-. split; [exact Hw|exact Hp].
  - destruct (pending w !! i) as [f|] eqn:Hi; [|discriminate]. simpl in Hstep.
    destruct (resume f r _) as [s|] eqn:Hr; [|discriminate]. injection Hstep as <-.
    assert (Hf : forall a, frame_amount f = Some a -> creditable a).
    { apply (proj1 (Forall_lookup _ _) Hp i f Hi). }
    destruct (resume_amounts _ _ _ _ Hr Hf Hw) as [Hw' Hfo].
    destruct (resume_guarded _ _ _ _ Hr) as (Hpend & _).
    destruct (suspend_fields s) as (Hl' & _ & _).
    split.
    + rewrite Hl'. exact Hw'.
    + rewrite suspend_pending, Hpend. simpl. apply Forall_app. split.
      * apply Forall_delete. exact Hp.
      * destruct (snd s) as [fo|]; constructor; [|constructor].
        intros a. apply Hfo. reflexivity.
Qed.

Lemma step_balance (now : Z) (a : action) (w w' : world) (u : Z) (b : Q) :
  amounts_positive w -> step now a w = Some w' ->
  (exists x, users w !! u = Some x /\ at_least b x) ->
  exists x, users w' !! u = Some x /\ at_least b x.
Proof.
  intros [Hw Hp] Hstep (x & Hx & Hb).
  destruct a as [chatId userId amount tid|h|t| | |i r].
  6: { unfold step in Hstep. destruct (now <? clock w); [discriminate|].
       simpl in Hstep.
       destruct (pending w !! i) as [f|]; [|discriminate]. simpl in Hstep.
       destruct (resume f r _) as [s|] eqn:Hr; [|discriminate]. injection Hstep as <-.
       destruct (suspend_store s) as [_ ->].
       destruct (resume_credit _ _ _ _ Hr) as [->|(h & l & Hl & ->)].
       - exists x. split; [exact Hx|exact Hb].
       - simpl. rewrite lookup_alter. case_decide; [subst|eauto].
         rewrite Hx. simpl. eexists. split; [reflexivity|].
         apply at_least_add; [exact Hb|]. exact (Hw _ _ Hl). }
  all: destruct (step_store _ _ _ _ Hstep) as (_ & Hu & _).
  all: assert (Hsame : users w' = users w);
    [|rewrite Hsame; exists x; split; [exact Hx|exact Hb]].
  all: clear Hu; unfold step in Hstep; destruct (now <? clock w); [discriminate|];
    simpl in Hstep.
  - injection Hstep as <-.
    rewrite (proj2 (suspend_store _)). unfold generateQR.
    repeat match goal with |- context [if ?b then _ else _] => destruct b end; reflexivity.
  - destruct (live w !! h) as [due|]; [|discriminate]. simpl in Hstep.
    destruct (loops w !! h) as [l|]; [|discriminate]. simpl in Hstep.
    destruct (due <=? now); [|discriminate]. injection Hstep as <-.
    rewrite (proj2 (suspend_store _)). unfold tick; simpl.
    destruct (paymentCheckers w !! Loop.userId l); simpl;
      try destruct (bool_decide _); reflexivity.
  - destruct (timeouts w !! t) as [c|]; [|discriminate]. simpl in Hstep.
    destruct (snd c <=? now); [|discriminate]. injection Hstep as <-.
    rewrite (proj2 (suspend_store _)). unfold timeout; simpl.
    destruct (paymentCheckers w !! fst c); reflexivity.
  - destruct (cleanupInterval w); [|discriminate]. injection Hstep as <-. reflexivity.
  - injection Hstep as <-. reflexivity.
Qed.

(** X11. The controller only ever adds to a balance: along any schedule
    of a freshly constructed controller, an owner whose balance was the
    finite number [b] has a balance of at least [b] afterwards (a finite
    number not below [b], or [+Infinity] once an infinite amount was
    credited); it is never lowered, removed or turned into [NaN]. *)
Theorem balances_never_decrease
    (evs : list (Z * action)) (cfg : jsnum * jsnum) (balances : gmap Z jsnum)
    (rows : list Row.t) (u : Z) (b : Q) (w' : world) :
  balances !! u = Some (Fin b) ->
  run evs (boot cfg balances rows) = Some w' ->
  exists x, users w' !! u = Some x /\ at_least b x.
Proof.
  intros Hb Hrun.
  assert (Hgen : forall evs w, amounts_positive w ->
            (exists x, users w !! u = Some x /\ at_least b x) ->
            run evs w = Some w' -> exists x, users w' !! u = Some x /\ at_least b x).
  { clear. induction evs as [|[now a] evs IH]; intros w Hw Hx Hrun; simpl in Hrun.
    - injection Hrun as <-. exact Hx.
    - destruct (step now a w) as [w1|] eqn:Hstep; [|discriminate]. simpl in Hrun.
      apply (IH w1); [eapply step_amounts; eassumption| |exact Hrun].
      eapply step_balance; eassumption. }
  apply (Hgen evs (boot cfg balances rows)); [| |exact Hrun].
  - split; simpl.
    + intros h l Hl. rewrite lookup_empty in Hl. discriminate.
    + constructor.
  - exists (Fin b). split; [exact Hb|]. simpl. apply Qle_refl.
Qed.

Lemma balances_never_decrease_witness :
  exists w' x, run paid_at_third_tick shop = Some w' /\
    users w' !! 42 = Some x /\ at_least 0 x /\ x = Fin 10.
Proof.
  destruct (run paid_at_third_tick shop) as [w'|] eqn:Hrun;
    [|vm_compute in Hrun; discriminate].
  assert (Hb0 : (<[ 7 := Fin 3 ]> {[ 42 := Fin 0 ]} : gmap Z jsnum) !! 42 = Some (Fin 0))
    by reflexivity.
  destruct (balances_never_decrease paid_at_third_tick (NaN, NaN)
              (<[ 7 := Fin 3 ]> {[ 42 := Fin 0 ]}) [] 42 0 w' Hb0 Hrun)
    as (x & Hx & Hb).
  exists w', x. split; [reflexivity|]. split; [exact Hx|]. split; [exact Hb|].
  vm_compute in Hrun. injection Hrun as <-. vm_compute in Hx. congruence.
Defined.

(** ** A processed hash is left alone *)

Lemma resume_checks (H : string) (f : frame) (r : reply) (w : world) (s : segment) :
  resume f r w = Some s -> checks H (fst s) = checks H w.
Proof.
  intros Hr.
  destruct f; destruct r; simpl in Hr; try discriminate;
    segments; branches Hr; try discriminate; injection Hr as <-.
  all: unfold clearUserPaymentChecker; simpl.
  all: repeat match goal with
              | |- context [activeIntervals ?w !! ?k] => destruct (activeIntervals w !! k)
              end; simpl.
  all: reflexivity.
Qed.

Lemma step_checks (H : string) (now : Z) (a : action) (w w' : world) :
  H ∈ processedMd5 w -> step now a w = Some w' -> checks H w' = checks H w.
Proof.
  intros Hin Hstep. unfold step in Hstep.
  destruct (now <? clock w); [discriminate|].
  assert (Hsus : forall s, checks H (suspend s) = checks H (fst s))
    by (intros s; unfold suspend; destruct (snd s); reflexivity).
  destruct a as [chatId userId amount tid|h|t| | |i r]; simpl in Hstep.
  - injection Hstep as <-. rewrite Hsus. unfold generateQR.
    repeat match goal with |- context [if ?b then _ else _] => destruct b end; reflexivity.
  - destruct (live w !! h) as [due|]; [|discriminate]. simpl in Hstep.
    destruct (loops w !! h) as [l|]; [|discriminate]. simpl in Hstep.
    destruct (due <=? now); [|discriminate]. injection Hstep as <-.
    rewrite Hsus. unfold tick; simpl.
    destruct (paymentCheckers w !! Loop.userId l); [|reflexivity].
    destruct (bool_decide (Loop.md5 l ∈ processedMd5 w)) eqn:Hp; [reflexivity|].
    apply bool_decide_eq_false in Hp. unfold checks. simpl.
    destruct (String.eqb (Loop.md5 l) H) eqn:He; [|reflexivity].
    apply String.eqb_eq in He. congruence.
  - destruct (timeouts w !! t) as [c|]; [|discriminate]. simpl in Hstep.
    destruct (snd c <=? now); [|discriminate]. injection Hstep as <-.
    rewrite Hsus. unfold timeout; simpl.
    destruct (paymentCheckers w !! fst c); reflexivity.
  - destruct (cleanupInterval w); [|discriminate]. injection Hstep as <-. reflexivity.
  - injection Hstep as <-. reflexivity.
  - destruct (pending w !! i) as [f|]; [|discriminate]. simpl in Hstep.
    destruct (resume f r _) as [s|] eqn:Hr; [|discriminate]. injection Hstep as <-.
    rewrite Hsus. exact (resume_checks H _ _ _ _ Hr).
Qed.

(** X12. Once a hash is processed the gateway is never asked about it
    again: along any schedule that starts with the hash in the processed
    set, no status check of that hash is made, by whatever loop and
    for whatever owner it polls. *)
Theorem processed_hash_is_not_polled_again
    (H : string) (evs : list (Z * action)) (w w' : world) :
  H ∈ processedMd5 w -> run evs w = Some w' -> checks H w' = checks H w.
Proof.
  revert w. induction evs as [|[now a] evs IH]; intros w Hin Hrun; simpl in Hrun.
  - injection Hrun as <-. reflexivity.
  - destruct (step now a w) as [w1|] eqn:Hstep; [|discriminate]. simpl in Hrun.
    rewrite (IH w1); [exact (step_checks H _ _ _ _ Hin Hstep)| |exact Hrun].
    apply (proj2 (proj2 (step_store _ _ _ _ Hstep))). exact Hin.
Qed.

Lemma processed_hash_is_not_polled_again_witness :
  exists w w',
    run paid_at_third_tick shop = Some w /\
    run (started 42 (Fin 10) "H1" 90 5000 ++ [ (6028, IntervalFires 2%nat) ]) w = Some w' /\
    checks "H1" w' = checks "H1" w /\ length (checks "H1" w) = 3%nat /\
    live w' !! 2%nat = None.
Proof.
  destruct (run paid_at_third_tick shop) as [w|] eqn:Hrun;
    [|vm_compute in Hrun; discriminate].
  destruct (run (started 42 (Fin 10) "H1" 90 5000 ++ [ (6028, IntervalFires 2%nat) ]) w)
    as [w'|] eqn:Hrun';
    [|vm_compute in Hrun; injection Hrun as <-; vm_compute in Hrun'; discriminate].
  exists w, w'. split; [reflexivity|]. split; [exact Hrun'|].
  assert (Hin : "H1" ∈ processedMd5 w).
  { vm_compute in Hrun. injection Hrun as <-.
    apply (bool_decide_unpack _). vm_compute. exact I. }
  split; [exact (processed_hash_is_not_polled_again "H1" _ w w' Hin Hrun')|].
  vm_compute in Hrun. injection Hrun as <-.
  vm_compute in Hrun'. injection Hrun' as <-.
  split; reflexivity.
Defined.

(** ** No settlement without a paid answer *)

Lemma completed_rows_expire (md5 : string) (userId : Z) (rows : list Row.t) :
  completed_rows
    (map (fun r => if matches md5 userId r && is_pending r
                   then set_status Expired (Row.completed_date r) r else r) rows)
  = completed_rows rows.
Proof.
  unfold completed_rows. induction rows as [|r rows IH]; [reflexivity|]. simpl.
  rewrite IH. destruct (matches md5 userId r && is_pending r) eqn:Hc; [|reflexivity].
  apply andb_true_iff in Hc. destruct Hc as [_ Hp]. apply bool_decide_eq_true in Hp.
  simpl. rewrite Hp. reflexivity.
Qed.

Lemma completed_rows_insert (rows : list Row.t) (r : Row.t) :
  Row.status r = Pending -> completed_rows (rows ++ [r]) = completed_rows rows.
Proof.
  intros Hp. unfold completed_rows. rewrite List.filter_app. simpl. rewrite Hp. simpl.
  apply app_nil_r.
Qed.

(** A segment that does not start from a paid answer starts no
    settlement and completes nothing. *)
Lemma resume_quiet (f : frame) (r : reply) (w : world) (s : segment) :
  resume f r w = Some s ->
  quiet_frame f ->
  match r with Checked o => confirmed (checkPaymentStatus o) = false | _ => True end ->
  (forall fo, snd s = Some fo -> quiet_frame fo) /\
  users (fst s) = users w /\ processedMd5 (fst s) = processedMd5 w /\
  completed_rows (transactions (fst s)) = completed_rows (transactions w).
Proof.
  intros Hr [Hf Hrow] Hpaid.
  destruct f; try discriminate Hf; destruct r; simpl in Hr; try discriminate;
    segments; branches Hr; try discriminate; try congruence; injection Hr as <-.
  all: unfold clearUserPaymentChecker; simpl.
  all: repeat match goal with
              | |- context [activeIntervals ?w !! ?k] => destruct (activeIntervals w !! k)
              end; simpl.
  all: split;
    [ intros fo Hfo; simpl in Hfo;
      first [ discriminate Hfo
            | injection Hfo as <-; split; [reflexivity|simpl; try exact I; reflexivity] ]
    | split; [reflexivity|]; split; [reflexivity|];
      first [ reflexivity
            | apply completed_rows_expire
            | apply completed_rows_insert; simpl; exact Hrow ] ].
Qed.

Lemma step_quiet (now : Z) (a : action) (w w' : world) :
  none_settling w -> paid_answer a = false -> step now a w = Some w' ->
  none_settling w' /\
  users w' = users w /\ processedMd5 w' = processedMd5 w /\
  completed_rows (transactions w') = completed_rows (transactions w).
Proof.
  intros Hq Hpaid Hstep. unfold step in Hstep.
  destruct (now <? clock w); [discriminate|].
  destruct a as [chatId userId amount tid|h|t| | |i r]; simpl in Hstep.
  - injection Hstep as <-. unfold generateQR.
    repeat match goal with |- context [if ?b then _ else _] => destruct b end;
      (split; [|repeat split]); unfold none_settling; simpl;
      apply Forall_app; (split; [exact Hq|]); repeat constructor.
  - destruct (live w !! h) as [due|]; [|discriminate]. simpl in Hstep.
    destruct (loops w !! h) as [l|]; [|discriminate]. simpl in Hstep.
    destruct (due <=? now); [|discriminate]. injection Hstep as <-.
    unfold tick; simpl. destruct (paymentCheckers w !! Loop.userId l); simpl;
      try destruct (bool_decide _); (split; [|repeat split]);
      unfold none_settling; simpl; try exact Hq.
    apply Forall_app. split; [exact Hq|]. repeat constructor.
  - destruct (timeouts w !! t) as [c|]; [|discriminate]. simpl in Hstep.
    destruct (snd c <=? now); [|discriminate]. injection Hstep as <-.
    unfold timeout; simpl. destruct (paymentCheckers w !! fst c); simpl;
      (split; [|repeat split]); unfold none_settling; simpl; try exact Hq.
    apply Forall_app. split; [exact Hq|]. repeat constructor.
  - destruct (cleanupInterval w); [|discriminate]. injection Hstep as <-.
    split; [exact Hq|repeat split].
  - injection Hstep as <-. split; [exact Hq|repeat split].
  - destruct (pending w !! i) as [f|] eqn:Hi; [|discriminate]. simpl in Hstep.
    destruct (resume f r _) as [s|] eqn:Hr; [|discriminate]. injection Hstep as <-.
    assert (Hf : quiet_frame f) by apply (proj1 (Forall_lookup _ _) Hq i f Hi).
    assert (Hr' : match r with
                  | Checked o => confirmed (checkPaymentStatus o) = false
                  | _ => True
                  end) by (destruct r; try exact I; exact Hpaid).
    destruct (resume_quiet _ _ _ _ Hr Hf Hr') as (Hfo & Hu & Hp & Hc).
    destruct (resume_guarded _ _ _ _ Hr) as (Hpend & _).
    destruct (suspend_store s) as [Ht' Hu']. destruct (suspend_fields s) as (_ & _ & Hp').
    split; [|rewrite Ht', Hu', Hp'; auto].
    unfold none_settling. rewrite suspend_pending, Hpend. simpl. apply Forall_app. split.
    + apply Forall_delete. exact Hq.
    + destruct (snd s) as [fo|]; constructor; [|constructor]. apply Hfo. reflexivity.
Qed.

(** X13. Nothing is settled without a paid answer. Along any schedule
    of a freshly constructed controller in which no status check is
    answered paid (status 200 or 201 with response code 0), whatever
    else happens or fails, no balance changes, no hash becomes
    processed, and the completed rows of the ledger stay exactly those
    that were there. *)
Theorem nothing_settles_without_a_paid_answer
    (evs : list (Z * action)) (cfg : jsnum * jsnum) (balances : gmap Z jsnum)
    (rows : list Row.t) (w' : world) :
  Forall (fun e => paid_answer (snd e) = false) evs ->
  run evs (boot cfg balances rows) = Some w' ->
  users w' = balances /\ processedMd5 w' = ∅ /\
  completed_rows (transactions w') = completed_rows rows.
Proof.
  intros Hevs Hrun.
  assert (Hgen : forall evs w, Forall (fun e => paid_answer (snd e) = false) evs ->
            none_settling w -> run evs w = Some w' ->
            users w' = users w /\ processedMd5 w' = processedMd5 w /\
            completed_rows (transactions w') = completed_rows (transactions w)).
  { clear. induction evs as [|[now a] evs IH]; intros w He Hq Hrun; simpl in Hrun.
    - injection Hrun as <-. auto.
    - destruct (step now a w) as [w1|] eqn:Hstep; [|discriminate]. simpl in Hrun.
      apply Forall_cons in He. destruct He as [Ha He]. simpl in Ha.
      destruct (step_quiet _ _ _ _ Hq Ha Hstep) as (Hq1 & Hu1 & Hp1 & Hc1).
      destruct (IH w1 He Hq1 Hrun) as (Hu & Hp & Hc).
      rewrite Hu, Hp, Hc. auto. }
  apply (Hgen evs (boot cfg balances rows) Hevs); [constructor|exact Hrun].
Qed.

Lemma nothing_settles_without_a_paid_answer_witness :
  exists w', run expired_with_check_in_flight shop = Some w' /\
    users w' = users shop /\ processedMd5 w' = ∅ /\
    map Row.status (transactions w') = [Expired].
Proof.
  destruct (run expired_with_check_in_flight shop) as [w'|] eqn:Hrun;
    [|vm_compute in Hrun; discriminate].
  assert (Hevs : Forall (fun e => paid_answer (snd e) = false) expired_with_check_in_flight).
  { assert (Hall : forallb (fun e => negb (paid_answer (snd e))) expired_with_check_in_flight
                   = true) by (vm_compute; reflexivity).
    apply List.Forall_forall. intros e He. apply negb_true_iff.
    exact (proj1 (forallb_forall _ _) Hall e He). }
  destruct (nothing_settles_without_a_paid_answer expired_with_check_in_flight
              (NaN, NaN) (<[ 7 := Fin 3 ]> {[ 42 := Fin 0 ]}) [] w' Hevs Hrun)
    as (Hu & Hp & _).
  exists w'. split; [reflexivity|]. split; [exact Hu|]. split; [exact Hp|].
  vm_compute in Hrun. injection Hrun as <-. reflexivity.
Defined.

(** ** Transaction ids in the ledger *)

Lemma or_default_present (o : option string) (d : string) :
  d <> "" -> or_default o d <> "".
Proof.
  intros Hd. unfold or_default. destruct o as [s|]; [|exact Hd].
  destruct (String.eqb s "") eqn:He; [exact Hd|]. now apply String.eqb_neq in He.
Qed.

Lemma rows_identified_complete (md5 : string) (userId : Z) (d : option Z) (rows : list Row.t) :
  Forall row_identified rows ->
  Forall row_identified
    (map (fun r => if matches md5 userId r then set_status Completed d r else r) rows).
Proof.
  intros H. apply Forall_map. eapply Forall_impl; [exact H|].
  intros r Hr. simpl. destruct (matches md5 userId r); [|exact Hr].
  unfold row_identified in *. simpl. destruct (Row.transaction_id r); [exact Hr|reflexivity].
Qed.

Lemma rows_identified_expire (md5 : string) (userId : Z) (rows : list Row.t) :
  Forall row_identified rows ->
  Forall row_identified
    (map (fun r => if matches md5 userId r && is_pending r
                   then set_status Expired (Row.completed_date r) r else r) rows).
Proof.
  intros H. apply Forall_map. eapply Forall_impl; [exact H|].
  intros r Hr. simpl. destruct (matches md5 userId r && is_pending r) eqn:Hc; [|exact Hr].
  apply andb_true_iff in Hc. destruct Hc as [_ Hp]. apply bool_decide_eq_true in Hp.
  unfold row_identified in *. simpl. destruct (Row.transaction_id r); [exact Hr|].
  simpl in Hr. congruence.
Qed.

(** A segment hands the ids on as it got them. *)
Lemma resume_ids (f : frame) (r : reply) (w : world) (s : segment) :
  resume f r w = Some s ->
  frame_identified f -> Forall row_identified (transactions w) ->
  (forall fo, snd s = Some fo -> frame_identified fo) /\
  Forall row_identified (transactions (fst s)).
Proof.
  intros Hr Hf Hrows.
  destruct f; destruct r; simpl in Hr; try discriminate;
    segments; branches Hr; try discriminate; injection Hr as <-.
  all: unfold clearUserPaymentChecker; simpl.
  all: repeat match goal with
              | |- context [activeIntervals ?w !! ?k] => destruct (activeIntervals w !! k)
              end; simpl.
  all: simpl in Hf.
  all: try match goal with
           | He : String.eqb _ "" = true |- _ => apply String.eqb_eq in He; contradiction
           end.
  all: split;
    [ intros fo Hfo; simpl in Hfo;
      first [ discriminate Hfo
            | injection Hfo as <-; simpl;
              first [ exact I | exact Hf | reflexivity
                    | apply or_default_present; exact Hf
                    | destruct (String.eqb _ "") eqn:He;
                      [ apply String.eqb_eq in He; contradiction | exact Hf ] ] ]
    | first [ exact Hrows
            | apply rows_identified_complete; exact Hrows
            | apply rows_identified_expire; exact Hrows
            | apply Forall_app; split; [exact Hrows|];
              constructor; [|constructor]; unfold row_identified; simpl;
              first [ exact Hf | destruct (Row.transaction_id _); [exact Hf|contradiction] ] ] ].
Qed.

Lemma step_ids (now : Z) (a : action) (w w' : world) :
  match a with Call _ _ _ tid => tid <> "" | _ => True end ->
  ids_present w -> step now a w = Some w' -> ids_present w'.
Proof.
  intros Ha [Hp Hrows] Hstep. unfold step in Hstep.
  destruct (now <? clock w); [discriminate|].
  destruct a as [chatId userId amount tid|h|t| | |i r]; simpl in Hstep.
  - injection Hstep as <-. unfold generateQR.
    repeat match goal with |- context [if ?b then _ else _] => destruct b end;
      (split; [|exact Hrows]); simpl; apply Forall_app; (split; [exact Hp|]);
      constructor; try constructor; try exact I. exact Ha.
  - destruct (live w !! h) as [due|]; [|discriminate]. simpl in Hstep.
    destruct (loops w !! h) as [l|]; [|discriminate]. simpl in Hstep.
    destruct (due <=? now); [|discriminate]. injection Hstep as <-.
    unfold tick; simpl. destruct (paymentCheckers w !! Loop.userId l); simpl;
      try destruct (bool_decide _); (split; [|exact Hrows]); simpl; try exact Hp.
    apply Forall_app. split; [exact Hp|]. constructor; [exact I|constructor].
  - destruct (timeouts w !! t) as [c|]; [|discriminate]. simpl in Hstep.
    destruct (snd c <=? now); [|discriminate]. injection Hstep as <-.
    unfold timeout; simpl. destruct (paymentCheckers w !! fst c); simpl;
      (split; [|exact Hrows]); simpl; try exact Hp.
    apply Forall_app. split; [exact Hp|]. constructor; [exact I|constructor].
  - destruct (cleanupInterval w); [|discriminate]. injection Hstep as <-.
    split; [exact Hp|exact Hrows].
  - injection Hstep as <-. split; [exact Hp|exact Hrows].
  - destruct (pending w !! i) as [f|] eqn:Hi; [|discriminate]. simpl in Hstep.
    destruct (resume f r _) as [s|] eqn:Hr; [|discriminate]. injection Hstep as <-.
    assert (Hf : frame_identified f) by apply (proj1 (Forall_lookup _ _) Hp i f Hi).
    destruct (resume_ids _ _ _ _ Hr Hf Hrows) as [Hfo Hrows'].
    destruct (resume_guarded _ _ _ _ Hr) as (Hpend & _).
    split.
    + rewrite suspend_pending, Hpend. simpl. apply Forall_app. split.
      * apply Forall_delete. exact Hp.
      * destruct (snd s) as [fo|]; constructor; [|constructor]. apply Hfo. reflexivity.
    + rewrite (proj1 (suspend_store s)). exact Hrows'.
Qed.

(** X14. Every ledger row the controller writes carries a transaction
    id. As long as every call passes an id that is not empty (as
    [generateRandomString(12)] gives), each row of the ledger of a
    freshly constructed controller, whose rows were so before, has the
    gateway's id or that random id, not empty, or else is a completed
    row with the id [topup_<time>_<owner>] that the settlement inserts;
    the fallback to that form for a pending row (line 264) is never
    taken. *)
Theorem ledger_rows_carry_an_id
    (evs : list (Z * action)) (cfg : jsnum * jsnum) (balances : gmap Z jsnum)
    (rows : list Row.t) (w' : world) :
  calls_identified evs ->
  Forall row_identified rows ->
  run evs (boot cfg balances rows) = Some w' ->
  Forall row_identified (transactions w').
Proof.
  intros Hcalls Hrows Hrun.
  assert (Hgen : forall evs w, calls_identified evs -> ids_present w ->
            run evs w = Some w' -> ids_present w').
  { clear. induction evs as [|[now a] evs IH]; intros w Hc Hw Hrun; simpl in Hrun.
    - injection Hrun as <-. exact Hw.
    - destruct (step now a w) as [w1|] eqn:Hstep; [|discriminate]. simpl in Hrun.
      apply Forall_cons in Hc. destruct Hc as [Ha Hc].
      apply (IH w1); [exact Hc| |exact Hrun].
      eapply step_ids; [exact Ha|exact Hw|exact Hstep]. }
  apply (Hgen evs (boot cfg balances rows)); [exact Hcalls| |exact Hrun].
  split; [constructor|exact Hrows].
Qed.

Lemma ledger_rows_carry_an_id_witness :
  exists w', run settled_without_pending_row shop = Some w' /\
    Forall row_identified (transactions w') /\
    map Row.transaction_id (transactions w') = [TopupRef 3070 7].
Proof.
  destruct (run settled_without_pending_row shop) as [w'|] eqn:Hrun;
    [|vm_compute in Hrun; discriminate].
  exists w'. split; [reflexivity|].
  assert (Hcalls : calls_identified settled_without_pending_row).
  { unfold settled_without_pending_row, pending_write_lost. simpl.
    repeat constructor. discriminate. }
  split.
  - exact (ledger_rows_carry_an_id settled_without_pending_row (NaN, NaN)
             (<[ 7 := Fin 3 ]> {[ 42 := Fin 0 ]}) [] w' Hcalls (List.Forall_nil row_identified) Hrun).
  - vm_compute in Hrun. injection Hrun as <-. reflexivity.
Defined.

(** ** The QR photo and the request *)

Ltac next_reply Hfin :=
  let t := fresh "t" in
  let r := fresh "r" in
  let rs := fresh "rs" in
  let s := fresh "s" in
  let Hs := fresh "Hs" in
  let Hf := fresh "Hfin" in
  destruct (finish_suspended _ _ _ _ Hfin eq_refl) as (t & r & rs & s & -> & Hs & Hf);
  clear Hfin; destruct r; simpl in Hs; try discriminate Hs; injection Hs as <-.



(** Once it has a QR url and a hash, the call attempts a photo before
    any other message. *)
Lemma gen_result_attempts_a_photo (chatId : Z) (amount : jsnum) (url hash tid : string)
    (rs : list (Z * reply)) (w w' : world) :
  url <> "" -> hash <> "" ->
  finish rs (gen_result chatId amount (Some url) (Some hash) tid w) = Some w' ->
  exists later photo, outbox w' = (later ++ SendPhoto chatId photo amount :: outbox w)%list.
Proof.
  intros Hurl Hhash Hfin. unfold gen_result in Hfin.
  apply String.eqb_neq in Hurl, Hhash. rewrite Hurl, Hhash in Hfin. simpl in Hfin.
  assert (Ho : outbox (clearUserPaymentChecker chatId w) = outbox w).
  { unfold clearUserPaymentChecker. destruct (activeIntervals w !! chatId); reflexivity. }
  set (w0 := clearUserPaymentChecker chatId w) in *. clearbody w0.
  repeat match goal with
         | H : finish _ (await _ _) = Some _ |- _ => next_reply H
         end.
  all: unfold gen_store, gen_catch in *.
  all: repeat match goal with
         | H : finish _ (await _ _) = Some _ |- _ => next_reply H
         end.
  all: match goal with
       | H : finish _ _ = Some _ |- _ => apply finish_returned in H; [|reflexivity]
       end; subst w'; simpl; rewrite Ho.
  all: first [ eexists [], _; reflexivity
             | eexists [_], _; reflexivity
             | eexists [_; _], _; reflexivity
             | eexists [_; _; _], _; reflexivity ].
Qed.

(** X16. A top-up the controller refuses, for its amount, for the limits,
    because the gateway gave no usable QR or no hash, leaves every
    registered request, loop, timer and ledger row as it was and sends
    the owner one message, or two when the first could not be sent. A
    call that is not refused has attempted to send a QR photo for the
    amount before any other message. *)
Theorem refused_topup_keeps_the_previous_request
    (chatId userId : Z) (amount : jsnum) (tid : string)
    (rs : list (Z * reply)) (w w' : world) :
  finish rs (generateQR chatId userId amount tid w) = Some w' ->
  (paymentCheckers w' = paymentCheckers w /\ activeIntervals w' = activeIntervals w /\
   loops w' = loops w /\ live w' = live w /\ timeouts w' = timeouts w /\
   transactions w' = transactions w /\
   exists m, outbox w' = SendMessage chatId m :: outbox w \/
             outbox w' = SendMessage chatId MsgErrorOccurred :: SendMessage chatId m :: outbox w)
  \/
  (exists later photo,
     outbox w' = (later ++ SendPhoto chatId photo amount :: outbox w)%list).
Proof.
  intros Hfin.
  assert (Hrefused : forall rs m (wp : world),
            finish rs (await (GenFailed chatId) (bot (SendMessage chatId m) wp)) = Some w' \/
            finish rs (await (GenReject chatId) (bot (SendMessage chatId m) wp)) = Some w' ->
            paymentCheckers w' = paymentCheckers wp /\
            activeIntervals w' = activeIntervals wp /\
            loops w' = loops wp /\ live w' = live wp /\ timeouts w' = timeouts wp /\
            transactions w' = transactions wp /\
            (outbox w' = SendMessage chatId m :: outbox wp \/
             outbox w' = SendMessage chatId MsgErrorOccurred :: SendMessage chatId m :: outbox wp)).
  { intros rs0 m wp [Hf|Hf]; next_reply Hf; unfold gen_catch in *;
      try next_reply Hfin0;
      match goal with
      | H : finish _ _ = Some _ |- _ => apply finish_returned in H; [|reflexivity]
      end; subst w'; simpl; repeat split; auto. }
  assert (Hresult : forall rs qr md5 tid' (wp : world),
            finish rs (gen_result chatId amount qr md5 tid' wp) = Some w' ->
            (paymentCheckers w' = paymentCheckers wp /\
             activeIntervals w' = activeIntervals wp /\
             loops w' = loops wp /\ live w' = live wp /\ timeouts w' = timeouts wp /\
             transactions w' = transactions wp /\
             exists m, outbox w' = SendMessage chatId m :: outbox wp \/
                       outbox w' = SendMessage chatId MsgErrorOccurred
                                     :: SendMessage chatId m :: outbox wp)
            \/
            (exists later photo,
               outbox w' = (later ++ SendPhoto chatId photo amount :: outbox wp)%list)).
  { intros rs0 qr md5 tid' wp Hf.
    destruct qr as [url|], md5 as [hash|];
      try (left; unfold gen_result in Hf;
           destruct (Hrefused _ _ _ (or_introl Hf)) as (?&?&?&?&?&?&?);
           repeat (split; [assumption|]); eexists; eassumption).
    destruct (String.eqb url "") eqn:Eu; [|destruct (String.eqb hash "") eqn:Eh].
    - left. unfold gen_result in Hf. rewrite Eu in Hf. simpl in Hf.
      destruct (Hrefused _ _ _ (or_introl Hf)) as (?&?&?&?&?&?&?).
      repeat (split; [assumption|]). eexists; eassumption.
    - left. unfold gen_result in Hf. rewrite Eu, Eh in Hf. simpl in Hf.
      destruct (Hrefused _ _ _ (or_introl Hf)) as (?&?&?&?&?&?&?).
      repeat (split; [assumption|]). eexists; eassumption.
    - right. apply String.eqb_neq in Eu, Eh.
      exact (gen_result_attempts_a_photo _ _ _ _ _ _ _ _ Eu Eh Hf). }
  unfold generateQR in Hfin. cbv zeta in Hfin.
  repeat match type of Hfin with
         | context [if ?c then _ else _] => destruct c
         end;
    try (left; destruct (Hrefused _ _ _ (or_intror Hfin)) as (?&?&?&?&?&?&?);
         repeat (split; [assumption|]); eexists; eassumption).
  next_reply Hfin. unfold gen_created in Hfin0.
  destruct (create_outcome o) as [e|d].
  - left. unfold gen_failed in Hfin0.
    destruct (Hrefused _ _ _ (or_introl Hfin0)) as (?&?&?&?&?&?&?).
    repeat (split; [assumption|]). eexists; eassumption.
  - cbv zeta in Hfin0.
    repeat match type of Hfin0 with
           | context [if ?c then _ else _] => destruct c
           | context [match ?c with Some _ => _ | None => _ end] => destruct c eqn:?
           end;
      try (destruct (finish_suspended _ _ _ _ Hfin0 eq_refl)
             as (t' & r & rs' & s' & -> & Hs' & Hfin');
           destruct r; cbn [resume] in Hs'; try discriminate Hs';
           match type of Hs' with
           | Some ?x = Some _ => assert (E : s' = x) by congruence; subst s'
           end);
      match goal with
      | H : finish _ (gen_result _ _ _ _ _ _) = Some _ |- _ =>
          exact (Hresult _ _ _ _ _ H)
      end.
Qed.

(** Owner 7 is polling for a first top-up and asks for a second; the
    gateway is down: the owner is told, and the first request stays. *)
Lemma refused_topup_keeps_the_previous_request_witness :
  exists w',
    finish [ (9000, Created NetworkError); (9001, Sent 81) ]
      (generateQR 7 7 (Fin 2) "rnd2" polling) = Some w' /\
    getTransaction 7 w' = Some (Request.Make "H1" "rnd" 77 8 (Fin 5) false) /\
    loops w' !! 0%nat = Some (Loop.Make 7 "H1" (Fin 5) 2).
Proof.
  destruct (finish [ (9000, Created NetworkError); (9001, Sent 81) ]
              (generateQR 7 7 (Fin 2) "rnd2" polling))
    as [w'|] eqn:Hfin; [|vm_compute in Hfin; discriminate].
  exists w'. split; [reflexivity|].
  destruct (refused_topup_keeps_the_previous_request 7 7 (Fin 2) "rnd2" _ polling w' Hfin)
    as [(Hp & _ & Hl & _)|(later & photo & Ho)].
  - unfold getTransaction. rewrite Hp, Hl. split; reflexivity.
  - exfalso. vm_compute in Hfin. injection Hfin as <-. simpl in Ho.
    destruct later as [|? [|? ?]]; discriminate Ho.
Defined.

(** ** The limits an administrator sets *)

Lemma limits_valid_loaded (w : world) (lo hi : Q) :
  settings w = (Fin lo, Fin hi) -> (1 # 100 <= lo)%Q -> (lo < hi)%Q ->
  minTopupAmount (loadSettings w) = Fin lo /\ maxTopupAmount (loadSettings w) = Fin hi.
Proof.
  intros Hs Hlo Hhi. simpl. rewrite Hs. simpl. unfold js_or. simpl.
  assert (H0 : (0 < lo)%Q) by (eapply Qlt_le_trans; [|exact Hlo]; reflexivity).
  assert (Hl : Qeq_bool lo 0 = false).
  { destruct (Qeq_bool lo 0) eqn:He; [|reflexivity].
    apply Qeq_bool_iff in He. rewrite He in H0. now apply Qlt_irrefl in H0. }
  assert (Hh : Qeq_bool hi 0 = false).
  { destruct (Qeq_bool hi 0) eqn:He; [|reflexivity].
    apply Qeq_bool_iff in He. rewrite He in Hhi.
    exfalso. apply (Qlt_irrefl 0). eapply Qlt_trans; eassumption. }
  rewrite Hl, Hh. split; reflexivity.
Qed.

(** What [validateSetting] lets through as a new minimum. *)
Lemma validateSetting_minTopup (value : setting_value) (current : jsnum * jsnum) (hi : Q) :
  snd current = Fin hi ->
  validateSetting "minTopup" value current = None ->
  exists q, parsed value = Fin q /\ (1 # 100 <= q)%Q /\ (q < hi)%Q.
Proof.
  intros Hhi. unfold validateSetting. simpl. rewrite Hhi.
  destruct (parsed value) as [|[|]|q]; simpl; try discriminate.
  unfold js_le, js_lt, js_ge. simpl.
  destruct (q ?= 0)%Q eqn:H0; try discriminate.
  destruct (q ?= 1 # 100)%Q eqn:H1; try discriminate;
    destruct (q ?= hi)%Q eqn:H2; try discriminate; intros _; exists q;
    (split; [reflexivity|]); (split; [|apply Qlt_alt; exact H2]).
  - apply Qeq_alt in H1. rewrite H1. apply Qle_refl.
  - apply Qgt_alt in H1. now apply Qlt_le_weak.
Qed.

(** What [validateSetting] lets through as a new maximum. *)
Lemma validateSetting_maxTopup (value : setting_value) (current : jsnum * jsnum) (lo : Q) :
  fst current = Fin lo ->
  validateSetting "maxTopup" value current = None ->
  exists q, parsed value = Fin q /\ (lo < q)%Q /\ (q <= 10000)%Q.
Proof.
  intros Hlo. unfold validateSetting. simpl. rewrite Hlo.
  destruct (parsed value) as [|[|]|q]; simpl; try discriminate.
  unfold js_le, js_gt. simpl.
  destruct (q ?= 0)%Q eqn:H0; try discriminate.
  destruct (q ?= 10000)%Q eqn:H1; try discriminate;
    destruct (q ?= lo)%Q eqn:H2; try discriminate; intros _; exists q;
    (split; [reflexivity|]); (split; [apply Qgt_alt; exact H2|]).
  - apply Qeq_alt in H1. rewrite H1. apply Qle_refl.
  - apply Qlt_alt in H1. now apply Qlt_le_weak.
Qed.

(** X17. The settings route keeps the two limits in order. If they are
    finite with 0.01 <= minimum < maximum <= 10000, they still are after
    any request to the route, whatever key and value it carries ([NaN]
    being what [parseFloat] makes of a missing or empty value) and
    whether or not the .env file could be written; and a request that is
    not answered [Updated] leaves both limits as they were. *)
Theorem validated_limits_stay_ordered
    (key : string) (value : setting_value) (written : bool) (w : world) :
  well_read value ->
  limits_valid (settings w) ->
  exists r w', settings_update key value written w = Some (r, w') /\
    limits_valid (settings w') /\
    (r <> Updated -> settings w' = settings w).
Proof.
  intros Hread Hvalid. unfold settings_update, allowedSettings. simpl existsb.
  destruct (settings w) as [[| |lo] [| |hi]] eqn:Hs; simpl in Hvalid; try contradiction.
  destruct Hvalid as (Hlo & Hlt & Hhi).
  assert (Hkeep : limits_valid (settings w))
    by (rewrite Hs; simpl; auto).
  destruct (String.eqb key "botToken") eqn:E1.
  { apply String.eqb_eq in E1. subst key. simpl.
    destruct (validateSetting _ _ _); [eexists _, _; split; [reflexivity|];
      rewrite Hs; split; [simpl; auto|reflexivity]|].
    destruct written; simpl; eexists _, _; (split; [reflexivity|]); simpl; rewrite Hs;
      (split; [simpl; auto|reflexivity]). }
  destruct (String.eqb key "bakongId") eqn:E2.
  { apply String.eqb_eq in E2. subst key. simpl.
    destruct (validateSetting _ _ _); [eexists _, _; split; [reflexivity|];
      rewrite Hs; split; [simpl; auto|reflexivity]|].
    destruct written; simpl; eexists _, _; (split; [reflexivity|]); simpl; rewrite Hs;
      (split; [simpl; auto|reflexivity]). }
  destruct (String.eqb key "merchantName") eqn:E3.
  { apply String.eqb_eq in E3. subst key. simpl.
    destruct (validateSetting _ _ _); [eexists _, _; split; [reflexivity|];
      rewrite Hs; split; [simpl; auto|reflexivity]|].
    destruct written; simpl; eexists _, _; (split; [reflexivity|]); simpl; rewrite Hs;
      (split; [simpl; auto|reflexivity]). }
  destruct (String.eqb key "bearerToken") eqn:E4.
  { apply String.eqb_eq in E4. subst key. simpl.
    destruct (validateSetting _ _ _); [eexists _, _; split; [reflexivity|];
      rewrite Hs; split; [simpl; auto|reflexivity]|].
    destruct written; simpl; eexists _, _; (split; [reflexivity|]); simpl; rewrite Hs;
      (split; [simpl; auto|reflexivity]). }
  destruct (String.eqb key "minTopup") eqn:E5.
  { apply String.eqb_eq in E5. subst key. simpl.
    destruct (validateSetting "minTopup" value (Fin lo, Fin hi)) as [e|] eqn:Hv;
      [eexists _, _; split; [reflexivity|];
       rewrite Hs; split; [simpl; auto|reflexivity]|].
    destruct (validateSetting_minTopup value (Fin lo, Fin hi) hi eq_refl Hv)
      as (q & Hq & Hq1 & Hq2).
    destruct written; simpl; eexists _, _; (split; [reflexivity|]); simpl; rewrite Hs;
      [|split; [simpl; auto|reflexivity]].
    split; [|intros Hne; congruence].
    unfold stored_limit. destruct (truthy (given value)) eqn:Ht.
    - rewrite Hq. simpl. auto.
    - rewrite (Hread Ht) in Hq. discriminate. }
  destruct (String.eqb key "maxTopup") eqn:E6.
  { apply String.eqb_eq in E6. subst key. simpl.
    destruct (validateSetting "maxTopup" value (Fin lo, Fin hi)) as [e|] eqn:Hv;
      [eexists _, _; split; [reflexivity|];
       rewrite Hs; split; [simpl; auto|reflexivity]|].
    destruct (validateSetting_maxTopup value (Fin lo, Fin hi) lo eq_refl Hv)
      as (q & Hq & Hq1 & Hq2).
    destruct written; simpl; eexists _, _; (split; [reflexivity|]); simpl; rewrite Hs;
      [|split; [simpl; auto|reflexivity]].
    split; [|intros Hne; congruence].
    unfold stored_limit. destruct (truthy (given value)) eqn:Ht.
    - rewrite Hq. simpl. auto.
    - rewrite (Hread Ht) in Hq. discriminate. }
  simpl. eexists _, _. split; [reflexivity|]. rewrite Hs. split; [simpl; auto|reflexivity].
Qed.

Lemma validated_limits_stay_ordered_witness :
  let w := boot (Fin (1 # 100), Fin 1000) ∅ [] in
  exists w',
    settings_update "maxTopup" (SettingValue (Some "500") (Fin 500)) true w
    = Some (Updated, w') /\
    limits_valid (settings w') /\ settings w' = (Fin (1 # 100), Fin 500).
Proof.
  intros w.
  assert (Hread : well_read (SettingValue (Some "500") (Fin 500)))
    by (intros Ht; discriminate Ht).
  assert (Hvalid : limits_valid (settings w))
    by (simpl; repeat split; discriminate).
  destruct (validated_limits_stay_ordered "maxTopup" (SettingValue (Some "500") (Fin 500))
              true w Hread Hvalid) as (r & w' & Heq & Hok & _).
  exists w'.
  assert (Hr : r = Updated /\ settings w' = (Fin (1 # 100), Fin 500)).
  { vm_compute in Heq. injection Heq as <- <-. split; reflexivity. }
  destruct Hr as [-> Hs]. split; [exact Heq|]. split; [exact Hok|exact Hs].
Defined.

(** X18. While the limits are in that order, the amounts for which
    [generateQR] asks the gateway for a QR code are exactly the finite
    amounts from the configured minimum to the configured maximum; so
    every such amount is a finite number from 0.01 to 10000. *)
Theorem valid_limits_bound_what_is_requested
    (chatId userId : Z) (amount : jsnum) (tid : string) (w : world) :
  limits_valid (settings w) ->
  (snd (generateQR chatId userId amount tid w) = Some (GenCreate chatId amount tid)
   <-> exists q, amount = Fin q /\
         js_le (fst (settings w)) amount = true /\
         js_le amount (snd (settings w)) = true) /\
  (snd (generateQR chatId userId amount tid w) = Some (GenCreate chatId amount tid)
   -> exists q, amount = Fin q /\ (1 # 100 <= q)%Q /\ (q <= 10000)%Q).
Proof.
  intros Hvalid.
  destruct (settings w) as [[| |lo] [| |hi]] eqn:Hs; simpl in Hvalid; try contradiction.
  destruct Hvalid as (Hlo & Hlt & Hhi).
  destruct (limits_valid_loaded w lo hi Hs Hlo Hlt) as [Hmin Hmax].
  pose proof (generateQR_requests_iff chatId userId amount tid w lo hi Hmin Hmax) as Hiff.
  assert (Hle : forall p q : Q, js_le (Fin p) (Fin q) = true <-> (p <= q)%Q).
  { intros p q. unfold js_le. simpl. rewrite Qle_alt.
    destruct (p ?= q)%Q; split; intros; congruence. }
  split.
  - rewrite Hiff. simpl. split.
    + intros (q & -> & _ & H1 & H2). exists q. split; [reflexivity|].
      split; apply Hle; assumption.
    + intros (q & -> & H1 & H2). apply Hle in H1, H2. exists q.
      split; [reflexivity|]. split; [|split; assumption].
      eapply Qlt_le_trans; [|exact H1]. eapply Qlt_le_trans; [|exact Hlo]. reflexivity.
  - intros Hreq. apply Hiff in Hreq. destruct Hreq as (q & -> & _ & H1 & H2).
    exists q. split; [reflexivity|]. split.
    + eapply Qle_trans; eassumption.
    + eapply Qle_trans; eassumption.
Qed.

Lemma valid_limits_bound_what_is_requested_witness :
  let w := boot (Fin (1 # 100), Fin 1000) ∅ [] in
  snd (generateQR 7 7 (Fin (1 # 100)) "rnd" w) = Some (GenCreate 7 (Fin (1 # 100)) "rnd") /\
  snd (generateQR 7 7 (Inf false) "rnd" w) <> Some (GenCreate 7 (Inf false) "rnd").
Proof.
  intros w.
  assert (Hvalid : limits_valid (settings w))
    by (simpl; repeat split; discriminate).
  split.
  - apply (proj1 (valid_limits_bound_what_is_requested 7 7 (Fin (1 # 100)) "rnd" w Hvalid)).
    exists (1 # 100). repeat split.
  - intros Hreq.
    destruct (proj2 (valid_limits_bound_what_is_requested 7 7 (Inf false) "rnd" w Hvalid)
                Hreq) as (q & Hq & _).
    discriminate Hq.
Defined.

(** ** The handler that calls the controller *)

(** X19. The amount [handleTopupAmountInput] forwards is one the
    controller accepts: when both configured limits are numbers other
    than zero, every call of [processTopup] the handler makes gets past
    the validation of [generateQR] and asks the gateway for a QR code of
    the amount typed, with no message sent ([Number] accepting no text,
    the empty one apart, that [parseFloat] makes [NaN] of). *)
Theorem forwarded_amount_is_accepted
    (chatId fromId : Z) (amount : amount_text) (tid : string) (w : world) (s : segment) :
  js_truthy (fst (settings w)) = true ->
  js_truthy (snd (settings w)) = true ->
  conversions_agree amount ->
  handleTopupAmountInput chatId fromId amount tid w = Forwarded s ->
  s = await (GenCreate chatId (as_float amount) tid)
        (request (GwCreate (as_float amount)) (loadSettings w)).
Proof.
  intros Hmin Hmax Hagree. unfold handleTopupAmountInput, processTopup.
  destruct (blank amount) eqn:Hb; [discriminate|].
  destruct (js_isNaN (as_number amount)) eqn:Hn; [discriminate|]. simpl.
  destruct (js_le (as_float amount) (Fin 0)) eqn:H0; [discriminate|].
  destruct (js_lt (as_float amount) (fst (settings w))) eqn:H1; [discriminate|].
  destruct (js_gt (as_float amount) (snd (settings w))) eqn:H2; [discriminate|].
  intros [= <-]. specialize (Hagree Hb Hn).
  unfold generateQR. simpl. unfold js_or. rewrite Hmin, Hmax, H1, H2, Hagree, H0.
  assert (Ht : js_truthy (as_float amount) = true).
  { destruct (as_float amount) as [|[|]|q]; try discriminate; try reflexivity.
    simpl. unfold js_le in H0. simpl in H0.
    destruct (Qeq_bool q 0) eqn:He; [|reflexivity].
    apply Qeq_bool_iff, Qeq_alt in He. rewrite He in H0. discriminate. }
  rewrite Ht. reflexivity.
Qed.

Lemma forwarded_amount_is_accepted_witness :
  let w := boot (Fin (1 # 100), Fin 1000) ∅ [] in
  exists s,
    handleTopupAmountInput 7 7 (AmountText false (Fin 5) (Fin 5)) "rnd" w = Forwarded s /\
    snd s = Some (GenCreate 7 (Fin 5) "rnd") /\ gateway (fst s) = [GwCreate (Fin 5)].
Proof.
  intros w.
  destruct (handleTopupAmountInput 7 7 (AmountText false (Fin 5) (Fin 5)) "rnd" w)
    as [m|s] eqn:Hh; [vm_compute in Hh; discriminate|].
  exists s. split; [reflexivity|].
  assert (Hagree : conversions_agree (AmountText false (Fin 5) (Fin 5)))
    by (intros _ _; reflexivity).
  rewrite (forwarded_amount_is_accepted 7 7 _ "rnd" w s eq_refl eq_refl Hagree Hh).
  split; reflexivity.
Defined.

(** ** Random transaction ids *)

Lemma random_index_range (r : Q) :
  (0 <= r)%Q -> (r < 1)%Q -> 0 <= random_index r < 62.
Proof.
  intros H0 H1. unfold random_index.
  change (Z.of_nat (String.length chars)) with 62.
  split.
  - change 0 with (Qfloor 0). apply Qfloor_resp_le.
    apply Qmult_le_0_compat; [exact H0|discriminate].
  - rewrite Zlt_Qlt. eapply Qle_lt_trans; [apply Qfloor_le|].
    apply Qlt_le_trans with (1 * inject_Z 62)%Q.
    + apply Qmult_lt_compat_r; [reflexivity|exact H1].
    + rewrite Qmult_1_l. apply Qle_refl.
Qed.

Lemma get_characters (s : string) (n : nat) :
  (n < String.length s)%nat ->
  exists c, String.get n s = Some c /\ In c (characters s).
Proof.
  revert n. induction s as [|a s IH]; intros n Hn; simpl in *; [lia|].
  destruct n as [|n].
  - exists a. split; [reflexivity|left; reflexivity].
  - destruct (IH n) as (c & Hc & Hin); [lia|]. exists c. split; [exact Hc|right; exact Hin].
Qed.

Lemma charAt_chars (i : Z) :
  0 <= i < 62 -> exists c, charAt chars i = String c "" /\ In c (characters chars).
Proof.
  intros Hi. unfold charAt. destruct (i <? 0) eqn:Hneg; [apply Z.ltb_lt in Hneg; lia|].
  destruct (get_characters chars (Z.to_nat i)) as (c & Hc & Hin).
  { change (String.length chars) with 62%nat. lia. }
  exists c. rewrite Hc. split; [reflexivity|exact Hin].
Qed.

Lemma characters_app (s t : string) :
  characters (s ++ t) = (characters s ++ characters t)%list.
Proof. unfold characters. induction s as [|a s IH]; simpl; [reflexivity|]. now rewrite IH. Qed.

Lemma length_characters (s : string) : length (characters s) = String.length s.
Proof. unfold characters. induction s as [|a s IH]; simpl; [reflexivity|]. now rewrite IH. Qed.

Lemma random_chars (random : nat -> Q) (l : list nat) (acc : string) :
  draws random ->
  Forall (fun c => In c (characters chars)) (characters acc) ->
  let result :=
    fold_left (fun result i => result ++ charAt chars (random_index (random i))) l acc in
  String.length result = (String.length acc + length l)%nat /\
  Forall (fun c => In c (characters chars)) (characters result).
Proof.
  intros Hd. revert acc. induction l as [|i l IH]; intros acc Hacc; simpl.
  - split; [lia|exact Hacc].
  - destruct (Hd i) as [H0 H1].
    destruct (charAt_chars _ (random_index_range _ H0 H1)) as (c & Hc & Hin).
    destruct (IH (acc ++ charAt chars (random_index (random i)))) as [Hlen Hall].
    + rewrite characters_app, Hc. apply Forall_app. split; [exact Hacc|].
      constructor; [exact Hin|constructor].
    + split; [|exact Hall]. rewrite Hlen, <- !length_characters, characters_app, Hc.
      rewrite length_app. simpl. lia.
Qed.

(** X20. [generateRandomString] returns a string of exactly the length
    asked for (10 when none is given), made of letters and digits only,
    whatever [Math.random()] draws from [0, 1). *)
Theorem generateRandomString_is_alphanumeric (length : option nat) (random : nat -> Q) :
  draws random ->
  String.length (generateRandomString length random) = default 10%nat length /\
  Forall (fun c => In c (characters chars))
         (characters (generateRandomString length random)).
Proof.
  intros Hd. unfold generateRandomString.
  destruct (random_chars random (seq 0 (default 10%nat length)) "" Hd) as [Hlen Hall];
    [constructor|].
  split; [|exact Hall]. rewrite Hlen, length_seq. reflexivity.
Qed.

Lemma generateRandomString_is_alphanumeric_witness :
  let random := fun i : nat => Z.of_nat (i mod 12) # 12 in
  String.length (generateRandomString (Some 12%nat) random) = 12%nat /\
  generateRandomString (Some 12%nat) random = "AFKPUZfkpuz4".
Proof.
  intros random.
  assert (Hd : draws random).
  { intros i. unfold random, Qle, Qlt. simpl.
    pose proof (Nat.mod_upper_bound i 12). lia. }
  split; [|vm_compute; reflexivity].
  exact (proj1 (generateRandomString_is_alphanumeric (Some 12%nat) random Hd)).
Defined.

(** ** Escaping *)

Lemma escapeHtml_entities (s : string) : escapeHtml (Some s) = entities s.
Proof.
  unfold escapeHtml. destruct (String.eqb s "") eqn:He.
  { apply String.eqb_eq in He. subst s. reflexivity. }
  clear He. induction s as [|a s IH]; [reflexivity|].
  simpl entities. rewrite <- IH. unfold entity.
  destruct (Ascii.eqb a "&") eqn:E1.
  { apply Ascii.eqb_eq in E1. subst a. reflexivity. }
  destruct (Ascii.eqb a "<") eqn:E2.
  { apply Ascii.eqb_eq in E2. subst a. reflexivity. }
  destruct (Ascii.eqb a ">") eqn:E3.
  { apply Ascii.eqb_eq in E3. subst a. reflexivity. }
  destruct (Ascii.eqb a dquote) eqn:E4.
  { apply Ascii.eqb_eq in E4. subst a. reflexivity. }
  destruct (Ascii.eqb a "'") eqn:E5.
  { apply Ascii.eqb_eq in E5. subst a. reflexivity. }
  cbn [replace_all]. rewrite E1. cbn [replace_all]. rewrite E2.
  cbn [replace_all]. rewrite E3. cbn [replace_all]. rewrite E4.
  cbn [replace_all]. rewrite E5. reflexivity.
Qed.

Lemma entity_no_markup (c : ascii) :
  Forall (fun x => markup x = false) (characters (entity c)).
Proof.
  unfold entity.
  repeat match goal with
         | |- context [if ?b then _ else _] => destruct b eqn:?
         end; try (repeat constructor).
  unfold markup. repeat match goal with H : Ascii.eqb _ _ = false |- _ => rewrite H; clear H end.
  reflexivity.
Qed.

(** X21. [escapeHtml] leaves no [<], no [>], no double quote and no
    apostrophe in its result, whatever the text, and returns the empty string
    for a missing or empty text. Its five passes add up to one: each
    character of the text is replaced by its entity, and no character of
    an entity that was put in is escaped again. *)
Theorem escapeHtml_leaves_no_markup (text : option string) :
  Forall (fun c => markup c = false) (characters (escapeHtml text)) /\
  escapeHtml text = match text with Some s => entities s | None => "" end.
Proof.
  destruct text as [s|]; [|split; [constructor|reflexivity]].
  rewrite escapeHtml_entities. split; [|reflexivity].
  induction s as [|a s IH]; simpl; [constructor|].
  rewrite characters_app. apply Forall_app. split; [apply entity_no_markup|exact IH].
Qed.

Lemma entity_cases (c : ascii) :
  (c = "&"%char /\ entity c = "&amp;") \/ (c = "<"%char /\ entity c = "&lt;") \/
  (c = ">"%char /\ entity c = "&gt;") \/ (c = dquote /\ entity c = "&quot;") \/
  (c = "'"%char /\ entity c = "&#39;") \/ (c <> "&"%char /\ entity c = String c "").
Proof.
  unfold entity.
  destruct (Ascii.eqb c "&") eqn:E1; [apply Ascii.eqb_eq in E1; auto|].
  destruct (Ascii.eqb c "<") eqn:E2; [apply Ascii.eqb_eq in E2; auto|].
  destruct (Ascii.eqb c ">") eqn:E3; [apply Ascii.eqb_eq in E3; auto 6|].
  destruct (Ascii.eqb c dquote) eqn:E4; [apply Ascii.eqb_eq in E4; auto 8|].
  destruct (Ascii.eqb c "'") eqn:E5; [apply Ascii.eqb_eq in E5; auto 10|].
  apply Ascii.eqb_neq in E1. auto 12.
Qed.

Lemma entity_prefix (a b : ascii) (x y : string) :
  entity a ++ x = entity b ++ y -> a = b /\ x = y.
Proof.
  destruct (entity_cases a) as [[Ha ->]|[[Ha ->]|[[Ha ->]|[[Ha ->]|[[Ha ->]|[Ha ->]]]]]];
    destruct (entity_cases b) as [[Hb ->]|[[Hb ->]|[[Hb ->]|[[Hb ->]|[[Hb ->]|[Hb ->]]]]]];
    intros H; cbv [String.append] in H; try discriminate H;
    try (injection H as ->; subst; split; reflexivity);
    try (injection H as -> _; congruence);
    try (injection H as <- _; congruence);
    try (injection H as -> ->; split; reflexivity).
Qed.

(** X22. [escapeHtml] loses nothing: two texts with the same escaped
    form are the same text. *)
Theorem escapeHtml_is_injective (s t : string) :
  escapeHtml (Some s) = escapeHtml (Some t) -> s = t.
Proof.
  rewrite !escapeHtml_entities. revert t.
  induction s as [|a s IH]; intros [|b t] H; cbn [entities] in H.
  - reflexivity.
  - exfalso.
    destruct (entity_cases b) as [[_ Hb]|[[_ Hb]|[[_ Hb]|[[_ Hb]|[[_ Hb]|[_ Hb]]]]]];
      rewrite Hb in H; discriminate H.
  - exfalso.
    destruct (entity_cases a) as [[_ Ha]|[[_ Ha]|[[_ Ha]|[[_ Ha]|[[_ Ha]|[_ Ha]]]]]];
      rewrite Ha in H; discriminate H.
  - apply entity_prefix in H. destruct H as [-> H]. f_equal. apply IH. exact H.
Qed.

Lemma escapeHtml_is_injective_witness :
  escapeHtml (Some "a<b & c") = "a&lt;b &amp; c" /\
  forall t, escapeHtml (Some t) = "a&lt;b &amp; c" -> t = "a<b & c".
Proof.
  split; [reflexivity|].
  intros t Ht. symmetry. apply (escapeHtml_is_injective "a<b & c" t).
  rewrite Ht. reflexivity.
Defined.

(** ** The game type keyboard *)

Lemma game_rows_spec (n : nat) (gameTypes : list string) :
  (length gameTypes <= n)%nat ->
  concat (game_rows gameTypes) = map browse_button gameTypes /\
  length (game_rows gameTypes) = Nat.div2 (S (length gameTypes)) /\
  Forall (fun row => length row = 2%nat) (removelast (game_rows gameTypes)) /\
  Forall (fun row => (1 <= length row <= 2)%nat) (game_rows gameTypes).
Proof.
  revert gameTypes. induction n as [|n IH]; intros [|a [|b rest]] Hn; simpl in *;
    try lia; try (repeat split; repeat constructor; fail).
  destruct (IH rest) as (Hc & Hl & Hfull & Hrows); [lia|].
  split; [now rewrite Hc|]. split; [now rewrite Hl|].
  split; [|constructor; [simpl; lia|exact Hrows]].
  destruct (game_rows rest) eqn:Hg; [constructor|].
  constructor; [reflexivity|exact Hfull].
Qed.

(** X23. The keyboard of [createGameTypeKeyboard] has one button for
    every game type, in the order given and none twice, two a row (only
    the last of these rows can have a single button), and after them one
    row with the button for all games: for [n] game types that is
    [ceil(n / 2) + 1] rows. Each button is labelled with its game type
    and calls back [browse_] followed by it. *)
Theorem game_keyboard_has_every_type_once (gameTypes : list string) :
  let rows := createGameTypeKeyboard gameTypes in
  concat rows = (map browse_button gameTypes ++ [all_games])%list /\
  length rows = S (Nat.div2 (S (length gameTypes))) /\
  last rows = Some [all_games] /\
  Forall (fun row => length row = 2%nat) (removelast (removelast rows)) /\
  Forall (fun row => (1 <= length row <= 2)%nat) rows.
Proof.
  unfold createGameTypeKeyboard.
  destruct (game_rows_spec (length gameTypes) gameTypes (le_n _)) as (Hc & Hl & Hfull & Hrows).
  split; [rewrite concat_app, Hc; reflexivity|].
  split; [rewrite length_app, Hl; simpl; lia|].
  split; [apply last_snoc|].
  split.
  - rewrite removelast_last. exact Hfull.
  - apply Forall_app. split; [exact Hrows|]. constructor; [simpl; lia|constructor].
Qed.

(** ** The age of the last activity *)

Lemma nested_floor (d : Z) :
  d / 1000 / 60 = d / 60000 /\ d / 1000 / 60 / 60 = d / 3600000 /\
  d / 1000 / 60 / 60 / 24 = d / 86400000.
Proof. rewrite !Z.div_div by lia. repeat split. Qed.

(** X24. [formatLastActive] reports the age in whole units: the number
    it shows is the age divided by the length of the unit, rounded down
    (a month of 30 days, a year of 365), with the plural for every number
    but 1, and it shows a number only for an age of a minute or more.
    The number is 0 exactly for an age from 28 days up to, but not
    including, 30 days ([0 months ago]) and from 360 days up to, but not
    including, 365 days ([0 years ago]). *)
Theorem formatLastActive_counts_whole_units (diffMs n : Z) (unit : time_unit) (plural : bool) :
  formatLastActive (Elapsed diffMs) = Ago n unit plural ->
  n = diffMs / milliseconds unit /\ plural = negb (n =? 1) /\ 60000 <= diffMs /\
  (n = 0 <->
   (unit = Month /\ 28 * 86400000 <= diffMs < 30 * 86400000) \/
   (unit = Year /\ 360 * 86400000 <= diffMs < 365 * 86400000)).
Proof.
  unfold formatLastActive, ago.
  destruct (nested_floor diffMs) as (Hm & Hh & Hd). rewrite Hd, Hh, Hm.
  assert (Hw : diffMs / 86400000 / 7 = diffMs / (7 * 86400000))
    by (rewrite Z.div_div by lia; reflexivity).
  assert (Hmo : diffMs / 86400000 / 30 = diffMs / (30 * 86400000))
    by (rewrite Z.div_div by lia; reflexivity).
  assert (Hy : diffMs / 86400000 / 365 = diffMs / (365 * 86400000))
    by (rewrite Z.div_div by lia; reflexivity).
  rewrite Hw, Hmo, Hy.
  destruct (diffMs / 1000 <? 60) eqn:C1; [discriminate|].
  apply Z.ltb_ge in C1.
  assert (H60 : 60000 <= diffMs) by (Z.to_euclidean_division_equations; lia).
  destruct (diffMs / 60000 <? 60) eqn:C2.
  { intros [= <- <- <-]. apply Z.ltb_lt in C2. simpl milliseconds.
    split; [reflexivity|]. split; [reflexivity|]. split; [exact H60|].
    split; [Z.to_euclidean_division_equations; lia|intros [[? _]|[? _]]; discriminate]. }
  apply Z.ltb_ge in C2.
  destruct (diffMs / 3600000 <? 24) eqn:C3.
  { intros [= <- <- <-]. apply Z.ltb_lt in C3. simpl milliseconds.
    split; [reflexivity|]. split; [reflexivity|]. split; [exact H60|].
    split; [Z.to_euclidean_division_equations; lia|intros [[? _]|[? _]]; discriminate]. }
  apply Z.ltb_ge in C3.
  destruct (diffMs / 86400000 <? 7) eqn:C4.
  { intros [= <- <- <-]. apply Z.ltb_lt in C4. simpl milliseconds.
    split; [reflexivity|]. split; [reflexivity|]. split; [exact H60|].
    split; [Z.to_euclidean_division_equations; lia|intros [[? _]|[? _]]; discriminate]. }
  apply Z.ltb_ge in C4.
  destruct (diffMs / (7 * 86400000) <? 4) eqn:C5.
  { intros [= <- <- <-]. apply Z.ltb_lt in C5. simpl milliseconds.
    split; [reflexivity|]. split; [reflexivity|]. split; [exact H60|].
    split; [Z.to_euclidean_division_equations; lia|intros [[? _]|[? _]]; discriminate]. }
  apply Z.ltb_ge in C5.
  destruct (diffMs / (30 * 86400000) <? 12) eqn:C6.
  { intros [= <- <- <-]. apply Z.ltb_lt in C6. simpl milliseconds.
    split; [reflexivity|]. split; [reflexivity|]. split; [exact H60|].
    split.
    - intros H0. left. split; [reflexivity|]. Z.to_euclidean_division_equations; lia.
    - intros [[_ Hr]|[? _]]; [|discriminate]. Z.to_euclidean_division_equations; lia. }
  apply Z.ltb_ge in C6.
  intros [= <- <- <-]. simpl milliseconds.
  split; [reflexivity|]. split; [reflexivity|]. split; [exact H60|].
  split.
  - intros H0. right. split; [reflexivity|]. Z.to_euclidean_division_equations; lia.
  - intros [[? _]|[_ Hr]]; [discriminate|]. Z.to_euclidean_division_equations; lia.
Qed.

Lemma formatLastActive_counts_whole_units_witness :
  formatLastActive (Elapsed (29 * 86400000)) = Ago 0 Month true /\
  formatLastActive (Elapsed (364 * 86400000)) = Ago 0 Year true /\
  0 = 29 * 86400000 / milliseconds Month.
Proof.
  split; [reflexivity|]. split; [reflexivity|].
  exact (proj1 (formatLastActive_counts_whole_units (29 * 86400000) 0 Month true eq_refl)).
Defined.
